(** * MP3-to-WAV Studio: a shallow embedding of the mastering core

    The development follows the TypeScript sources:
    - [src/App.tsx]: the WAV encoder [encodeWAV] (module [Wav]);
    - [src/services/AnalysisService.ts]: the heuristic engine
      [generateAiSettings] (module [Assistant]) and the class [AudioEngine]
      (module [Engine]);
    - [src/constants.ts]: [DEFAULT_SETTINGS];
    - the type declarations (EQBand, MasteringSettings, AnalysisResult, ...).

    Numbers.  A JavaScript [number] that only ever holds an integer (sizes,
    offsets, header fields) is a [Z] or a [nat].  The samples handed to the WAV
    encoder are elements of a [Float32Array]: they are modelled bit-exactly
    (sign, biased exponent, fraction), their value is a rational, and every
    product the encoder forms with them is exact in binary64.  The remaining
    numbers (decibels, gains, frequencies, seconds) are modelled as real
    numbers [R]: the transcendental functions of the source ([Math.log10],
    [Math.pow], [Math.tanh]) are the real ones, and rounding of binary64
    arithmetic is not modelled there. *)

From Stdlib Require Import ZArith QArith Qround Qminmax Qabs List Lia Bool Arith String Ascii.
From Stdlib Require Import Reals Psatz Sorted Permutation.
From coqutil Require Import Byte Word.LittleEndianList.
Import ListNotations.

(** ** Generic control structure *)

(** [for (let i = start; i < start + n; i++) body] over a state that can fail. *)
Fixpoint forRange {St : Type} (n start : nat) (body : nat -> St -> option St)
  (s : St) : option St :=
  match n with
  | O => Some s
  | S n' =>
      match body start s with
      | Some s' => forRange n' (S start) body s'
      | None => None
      end
  end.

Lemma forRange_invariant {St : Type} (P : nat -> St -> Prop) :
  forall n start body s,
    P start s ->
    (forall j t, (start <= j < start + n)%nat -> P j t ->
                 exists t', body j t = Some t' /\ P (S j) t') ->
    exists s', forRange n start body s = Some s' /\ P (start + n)%nat s'.
Proof.
  induction n as [|n IH]; intros start body s Hs Hstep; simpl.
  - exists s. now rewrite Nat.add_0_r.
  - destruct (Hstep start s) as [t [Hb Ht]]; [lia | assumption |].
    rewrite Hb.
    destruct (IH (S start) body t Ht) as [s' [Hr Hp]].
    + intros j u Hj. apply Hstep. lia.
    + exists s'. split; [assumption|].
      now replace (start + S n)%nat with (S start + n)%nat by lia.
Qed.

(** ** The WAV encoder of [src/App.tsx] *)

Module Wav.

Local Open Scope Z_scope.

(** *** Float32Array elements *)

(** A finite binary32 value: sign bit, biased exponent (8 bits), fraction
    (23 bits).  Exponent 255 (infinities and NaN) never occurs in decoded or
    rendered audio and is excluded by [f32_finite]. *)
Record float32 : Type := mkF32 {
  f_sign : bool;
  f_exp : Z;
  f_frac : Z
}.

Definition f32_finite (f : float32) : Prop :=
  0 <= f_exp f < 255 /\ 0 <= f_frac f < 2 ^ 23.

(** The 32-bit pattern of the value (what [DataView.setFloat32] stores). *)
Definition f32_bits (f : float32) : Z :=
  (if f_sign f then 2 ^ 31 else 0) + f_exp f * 2 ^ 23 + f_frac f.

(** The value read back from a 32-bit pattern ([DataView.getFloat32]). *)
Definition f32_of_bits (w : Z) : float32 :=
  {| f_sign := Z.testbit w 31;
     f_exp := (w / 2 ^ 23) mod 2 ^ 8;
     f_frac := w mod 2 ^ 23 |}.

(** The number a Float32Array element denotes when JavaScript reads it. *)
Definition f32_value (f : float32) : Q :=
  let m := if f_exp f =? 0 then f_frac f else 2 ^ 23 + f_frac f in
  let e := if f_exp f =? 0 then -149 else f_exp f - 150 in
  let v := (inject_Z m * Qpower 2 e)%Q in
  if f_sign f then (- v)%Q else v.

(** *** AudioBuffer, as the encoder reads it *)

Record AudioBuffer : Type := mkAudioBuffer {
  numberOfChannels : nat;
  sampleRate : Z;
  length : nat;
  (** [getChannelData ch i] is element [i] of [buffer.getChannelData(ch)],
      a Float32Array of [length] elements. *)
  getChannelData : nat -> nat -> float32
}.

Inductive ExportFormat : Type := WAV_16 | WAV_24 | WAV_32.

(** *** DataView over a fresh ArrayBuffer *)

(** The view is the list of the buffer's bytes.  A write outside the buffer
    raises RangeError in JavaScript: [None]. *)
Definition DataView : Type := list byte.

Definition newArrayBuffer (n : nat) : DataView := repeat Byte.x00 n.

Definition setBytes (offset : nat) (bs : list byte) (view : DataView)
  : option DataView :=
  if (offset + List.length bs <=? List.length view)%nat
  then Some (firstn offset view ++ bs ++ skipn (offset + List.length bs) view)
  else None.

Definition endian (littleEndian : bool) (bs : list byte) : list byte :=
  if littleEndian then bs else rev bs.

Definition setUint8 (offset : nat) (v : Z) : DataView -> option DataView :=
  setBytes offset (le_split 1 v).

Definition setUint16 (offset : nat) (v : Z) (littleEndian : bool)
  : DataView -> option DataView :=
  setBytes offset (endian littleEndian (le_split 2 v)).

Definition setUint32 (offset : nat) (v : Z) (littleEndian : bool)
  : DataView -> option DataView :=
  setBytes offset (endian littleEndian (le_split 4 v)).

(** ToIntegerOrInfinity on a finite number: truncation toward zero. *)
Definition truncate (q : Q) : Z :=
  if Qlt_le_dec q 0 then Qceiling q else Qfloor q.

(** [setInt16] converts its argument with ToInt16: truncate, then wrap to 16
    bits (the wrap is the one [le_split] performs). *)
Definition setInt16 (offset : nat) (v : Q) (littleEndian : bool)
  : DataView -> option DataView :=
  setBytes offset (endian littleEndian (le_split 2 (truncate v))).

Definition setFloat32 (offset : nat) (v : float32) (littleEndian : bool)
  : DataView -> option DataView :=
  setBytes offset (endian littleEndian (le_split 4 (f32_bits v))).

Definition getBytes (offset n : nat) (view : DataView) : option (list byte) :=
  if (offset + n <=? List.length view)%nat
  then Some (firstn n (skipn offset view))
  else None.

Definition getUint32 (offset : nat) (littleEndian : bool) (view : DataView)
  : option Z :=
  option_map (fun bs => le_combine (endian littleEndian bs)) (getBytes offset 4 view).

Definition getUint16 (offset : nat) (littleEndian : bool) (view : DataView)
  : option Z :=
  option_map (fun bs => le_combine (endian littleEndian bs)) (getBytes offset 2 view).

Definition getInt16 (offset : nat) (littleEndian : bool) (view : DataView)
  : option Z :=
  option_map (fun u => if u <? 2 ^ 15 then u else u - 2 ^ 16)
             (getUint16 offset littleEndian view).

Definition getFloat32 (offset : nat) (littleEndian : bool) (view : DataView)
  : option float32 :=
  option_map f32_of_bits (getUint32 offset littleEndian view).

(** *** encodeWAV *)

Notation "x <- e ;; k" :=
  (match e with Some x => k | None => None end)
  (at level 61, e at next level, right associativity).

Definition bitDepth (format : ExportFormat) : nat :=
  match format with
  | WAV_24 => 24
  | WAV_32 => 32
  | WAV_16 => 16
  end.

Definition formatTag (format : ExportFormat) : Z :=
  match format with
  | WAV_32 => 3
  | _ => 1
  end.

Definition bytesPerSample (format : ExportFormat) : nat :=
  (bitDepth format / 8)%nat.

Definition blockAlign (buffer : AudioBuffer) (format : ExportFormat) : nat :=
  (numberOfChannels buffer * bytesPerSample format)%nat.

Definition byteRate (buffer : AudioBuffer) (format : ExportFormat) : Z :=
  sampleRate buffer * Z.of_nat (blockAlign buffer format).

Definition dataSize (buffer : AudioBuffer) (format : ExportFormat) : nat :=
  (length buffer * blockAlign buffer format)%nat.

Definition headerSize : nat := 44.

Definition totalSize (buffer : AudioBuffer) (format : ExportFormat) : nat :=
  (headerSize + dataSize buffer format)%nat.

Definition charCodeAt (s : string) (i : nat) : Z :=
  match String.get i s with
  | Some c => Z.of_nat (nat_of_ascii c)
  | None => 0
  end.

Definition writeString (offset : nat) (s : string) (view : DataView)
  : option DataView :=
  forRange (String.length s) 0
           (fun i v => setUint8 (offset + i) (charCodeAt s i) v) view.

Definition writeHeader (buffer : AudioBuffer) (format : ExportFormat)
  (view : DataView) : option DataView :=
  view <- writeString 0 "RIFF" view ;;
  view <- setUint32 4 (36 + Z.of_nat (dataSize buffer format)) true view ;;
  view <- writeString 8 "WAVE" view ;;
  view <- writeString 12 "fmt " view ;;
  view <- setUint32 16 16 true view ;;
  view <- setUint16 20 (formatTag format) true view ;;
  view <- setUint16 22 (Z.of_nat (numberOfChannels buffer)) true view ;;
  view <- setUint32 24 (sampleRate buffer) true view ;;
  view <- setUint32 28 (byteRate buffer format) true view ;;
  view <- setUint16 32 (Z.of_nat (blockAlign buffer format)) true view ;;
  view <- setUint16 34 (Z.of_nat (bitDepth format)) true view ;;
  view <- writeString 36 "data" view ;;
  setUint32 40 (Z.of_nat (dataSize buffer format)) true view.

(** [Math.max(-1, Math.min(1, x))] *)
Definition clampUnit (x : Q) : Q := Qmax (-1) (Qmin 1 x).

(** [s < 0 ? s * 0x8000 : s * 0x7FFF] *)
Definition scale16 (s : Q) : Q :=
  if Qlt_le_dec s 0 then (s * 32768)%Q else (s * 32767)%Q.

(** [s < 0 ? s * 0x800000 : s * 0x7FFFFF] *)
Definition scale24 (s : Q) : Q :=
  if Qlt_le_dec s 0 then (s * 8388608)%Q else (s * 8388607)%Q.

(** [Math.round]: the nearest integer, ties toward plus infinity. *)
Definition Math_round (q : Q) : Z := Qfloor (Qplus q (1 # 2)).

(** The loop nest [for i < length { for ch < numChannels { ... } }], the
    state being the running [offset] and the view. *)
Definition forEachSample (buffer : AudioBuffer)
  (body : float32 -> nat * DataView -> option (nat * DataView))
  : nat * DataView -> option (nat * DataView) :=
  forRange (length buffer) 0 (fun i =>
    forRange (numberOfChannels buffer) 0 (fun ch =>
      body (getChannelData buffer ch i))).

Definition writeSample32 (x : float32) (st : nat * DataView)
  : option (nat * DataView) :=
  let '(offset, view) := st in
  view <- setFloat32 offset x true view ;;
  Some ((offset + 4)%nat, view).

Definition writeSample24 (x : float32) (st : nat * DataView)
  : option (nat * DataView) :=
  let '(offset, view) := st in
  let s := clampUnit (f32_value x) in
  let s := scale24 s in
  let val := Math_round s in
  view <- setUint8 offset (Z.land val 255) view ;;
  view <- setUint8 (offset + 1) (Z.land (Z.shiftr val 8) 255) view ;;
  view <- setUint8 (offset + 2) (Z.land (Z.shiftr val 16) 255) view ;;
  Some ((offset + 3)%nat, view).

Definition writeSample16 (x : float32) (st : nat * DataView)
  : option (nat * DataView) :=
  let '(offset, view) := st in
  let s := clampUnit (f32_value x) in
  let s := scale16 s in
  view <- setInt16 offset s true view ;;
  Some ((offset + 2)%nat, view).

(** The bytes of the returned Blob; [None] when a DataView write throws. *)
Definition encodeWAV (buffer : AudioBuffer) (format : ExportFormat)
  : option (list byte) :=
  let view := newArrayBuffer (totalSize buffer format) in
  view <- writeHeader buffer format view ;;
  let offset := 44%nat in
  st <- match format with
        | WAV_32 => forEachSample buffer writeSample32 (offset, view)
        | WAV_24 => forEachSample buffer writeSample24 (offset, view)
        | WAV_16 => forEachSample buffer writeSample16 (offset, view)
        end ;;
  Some (snd st).

(** *** Reading a 16-bit sample back *)

(** Modelled from the spec: the decoder of an exported file is not part of the
    repository.  The spec gives the 16-bit scale as "±1 to ±32767/±32768"; the
    decoder below inverts that scale. *)
Definition decodeSample16 (v : Z) : Q :=
  if v <? 0 then (inject_Z v / 32768)%Q else (inject_Z v / 32767)%Q.

(** Modelled from the spec: the other decoder in common use (one divisor,
    32768, for both signs). *)
Definition decodeSample16_sym (v : Z) : Q := (inject_Z v / 32768)%Q.

End Wav.

(** ** JavaScript numbers as reals *)

Module Js.

Local Open Scope R_scope.

(** [Math.log10]; the source applies it to the RMS level, a positive number. *)
Definition Math_log10 (x : R) : R := ln x / ln 10.

(** [Math.pow] on a non-negative base. *)
Definition Math_pow (x y : R) : R :=
  if Req_dec_T x 0
  then (if Req_dec_T y 0 then 1 else 0)
  else Rpower x y.

Definition Math_min (a b : R) : R := Rmin a b.
Definition Math_max (a b : R) : R := Rmax a b.
Definition Math_abs (a : R) : R := Rabs a.

(** [parseFloat(x.toFixed(digits))]: [toFixed] prints the decimal with
    [digits] fractional digits nearest to [x], the larger one of two equally
    near (on the magnitude; the sign is printed in front). *)
Definition toFixed (digits : nat) (x : R) : R :=
  let n := IZR (Int_part (Rabs x * 10 ^ digits + / 2)) in
  if Rlt_dec x 0 then - (n / 10 ^ digits) else n / 10 ^ digits.

(** [a || b] on numbers: [b] when [a] is 0 (or undefined, see the uses). *)
Definition orElse (a : option R) (b : R) : R :=
  match a with
  | Some v => if Req_dec_T v 0 then b else v
  | None => b
  end.

Fixpoint mapi_from {A B : Type} (i : nat) (f : A -> nat -> B) (l : list A)
  : list B :=
  match l with
  | [] => []
  | x :: l' => f x i :: mapi_from (S i) f l'
  end.

(** [array.map((x, i) => f(x, i))] *)
Definition mapi {A B : Type} (f : A -> nat -> B) (l : list A) : list B :=
  mapi_from 0 f l.

End Js.

(** ** The data model (the type declarations of the repository) *)

Module Types.

Record EQBand : Type := mkEQBand {
  frequency : R;
  gain : R
}.

Record CompressorSettings : Type := mkCompressorSettings {
  threshold : R;
  ratio : R;
  attack : R;
  release : R
}.

Record ReverbSettings : Type := mkReverbSettings {
  mix : R;
  decay : R
}.

Record MasteringSettings : Type := mkMasteringSettings {
  masterGain : R;
  eq : list EQBand;
  compressor : CompressorSettings;
  reverb : ReverbSettings;
  saturation : R;
  air : R;
  body : R;
  stereoWidth : R;
  ceiling : R;
  stereoBass : R;
  dynamicBass : R;
  softClip : R
}.

Record AnalysisResult : Type := mkAnalysisResult {
  rms : R;
  crestFactor : R;
  spectralFlux : R;
  musicalKey : string;
  musicalScale : string;
  bpm : R;
  spectralBalance : list R;
  lowEnergy : R;
  midEnergy : R
}.

(** The lines of the decision log.  A line is kept with the values its
    template interpolates: numbers printed with [toFixed] are stored rounded
    the same way. *)
Inductive LogLine : Type :=
| LogAnalysisComplete
| LogMusicalContext (key scale : string) (bpm : R)
| LogSignalPath (lufs dynRange : R)
| LogEqBalanced
| LogLowEndWeak
| LogColor
| LogDynamics
| LogLoudness (gainDb densityDb : R)
| LogOptimal (lufs : R).

Record AiDecisionResult : Type := mkAiDecisionResult {
  settings : MasteringSettings;
  logs : list LogLine
}.

(** Field assignments [settings.f = v]. *)
Definition set_masterGain (v : R) (s : MasteringSettings) : MasteringSettings :=
  mkMasteringSettings v (eq s) (compressor s) (reverb s) (saturation s) (air s)
    (body s) (stereoWidth s) (ceiling s) (stereoBass s) (dynamicBass s) (softClip s).

Definition set_eq (v : list EQBand) (s : MasteringSettings) : MasteringSettings :=
  mkMasteringSettings (masterGain s) v (compressor s) (reverb s) (saturation s) (air s)
    (body s) (stereoWidth s) (ceiling s) (stereoBass s) (dynamicBass s) (softClip s).

Definition set_compressor (v : CompressorSettings) (s : MasteringSettings)
  : MasteringSettings :=
  mkMasteringSettings (masterGain s) (eq s) v (reverb s) (saturation s) (air s)
    (body s) (stereoWidth s) (ceiling s) (stereoBass s) (dynamicBass s) (softClip s).

Definition set_saturation (v : R) (s : MasteringSettings) : MasteringSettings :=
  mkMasteringSettings (masterGain s) (eq s) (compressor s) (reverb s) v (air s)
    (body s) (stereoWidth s) (ceiling s) (stereoBass s) (dynamicBass s) (softClip s).

Definition set_body (v : R) (s : MasteringSettings) : MasteringSettings :=
  mkMasteringSettings (masterGain s) (eq s) (compressor s) (reverb s) (saturation s)
    (air s) v (stereoWidth s) (ceiling s) (stereoBass s) (dynamicBass s) (softClip s).

Definition set_stereoWidth (v : R) (s : MasteringSettings) : MasteringSettings :=
  mkMasteringSettings (masterGain s) (eq s) (compressor s) (reverb s) (saturation s)
    (air s) (body s) v (ceiling s) (stereoBass s) (dynamicBass s) (softClip s).

Definition set_ceiling (v : R) (s : MasteringSettings) : MasteringSettings :=
  mkMasteringSettings (masterGain s) (eq s) (compressor s) (reverb s) (saturation s)
    (air s) (body s) (stereoWidth s) v (stereoBass s) (dynamicBass s) (softClip s).

Definition set_stereoBass (v : R) (s : MasteringSettings) : MasteringSettings :=
  mkMasteringSettings (masterGain s) (eq s) (compressor s) (reverb s) (saturation s)
    (air s) (body s) (stereoWidth s) (ceiling s) v (dynamicBass s) (softClip s).

Definition set_dynamicBass (v : R) (s : MasteringSettings) : MasteringSettings :=
  mkMasteringSettings (masterGain s) (eq s) (compressor s) (reverb s) (saturation s)
    (air s) (body s) (stereoWidth s) (ceiling s) (stereoBass s) v (softClip s).

Definition set_softClip (v : R) (s : MasteringSettings) : MasteringSettings :=
  mkMasteringSettings (masterGain s) (eq s) (compressor s) (reverb s) (saturation s)
    (air s) (body s) (stereoWidth s) (ceiling s) (stereoBass s) (dynamicBass s) v.

End Types.

(** ** [src/constants.ts] *)

Module Constants.
Import Types.
Local Open Scope R_scope.

Definition DEFAULT_EQ_FREQUENCIES : list R :=
  [30; 60; 120; 240; 500;
   1000; 2000; 4000; 8000;
   12000; 16000; 20000; 26000; 32000].

Definition DEFAULT_SETTINGS : MasteringSettings :=
  {| masterGain := 0;
     eq := map (fun f => {| frequency := f; gain := 0 |}) DEFAULT_EQ_FREQUENCIES;
     compressor := {| threshold := 0; ratio := 0; attack := 0; release := 0 |};
     reverb := {| mix := 0; decay := 2.0 |};
     saturation := 0;
     air := 0;
     body := 0;
     stereoWidth := 0;
     ceiling := 0;
     stereoBass := 0;
     dynamicBass := 0;
     softClip := 0 |}.

Definition ANALYZER_FFT_SIZE : nat := 4096.
Definition SMOOTHING_TIME_CONSTANT : R := 0.85.

End Constants.

(** ** The heuristic engine [generateAiSettings] *)

Module Assistant.
Import Js Types Constants.
Local Open Scope R_scope.

Definition clamp (val min max : R) : R := Math_min max (Math_max min val).

Definition estimatedLUFS (analysis : AnalysisResult) : R :=
  (20 * Math_log10 (rms analysis)) - 0.6.

Definition targetCurve : list R :=
  [0.95; 0.90; 0.85; 0.80;
   0.75; 0.70; 0.65; 0.60;
   0.55; 0.50; 0.45; 0.40;
   0.35; 0.30].

(** The body of [settings.eq.forEach((band, i) => ...)]: the band as the
    callback leaves it. *)
Definition matchBand (analysis : AnalysisResult) (band : EQBand) (i : nat)
  : EQBand :=
  match nth_error (spectralBalance analysis) i with
  | None => band
  | Some actual =>
      let target := orElse (nth_error targetCurve i) 0.5 in
      let delta := actual - target in
      let gain := delta * -12.0 in
      let gain :=
        if Rlt_dec (frequency band) 100 then clamp gain (-3) 3
        else if Rgt_dec (frequency band) 8000 then clamp gain (-4) 4
        else clamp gain (-3) 3 in
      {| frequency := frequency band; gain := toFixed 1 gain |}
  end.



Definition targetLUFS (analysis : AnalysisResult) : R :=
  let targetLUFS := -10.0 in
  let targetLUFS :=
    if Rgt_dec (estimatedLUFS analysis) (-12) then estimatedLUFS analysis
    else targetLUFS in
  let targetLUFS :=
    if Rlt_dec (estimatedLUFS analysis) (-24) then -13.0 else targetLUFS in
  targetLUFS.

Definition gainNeeded (analysis : AnalysisResult) : R :=
  targetLUFS analysis - estimatedLUFS analysis.

Definition generateAiSettings (analysis : AnalysisResult) : AiDecisionResult :=
  let settings := DEFAULT_SETTINGS in
  let logs : list LogLine := [] in
  let estimatedLUFS := estimatedLUFS analysis in
  let dynamicRange := crestFactor analysis in
  let spectralFlux := spectralFlux analysis in
  let logs := logs ++ [LogAnalysisComplete] in
  let logs := logs ++ [LogMusicalContext (musicalKey analysis)
                         (musicalScale analysis) (bpm analysis)] in
  let logs := logs ++ [LogSignalPath (toFixed 1 estimatedLUFS)
                         (toFixed 1 dynamicRange)] in
  (* 1. spectral curve matching *)
  let settings := set_eq (mapi (matchBand analysis) (eq settings)) settings in
  let logs := logs ++ [LogEqBalanced] in
  (* 2. imaging and bass control *)
  let settings := set_stereoWidth 0.15 settings in
  let settings :=
    if Rgt_dec (lowEnergy analysis) 0.6 then set_stereoBass 2.0 settings
    else settings in
  let '(settings, logs) :=
    if Rlt_dec (lowEnergy analysis) 0.4
    then (set_dynamicBass 3.0 settings, logs ++ [LogLowEndWeak])
    else (settings, logs) in
  let settings :=
    if Rgt_dec (midEnergy analysis) (lowEnergy analysis * 1.5)
    then set_stereoWidth 0.05 settings
    else settings in
  (* 3. saturation *)
  let '(settings, logs) :=
    if Rlt_dec spectralFlux 12
    then (set_body 1.5 (set_saturation 0.04 settings), logs ++ [LogColor])
    else (set_body 0.0 (set_saturation 0.01 settings), logs) in
  (* 4. loudness and dynamics targeting *)
  let gainNeeded := gainNeeded analysis in
  let '(settings, logs) :=
    if Rgt_dec gainNeeded 0.5 then
      let linearGainDb := Math_min gainNeeded 4.0 in
      let saturatorGainDb := Math_max 0 (gainNeeded - linearGainDb) in
      let linearRatio := Math_pow 10 (linearGainDb / 20) in
      let settings := set_masterGain (clamp (linearRatio - 1.0) 0.0 0.8) settings in
      let settings := set_ceiling (-0.3) settings in
      let softClipAmount := clamp (saturatorGainDb * 0.08) 0 0.4 in
      let '(softClipAmount, logs) :=
        if Rgt_dec dynamicRange 4.0
        then (softClipAmount + 0.1, logs ++ [LogDynamics])
        else (softClipAmount, logs) in
      let settings := set_softClip (toFixed 2 softClipAmount) settings in
      let logs := logs ++ [LogLoudness (toFixed 1 linearGainDb)
                             (toFixed 1 saturatorGainDb)] in
      let settings :=
        if Rgt_dec gainNeeded 3
        then set_compressor {| threshold := -16; ratio := 2.0;
                               attack := 0.010; release := 0.15 |} settings
        else settings in
      (settings, logs)
    else
      let settings := set_masterGain 0.0 settings in
      let settings := set_softClip 0.05 settings in
      (settings, logs ++ [LogOptimal (toFixed 1 (Math_abs estimatedLUFS))])
  in
  {| settings := settings; logs := logs |}.

End Assistant.

(** ** The host: objects, random numbers, the Web Audio graph *)

Module WebAudio.
Import Js.
Local Open Scope R_scope.

(** What the program can observe of its environment: the allocator of object
    identities, and the numbers [Math.random()] returns, in order. *)
Record World : Type := mkWorld {
  next_id : nat;
  random : nat -> R;
  drawn : nat
}.

Definition Math_random (w : World) : R * World :=
  (random w (drawn w), mkWorld (next_id w) (random w) (S (drawn w))).

Definition fresh_id (w : World) : nat * World :=
  (next_id w, mkWorld (S (next_id w)) (random w) (drawn w)).

(** The samples of an AudioBuffer. *)
Record AudioBufferData : Type := mkAudioBufferData {
  numberOfChannels : nat;
  length : nat;
  sampleRate : nat;
  channelData : list (list R)
}.

(** An AudioBuffer object: an identity and its samples.  Two references are
    the same object ([===]) exactly when the identities agree. *)
Record AudioBuffer : Type := mkAudioBuffer {
  buf_id : nat;
  buf_data : AudioBufferData
}.

(** A reference to a BaseAudioContext.  An [AudioContext] and an
    [OfflineAudioContext] are objects of different classes, so references of
    different kinds never denote the same object. *)
Inductive ContextKind : Type := Realtime | Offline.

Record BaseAudioContext : Type := mkBaseAudioContext {
  ctx_kind : ContextKind;
  ctx_id : nat;
  ctx_sampleRate : nat
}.

Definition ContextKind_eqb (a b : ContextKind) : bool :=
  match a, b with
  | Realtime, Realtime => true
  | Offline, Offline => true
  | _, _ => false
  end.

(** [a === b] on context references. *)
Definition same_context (a b : BaseAudioContext) : bool :=
  ContextKind_eqb (ctx_kind a) (ctx_kind b) && (ctx_id a =? ctx_id b)%nat.

(** *** Nodes and connections *)

Definition NodeId : Type := nat.

Inductive BiquadFilterType : Type := lowpass | lowshelf | highshelf | peaking.

Inductive OverSampleType : Type := oversample_none | oversample_4x.

(** [param.setTargetAtTime(target, startTime, timeConstant)] *)
Record AutomationEvent : Type := SetTarget {
  ev_target : R;
  ev_startTime : R;
  ev_timeConstant : R
}.

Record AudioParam : Type := mkAudioParam {
  value : R;
  events : list AutomationEvent
}.

Definition param (v : R) : AudioParam := mkAudioParam v [].

(** [p.value = v] *)
Definition set_value (v : R) (p : AudioParam) : AudioParam :=
  mkAudioParam v (events p).

(** [p.value = v] on a parameter whose nominal range is [[lo, hi]]: the host
    stores the value of the range nearest to [v]. *)
Definition clampToRange (lo hi v : R) : R := Math_max lo (Math_min hi v).

(** The nominal range of a filter's [frequency] ends at the Nyquist
    frequency of its context. *)
Definition nyquist (sampleRate : nat) : R := INR sampleRate / 2.

(** [p.cancelScheduledValues(t)]: the events starting at [t] or later go. *)
Definition cancelScheduledValues (t : R) (p : AudioParam) : AudioParam :=
  mkAudioParam (value p)
    (filter (fun ev => if Rlt_dec (ev_startTime ev) t then true else false) (events p)).

Definition setTargetAtTime (target startTime timeConstant : R) (p : AudioParam)
  : AudioParam :=
  mkAudioParam (value p) (events p ++ [SetTarget target startTime timeConstant]).

(** The nodes the engine creates, with the attributes it sets.  A node that
    takes a buffer ([AudioBufferSourceNode], [ConvolverNode]) acquires the
    buffer's samples when the attribute is assigned. *)
Inductive AudioNode : Type :=
| DestinationNode
| BufferSourceNode (buffer : option AudioBufferData) (started : option (R * R))
| GainNode (gain : AudioParam)
| BiquadFilterNode (type : BiquadFilterType) (frequency Q gain : AudioParam)
| WaveShaperNode (curve : option (list R)) (oversample : OverSampleType)
| DynamicsCompressorNode (threshold knee ratio attack release : AudioParam)
| ConvolverNode (buffer : option AudioBufferData)
| ChannelSplitterNode (numberOfOutputs : nat)
| ChannelMergerNode (numberOfInputs : nat)
| AnalyserNode (fftSize : nat) (smoothingTimeConstant : R).

(** The attribute values of freshly created nodes (Web Audio API). *)
Definition newGain : AudioNode := GainNode (param 1).
Definition newBiquadFilter : AudioNode :=
  BiquadFilterNode lowpass (param 350) (param 1) (param 0).
Definition newWaveShaper : AudioNode := WaveShaperNode None oversample_none.
Definition newDynamicsCompressor : AudioNode :=
  DynamicsCompressorNode (param (-24)) (param 30) (param 12) (param 0.003)
                         (param 0.25).
Definition newConvolver : AudioNode := ConvolverNode None.
Definition newBufferSource : AudioNode := BufferSourceNode None None.
Definition newAnalyser : AudioNode := AnalyserNode 2048 0.8.

(** [src.connect(dst, output, input)] *)
Record Connection : Type := mkConnection {
  conn_src : NodeId;
  conn_output : nat;
  conn_dst : NodeId;
  conn_input : nat
}.

(** The nodes of one context, in creation order (a node's identity is its
    position), and the connections made between them.  Node 0 is the
    context's destination. *)
Record Graph : Type := mkGraph {
  nodes : list AudioNode;
  connections : list Connection
}.

Definition emptyGraph : Graph := mkGraph [DestinationNode] [].

Definition destination : NodeId := 0%nat.

(** [ctx.createX()] followed by the attribute assignments that configure the
    new node: the node enters the context as configured. *)
Definition createNode (n : AudioNode) (g : Graph) : NodeId * Graph :=
  (List.length (nodes g), mkGraph (nodes g ++ [n]) (connections g)).

Definition getNode (id : NodeId) (g : Graph) : option AudioNode :=
  nth_error (nodes g) id.

Fixpoint update {A : Type} (i : nat) (f : A -> A) (l : list A) : list A :=
  match l, i with
  | [], _ => []
  | x :: l', O => f x :: l'
  | x :: l', S i' => x :: update i' f l'
  end.

Definition updateNode (id : NodeId) (f : AudioNode -> AudioNode) (g : Graph)
  : Graph :=
  mkGraph (update id f (nodes g)) (connections g).

Definition connect (src dst : NodeId) (output input : nat) (g : Graph) : Graph :=
  mkGraph (nodes g) (connections g ++ [mkConnection src output dst input]).

(** [node.disconnect()]: every outgoing connection of the node goes. *)
Definition disconnect (src : NodeId) (g : Graph) : Graph :=
  mkGraph (nodes g)
          (filter (fun c => negb (conn_src c =? src)%nat) (connections g)).

(** [node?.disconnect()] *)
Definition disconnect_opt (src : option NodeId) (g : Graph) : Graph :=
  match src with
  | Some id => disconnect id g
  | None => g
  end.

Inductive ContextState : Type := suspended | running | closed.

(** The engine's [AudioContext]: the object and the graph built in it. *)
Record AudioContext : Type := mkAudioContext {
  ac_id : nat;
  ac_sampleRate : nat;
  currentTime : R;
  state : ContextState;
  ac_graph : Graph
}.

Definition AudioContext_ref (c : AudioContext) : BaseAudioContext :=
  mkBaseAudioContext Realtime (ac_id c) (ac_sampleRate c).

(** An [OfflineAudioContext(channels, length, sampleRate)] and its graph. *)
Record OfflineAudioContext : Type := mkOfflineAudioContext {
  oc_id : nat;
  oc_numberOfChannels : nat;
  oc_length : nat;
  oc_sampleRate : nat;
  oc_graph : Graph
}.

Definition OfflineAudioContext_ref (c : OfflineAudioContext) : BaseAudioContext :=
  mkBaseAudioContext Offline (oc_id c) (oc_sampleRate c).

(** What the host is asked to render when [startRendering()] is called: the
    context's dimensions and its graph (not the context's identity). *)
Record RenderJob : Type := mkRenderJob {
  job_numberOfChannels : nat;
  job_length : nat;
  job_sampleRate : nat;
  job_graph : Graph
}.

(** The buffer [startRendering()] resolves to.  The host's signal processing
    is not part of the repository, so the rendered buffer is kept as a
    function of it: what a renderer [host] makes of the job.  Two rendered
    buffers are equal when every renderer produces the same samples for
    them, as it does for equal jobs; that they are different says no more
    than that some renderer tells the jobs apart, and nothing about the
    samples a particular host produces. *)
Definition RenderedBuffer : Type := (RenderJob -> AudioBufferData) -> AudioBufferData.

Definition startRendering (job : RenderJob) : RenderedBuffer :=
  fun host => host job.
Arguments startRendering job : simpl never.

End WebAudio.

(** ** The class [AudioEngine] *)

Module Engine.
Import Js Types Constants WebAudio.
Local Open Scope R_scope.

Record AudioEngine : Type := mkAudioEngine {
  audioContext : option AudioContext;
  sourceNode : option NodeId;
  audioBuffer : option AudioBuffer;
  gainNode : option NodeId;
  compressorNode : option NodeId;
  eqNodes : list NodeId;
  reverbNode : option NodeId;
  reverbToneNode : option NodeId;
  wetGainNode : option NodeId;
  dryGainNode : option NodeId;
  analyzerNode : option NodeId;
  saturationNode : option NodeId;
  airNode : option NodeId;
  bodyNode : option NodeId;
  limiterNode : option NodeId;
  msSideGainNode : option NodeId;
  stereoBassNode : option NodeId;
  dynamicBassNode : option NodeId;
  softClipNode : option NodeId;
  impulseResponseCache : option AudioBuffer;
  lastDecayValue : R;
  startTime : R;
  pausedAt : R;
  isPlaying : bool
}.

(** [new AudioEngine()] *)
Definition newAudioEngine : AudioEngine :=
  {| audioContext := None; sourceNode := None; audioBuffer := None;
     gainNode := None; compressorNode := None; eqNodes := [];
     reverbNode := None; reverbToneNode := None; wetGainNode := None;
     dryGainNode := None; analyzerNode := None; saturationNode := None;
     airNode := None; bodyNode := None; limiterNode := None;
     msSideGainNode := None; stereoBassNode := None; dynamicBassNode := None;
     softClipNode := None;
     impulseResponseCache := None; lastDecayValue := -1;
     startTime := 0; pausedAt := 0; isPlaying := false |}.

(** Assignments to the fields that are written one at a time. *)
Definition set_audioContext (v : option AudioContext) (e : AudioEngine) : AudioEngine :=
  mkAudioEngine v (sourceNode e) (audioBuffer e) (gainNode e) (compressorNode e)
    (eqNodes e) (reverbNode e) (reverbToneNode e) (wetGainNode e) (dryGainNode e)
    (analyzerNode e) (saturationNode e) (airNode e) (bodyNode e) (limiterNode e)
    (msSideGainNode e) (stereoBassNode e) (dynamicBassNode e) (softClipNode e)
    (impulseResponseCache e) (lastDecayValue e) (startTime e) (pausedAt e)
    (isPlaying e).

Definition set_sourceNode (v : option NodeId) (e : AudioEngine) : AudioEngine :=
  mkAudioEngine (audioContext e) v (audioBuffer e) (gainNode e) (compressorNode e)
    (eqNodes e) (reverbNode e) (reverbToneNode e) (wetGainNode e) (dryGainNode e)
    (analyzerNode e) (saturationNode e) (airNode e) (bodyNode e) (limiterNode e)
    (msSideGainNode e) (stereoBassNode e) (dynamicBassNode e) (softClipNode e)
    (impulseResponseCache e) (lastDecayValue e) (startTime e) (pausedAt e)
    (isPlaying e).

Definition set_audioBuffer (v : option AudioBuffer) (e : AudioEngine) : AudioEngine :=
  mkAudioEngine (audioContext e) (sourceNode e) v (gainNode e) (compressorNode e)
    (eqNodes e) (reverbNode e) (reverbToneNode e) (wetGainNode e) (dryGainNode e)
    (analyzerNode e) (saturationNode e) (airNode e) (bodyNode e) (limiterNode e)
    (msSideGainNode e) (stereoBassNode e) (dynamicBassNode e) (softClipNode e)
    (impulseResponseCache e) (lastDecayValue e) (startTime e) (pausedAt e)
    (isPlaying e).

(** [this.impulseResponseCache = b; this.lastDecayValue = d] *)
Definition set_impulseResponse (b : option AudioBuffer) (d : R) (e : AudioEngine)
  : AudioEngine :=
  mkAudioEngine (audioContext e) (sourceNode e) (audioBuffer e) (gainNode e)
    (compressorNode e) (eqNodes e) (reverbNode e) (reverbToneNode e)
    (wetGainNode e) (dryGainNode e) (analyzerNode e) (saturationNode e)
    (airNode e) (bodyNode e) (limiterNode e) (msSideGainNode e)
    (stereoBassNode e) (dynamicBassNode e) (softClipNode e)
    b d (startTime e) (pausedAt e) (isPlaying e).

(** [this.startTime = t; this.pausedAt = p; this.isPlaying = b] *)
Definition set_transport (t p : R) (b : bool) (e : AudioEngine) : AudioEngine :=
  mkAudioEngine (audioContext e) (sourceNode e) (audioBuffer e) (gainNode e)
    (compressorNode e) (eqNodes e) (reverbNode e) (reverbToneNode e)
    (wetGainNode e) (dryGainNode e) (analyzerNode e) (saturationNode e)
    (airNode e) (bodyNode e) (limiterNode e) (msSideGainNode e)
    (stereoBassNode e) (dynamicBassNode e) (softClipNode e)
    (impulseResponseCache e) (lastDecayValue e) t p b.

(** [ctx === this.audioContext] *)
Definition is_engine_context (ctx : BaseAudioContext) (e : AudioEngine) : bool :=
  match audioContext e with
  | Some c => same_context ctx (AudioContext_ref c)
  | None => false
  end.

(** *** Curves *)

Definition n_samples : nat := 4096.

(** [for (let i = 0; i < n_samples; ++i) curve[i] = f(i)] *)
Definition fillCurve (f : nat -> R) : list R := map f (seq 0 n_samples).

Definition makeDistortionCurve (amount : R) : list R :=
  let drive := amount * 10.0 in
  fillCurve (fun i =>
    let x := (INR i * 2) / INR n_samples - 1 in
    if Req_dec_T drive 0 then x
    else (PI + drive) * x / (PI + drive * Math_abs x)).

Definition makeSoftClipCurve (amount : R) : list R :=
  fillCurve (fun i =>
    let x := (INR i * 2) / INR n_samples - 1 in
    if Req_dec_T amount 0 then x
    else
      let k := 1 + amount * 2 in
      tanh (k * x) / tanh k).

(** *** The impulse response *)

(** The loop [for (let i = 0; i < length; i++)] of [createImpulseResponse],
    from index [i] on ([count] iterations left): the samples it stores in
    [left] and [right], and the world after its calls of [Math.random()]. *)
Fixpoint impulseLoop (count i length : nat) (decay : R) (reverse : bool)
  (w : World) : list R * list R * World :=
  match count with
  | O => ([], [], w)
  | S count' =>
      let n := if reverse then (length - i)%nat else i in
      let e := Math_pow (1 - INR n / INR length) decay in
      let '(r1, w) := Math_random w in
      let noiseL := r1 * 2 - 1 in
      let '(r2, w) := Math_random w in
      let noiseR := r2 * 2 - 1 in
      let '(left', right', w) := impulseLoop count' (S i) length decay reverse w in
      (noiseL * e :: left', noiseR * e :: right', w)
  end.

(** The part of [createImpulseResponse] after the cache test: a new buffer
    object filled with decaying noise. *)
Definition synthesizeImpulse (ctx : BaseAudioContext) (duration : nat)
  (decay : R) (reverse : bool) (w : World) : AudioBuffer * World :=
  let sampleRate := ctx_sampleRate ctx in
  let length := (sampleRate * duration)%nat in
  let '(id, w) := fresh_id w in
  let '(left', right', w) := impulseLoop length 0 length decay reverse w in
  (mkAudioBuffer id (mkAudioBufferData 2 length sampleRate [left'; right']), w).

Definition createImpulseResponse (ctx : BaseAudioContext) (duration : nat)
  (decay : R) (reverse : bool) (e : AudioEngine) (w : World)
  : AudioBuffer * AudioEngine * World :=
  match
    (if is_engine_context ctx e then
       match impulseResponseCache e with
       | Some cached =>
           if Rlt_dec (Math_abs (lastDecayValue e - decay)) 0.01
           then Some cached else None
       | None => None
       end
     else None)
  with
  | Some cached => (cached, e, w)
  | None =>
      let '(impulse, w) := synthesizeImpulse ctx duration decay reverse w in
      let e :=
        if is_engine_context ctx e
        then set_impulseResponse (Some impulse) decay e
        else e in
      (impulse, e, w)
  end.

(** *** Small steps shared by the methods *)

(** [Array.prototype.sort] with a comparator: the sort is stable, so its
    result is the one insertion from the right produces. *)
Fixpoint insertSorted {A : Type} (cmp : A -> A -> R) (x : A) (l : list A)
  : list A :=
  match l with
  | [] => [x]
  | y :: l' =>
      if Rle_dec (cmp x y) 0 then x :: y :: l' else y :: insertSorted cmp x l'
  end.

Definition Array_sort {A : Type} (cmp : A -> A -> R) (l : list A) : list A :=
  fold_right (insertSorted cmp) [] l.

(** [[...settings.eq].sort((a, b) => a.frequency - b.frequency)] *)
Definition sortEq (bands : list EQBand) : list EQBand :=
  Array_sort (fun a b => frequency a - frequency b) bands.

(** The filter the [sortedEq.map] callback creates for [band] at [index], in
    a context running at [sampleRate].  The band's frequency is whatever the
    settings hold (the default list goes up to 32 kHz), so the assignment
    [node.frequency.value = band.frequency] is written with the clamp to the
    parameter's nominal range, 0 to the Nyquist frequency.  The other
    numbers the engine assigns to a [value] are written as they stand: the
    fixed filter frequencies (65 Hz to 12 kHz) lie below the Nyquist
    frequency at the sample rates the type declarations list (44.1 kHz and
    more), and the gains, thresholds, ratios and times lie inside the
    nominal range of their parameter for every settings value of the
    declared ranges. *)
Definition eqStage (sampleRate : nat) (sortedEq : list EQBand) (band : EQBand)
  (index : nat) : AudioNode :=
  BiquadFilterNode
    (if (index =? 0)%nat then lowshelf
     else if (index =? List.length sortedEq - 1)%nat then highshelf
     else peaking)
    (param (clampToRange 0 (nyquist sampleRate) (frequency band)))
    (param 1.0) (param (gain band)).

(** [list.map(x => { const node = ctx.createX(); ...; return node })] *)
Fixpoint createNodes (ns : list AudioNode) (g : Graph) : list NodeId * Graph :=
  match ns with
  | [] => ([], g)
  | n :: ns' =>
      let '(id, g) := createNode n g in
      let '(ids, g) := createNodes ns' g in
      (id :: ids, g)
  end.

(** [let head = source; eqNodes.forEach(n => { head.connect(n); head = n; })]:
    the final [head] and the graph. *)
Fixpoint chain (head : NodeId) (ns : list NodeId) (g : Graph) : NodeId * Graph :=
  match ns with
  | [] => (head, g)
  | n :: ns' => chain n ns' (connect head n 0 0 g)
  end.

(** [p.cancelScheduledValues(now); p.setTargetAtTime(target, now, 0.05)] *)
Definition rampTo (target now : R) (p : AudioParam) : AudioParam :=
  setTargetAtTime target now 0.05 (cancelScheduledValues now p).

(** Access to the attributes of a node through a reference of its type. *)
Definition on_gain (f : AudioParam -> AudioParam) (n : AudioNode) : AudioNode :=
  match n with
  | GainNode p => GainNode (f p)
  | BiquadFilterNode t fr q gn => BiquadFilterNode t fr q (f gn)
  | other => other
  end.

Definition on_threshold (f : AudioParam -> AudioParam) (n : AudioNode) : AudioNode :=
  match n with
  | DynamicsCompressorNode t k r a rl => DynamicsCompressorNode (f t) k r a rl
  | other => other
  end.

Definition on_ratio (f : AudioParam -> AudioParam) (n : AudioNode) : AudioNode :=
  match n with
  | DynamicsCompressorNode t k r a rl => DynamicsCompressorNode t k (f r) a rl
  | other => other
  end.

Definition on_attack (f : AudioParam -> AudioParam) (n : AudioNode) : AudioNode :=
  match n with
  | DynamicsCompressorNode t k r a rl => DynamicsCompressorNode t k r (f a) rl
  | other => other
  end.

Definition on_release (f : AudioParam -> AudioParam) (n : AudioNode) : AudioNode :=
  match n with
  | DynamicsCompressorNode t k r a rl => DynamicsCompressorNode t k r a (f rl)
  | other => other
  end.

Definition set_curve (c : list R) (n : AudioNode) : AudioNode :=
  match n with
  | WaveShaperNode _ o => WaveShaperNode (Some c) o
  | other => other
  end.

(** A source that plays from [offset], from the time [when] on. *)
Definition startedAt (when offset : R) (n : AudioNode) : AudioNode :=
  match n with
  | BufferSourceNode b _ => BufferSourceNode b (Some (when, offset))
  | other => other
  end.

(** [source.start(when, offset)] on a source that was not started before.
    With a negative [when] or [offset] the call throws a RangeError and
    starts nothing: [None]. *)
Definition start (source : NodeId) (when offset : R) (g : Graph) : option Graph :=
  if Rlt_dec when 0 then None
  else if Rlt_dec offset 0 then None
  else Some (updateNode source (startedAt when offset) g).

(** [if (this.node) body(this.node)] on the graph. *)
Definition whenNode (node : option NodeId) (body : NodeId -> Graph -> Graph)
  (g : Graph) : Graph :=
  match node with
  | Some n => body n g
  | None => g
  end.

Definition with_graph (g : Graph) (c : AudioContext) : AudioContext :=
  mkAudioContext (ac_id c) (ac_sampleRate c) (currentTime c) (state c) g.

Definition with_state (st : ContextState) (c : AudioContext) : AudioContext :=
  mkAudioContext (ac_id c) (ac_sampleRate c) (currentTime c) st (ac_graph c).

(** *** initContext, loadFile *)

(** [new AudioContext()]; the host chooses the sample rate. *)
Definition newAudioContext (hostRate : nat) (w : World) : AudioContext * World :=
  let '(id, w) := fresh_id w in
  (mkAudioContext id hostRate 0 running emptyGraph, w).

Definition initContext (hostRate : nat) (e : AudioEngine) (w : World)
  : AudioEngine * World :=
  match audioContext e with
  | None =>
      let '(c, w) := newAudioContext hostRate w in
      (set_audioContext (Some c) e, w)
  | Some _ => (e, w)
  end.

(** [loadFile]; [decoded] is what [decodeAudioData] resolves to. *)
Definition loadFile (hostRate : nat) (decoded : AudioBufferData)
  (e : AudioEngine) (w : World) : AudioBuffer * AudioEngine * World :=
  let '(e, w) := initContext hostRate e w in
  let '(id, w) := fresh_id w in
  let buffer := mkAudioBuffer id decoded in
  (buffer, set_audioBuffer (Some buffer) e, w).

(** *** updateSettings *)

Definition updateSettings (settings : MasteringSettings) (e : AudioEngine)
  : AudioEngine :=
  match audioContext e with
  | None => e
  | Some ctx =>
      let now := currentTime ctx in
      let g := ac_graph ctx in
      let g := whenNode (gainNode e) (fun n =>
                 updateNode n (on_gain (rampTo (1.0 + masterGain settings) now))) g in
      let g := whenNode (compressorNode e) (fun n g =>
                 let g := updateNode n (on_threshold
                            (rampTo (threshold (compressor settings)) now)) g in
                 let g := updateNode n (on_ratio
                            (rampTo (Math_max 1 (ratio (compressor settings))) now)) g in
                 let g := updateNode n (on_attack
                            (rampTo (attack (compressor settings)) now)) g in
                 updateNode n (on_release
                            (rampTo (release (compressor settings)) now)) g) g in
      let sortedEqSettings := sortEq (eq settings) in
      let g := fold_left (fun g '(node, index) =>
                 match nth_error sortedEqSettings index with
                 | Some band => updateNode node (on_gain (rampTo (gain band) now)) g
                 | None => g
                 end)
                 (combine (eqNodes e) (seq 0 (List.length (eqNodes e)))) g in
      let g := whenNode (saturationNode e) (fun n =>
                 updateNode n (set_curve (makeDistortionCurve (saturation settings)))) g in
      let g := whenNode (softClipNode e) (fun n =>
                 updateNode n (set_curve (makeSoftClipCurve (softClip settings)))) g in
      let g := whenNode (airNode e) (fun n =>
                 updateNode n (on_gain (rampTo (air settings) now))) g in
      let g := whenNode (bodyNode e) (fun n =>
                 updateNode n (on_gain (rampTo (body settings) now))) g in
      let g := whenNode (dynamicBassNode e) (fun n =>
                 updateNode n (on_gain (rampTo (dynamicBass settings) now))) g in
      let g := whenNode (limiterNode e) (fun n =>
                 updateNode n (on_threshold (rampTo (ceiling settings) now))) g in
      let g := whenNode (msSideGainNode e) (fun n =>
                 updateNode n (on_gain (rampTo (1.0 + stereoWidth settings) now))) g in
      let g := whenNode (stereoBassNode e) (fun n =>
                 updateNode n (on_gain (rampTo (stereoBass settings) now))) g in
      let g :=
        match wetGainNode e, dryGainNode e with
        | Some wet, Some dry =>
            let g := updateNode wet (on_gain (rampTo (mix (reverb settings)) now)) g in
            updateNode dry (on_gain (rampTo (1 - mix (reverb settings)) now)) g
        | _, _ => g
        end in
      set_audioContext (Some (with_graph g ctx)) e
  end.

(** *** setupGraph *)

Definition setupGraph (settings : MasteringSettings) (e : AudioEngine) (w : World)
  : AudioEngine * World :=
  match audioContext e, audioBuffer e with
  | Some ctx, Some _ =>
      let g := ac_graph ctx in
      (* Disconnect everything first *)
      let g := disconnect_opt (sourceNode e) g in
      let g := disconnect_opt (gainNode e) g in
      let g := disconnect_opt (compressorNode e) g in
      let g := disconnect_opt (analyzerNode e) g in
      let g := disconnect_opt (reverbNode e) g in
      let g := disconnect_opt (reverbToneNode e) g in
      let g := disconnect_opt (wetGainNode e) g in
      let g := disconnect_opt (dryGainNode e) g in
      let g := disconnect_opt (saturationNode e) g in
      let g := disconnect_opt (airNode e) g in
      let g := disconnect_opt (bodyNode e) g in
      let g := disconnect_opt (limiterNode e) g in
      let g := disconnect_opt (msSideGainNode e) g in
      let g := disconnect_opt (stereoBassNode e) g in
      let g := disconnect_opt (dynamicBassNode e) g in
      let g := disconnect_opt (softClipNode e) g in
      let g := fold_left (fun g node => disconnect node g) (eqNodes e) g in
      (* Create nodes *)
      let '(gainNode', g) := createNode newGain g in
      let '(compressorNode', g) := createNode newDynamicsCompressor g in
      let '(analyzerNode', g) :=
        createNode (AnalyserNode ANALYZER_FFT_SIZE SMOOTHING_TIME_CONSTANT) g in
      let '(saturationNode', g) :=
        createNode (WaveShaperNode (Some (makeDistortionCurve (saturation settings)))
                      oversample_4x) g in
      let '(softClipNode', g) :=
        createNode (WaveShaperNode (Some (makeSoftClipCurve (softClip settings)))
                      oversample_4x) g in
      let '(airNode', g) :=
        createNode (BiquadFilterNode highshelf (param 12000) (param 1)
                      (param (air settings))) g in
      let '(bodyNode', g) :=
        createNode (BiquadFilterNode peaking (param 300) (param 0.7)
                      (param (body settings))) g in
      let '(dynamicBassNode', g) :=
        createNode (BiquadFilterNode peaking (param 65) (param 1.2)
                      (param (dynamicBass settings))) g in
      let '(limiterNode', g) :=
        createNode (DynamicsCompressorNode (param (ceiling settings)) (param 0)
                      (param 20) (param 0.001) (param 0.1)) g in
      let '(msSideGainNode', g) :=
        createNode (GainNode (param (1.0 + stereoWidth settings))) g in
      let '(stereoBassNode', g) :=
        createNode (BiquadFilterNode lowshelf (param 120) (param 1)
                      (param (stereoBass settings))) g in
      let '(impulse, e, w) :=
        createImpulseResponse (AudioContext_ref ctx) 3 (decay (reverb settings))
                              false e w in
      let '(reverbNode', g) :=
        createNode (ConvolverNode (Some (buf_data impulse))) g in
      let '(reverbToneNode', g) :=
        createNode (BiquadFilterNode lowpass (param 5000) (param 1) (param 0)) g in
      let '(wetGainNode', g) := createNode newGain g in
      let '(dryGainNode', g) := createNode newGain g in
      let sortedEq := sortEq (eq settings) in
      let '(eqNodes', g) :=
        createNodes (mapi (eqStage (ac_sampleRate ctx) sortedEq) sortedEq) g in
      let e :=
        {| audioContext := Some (with_graph g ctx);
           sourceNode := sourceNode e;
           audioBuffer := audioBuffer e;
           gainNode := Some gainNode';
           compressorNode := Some compressorNode';
           eqNodes := eqNodes';
           reverbNode := Some reverbNode';
           reverbToneNode := Some reverbToneNode';
           wetGainNode := Some wetGainNode';
           dryGainNode := Some dryGainNode';
           analyzerNode := Some analyzerNode';
           saturationNode := Some saturationNode';
           airNode := Some airNode';
           bodyNode := Some bodyNode';
           limiterNode := Some limiterNode';
           msSideGainNode := Some msSideGainNode';
           stereoBassNode := Some stereoBassNode';
           dynamicBassNode := Some dynamicBassNode';
           softClipNode := Some softClipNode';
           impulseResponseCache := impulseResponseCache e;
           lastDecayValue := lastDecayValue e;
           startTime := startTime e;
           pausedAt := pausedAt e;
           isPlaying := isPlaying e |} in
      (updateSettings settings e, w)
  | _, _ => (e, w)
  end.

(** *** play *)

Inductive Outcome (A : Type) : Type :=
| Return (a : A)
| Throw (message : string).
Arguments Return {A} a.
Arguments Throw {A} message.

(** How a method call ends, and the engine and world it leaves. *)
Record Run (A : Type) : Type := mkRun {
  outcome : Outcome A;
  engine_after : AudioEngine;
  world_after : World
}.
Arguments mkRun {A} outcome engine_after world_after.
Arguments outcome {A} r.
Arguments engine_after {A} r.
Arguments world_after {A} r.

Notation "x <- e ;; k" :=
  (match e with Some x => k | None => None end)
  (at level 61, e at next level, right associativity).

(** The wiring done by [play] once the source node exists.  [this.node!] on
    a missing node makes [connect] throw: [None]. *)
Definition wirePlayback (e : AudioEngine) (sourceNode' : NodeId) (g : Graph)
  : option Graph :=
  let head := sourceNode' in
  (* 1. corrective EQ first *)
  let '(head, g) := chain head (eqNodes e) g in
  (* 2. tone shaping *)
  dynamicBassNode' <- dynamicBassNode e ;;
  let g := connect head dynamicBassNode' 0 0 g in
  let head := dynamicBassNode' in
  bodyNode' <- bodyNode e ;;
  let g := connect head bodyNode' 0 0 g in
  let head := bodyNode' in
  (* 3. colour *)
  saturationNode' <- saturationNode e ;;
  let g := connect head saturationNode' 0 0 g in
  let head := saturationNode' in
  (* 4. dynamics *)
  compressorNode' <- compressorNode e ;;
  let g := connect head compressorNode' 0 0 g in
  let head := compressorNode' in
  (* 5. reverb send *)
  dryGainNode' <- dryGainNode e ;;
  let g := connect head dryGainNode' 0 0 g in
  reverbToneNode' <- reverbToneNode e ;;
  let g := connect head reverbToneNode' 0 0 g in
  reverbNode' <- reverbNode e ;;
  let g := connect reverbToneNode' reverbNode' 0 0 g in
  wetGainNode' <- wetGainNode e ;;
  let g := connect reverbNode' wetGainNode' 0 0 g in
  (* 6. recombine and polish *)
  airNode' <- airNode e ;;
  let g := connect dryGainNode' airNode' 0 0 g in
  let g := connect wetGainNode' airNode' 0 0 g in
  (* 7. M/S processing *)
  let '(splitter, g) := createNode (ChannelSplitterNode 2) g in
  let '(merger, g) := createNode (ChannelMergerNode 2) g in
  let '(sumL, g) := createNode (GainNode (param 0.5)) g in
  let '(sumR, g) := createNode (GainNode (param 0.5)) g in
  let '(diffL, g) := createNode (GainNode (param 0.5)) g in
  let '(diffR, g) := createNode (GainNode (param (-0.5))) g in
  let g := connect airNode' splitter 0 0 g in
  let g := connect splitter sumL 0 0 g in
  let g := connect splitter sumR 1 0 g in
  let g := connect splitter diffL 0 0 g in
  let g := connect splitter diffR 1 0 g in
  let '(midChannel, g) := createNode newGain g in
  let g := connect sumL midChannel 0 0 g in
  let g := connect sumR midChannel 0 0 g in
  let '(sideChannel, g) := createNode newGain g in
  let g := connect diffL sideChannel 0 0 g in
  let g := connect diffR sideChannel 0 0 g in
  stereoBassNode' <- stereoBassNode e ;;
  let g := connect sideChannel stereoBassNode' 0 0 g in
  msSideGainNode' <- msSideGainNode e ;;
  let g := connect stereoBassNode' msSideGainNode' 0 0 g in
  let '(outL_Mid, g) := createNode (GainNode (param 1)) g in
  let '(outL_Side, g) := createNode (GainNode (param 1)) g in
  let '(outR_Mid, g) := createNode (GainNode (param 1)) g in
  let '(outR_Side, g) := createNode (GainNode (param (-1))) g in
  let g := connect midChannel outL_Mid 0 0 g in
  let g := connect msSideGainNode' outL_Side 0 0 g in
  let g := connect midChannel outR_Mid 0 0 g in
  let g := connect msSideGainNode' outR_Side 0 0 g in
  let g := connect outL_Mid merger 0 0 g in
  let g := connect outL_Side merger 0 0 g in
  let g := connect outR_Mid merger 0 1 g in
  let g := connect outR_Side merger 0 1 g in
  (* 8. final gain and limiting *)
  gainNode' <- gainNode e ;;
  let g := connect merger gainNode' 0 0 g in
  softClipNode' <- softClipNode e ;;
  let g := connect gainNode' softClipNode' 0 0 g in
  limiterNode' <- limiterNode e ;;
  let g := connect softClipNode' limiterNode' 0 0 g in
  analyzerNode' <- analyzerNode e ;;
  let g := connect limiterNode' analyzerNode' 0 0 g in
  let g := connect analyzerNode' destination 0 0 g in
  Some g.

Definition play (offset : R) (settings : MasteringSettings) (e : AudioEngine)
  (w : World) : Run unit :=
  match audioContext e, audioBuffer e with
  | Some ctx, Some _ =>
      let e :=
        match state ctx with
        | suspended => set_audioContext (Some (with_state running ctx)) e
        | _ => e
        end in
      let '(e, w) := setupGraph settings e w in
      match audioContext e with
      | Some ctx =>
          let '(sourceNode', g) :=
            createNode (BufferSourceNode (option_map buf_data (audioBuffer e)) None)
                       (ac_graph ctx) in
          let e := set_sourceNode (Some sourceNode') e in
          match wirePlayback e sourceNode' g with
          | Some g =>
              (* startTime and pausedAt are written, then the source is
                 started, then isPlaying is set: when start throws,
                 isPlaying keeps its value *)
              match start sourceNode' 0 offset g with
              | Some g =>
                  let e := set_audioContext (Some (with_graph g ctx)) e in
                  let e := set_transport (currentTime ctx - offset) offset true e in
                  mkRun (Return tt) e w
              | None =>
                  let e := set_audioContext (Some (with_graph g ctx)) e in
                  let e :=
                    set_transport (currentTime ctx - offset) offset (isPlaying e) e in
                  mkRun (Throw "RangeError") e w
              end
          | None =>
              mkRun (Throw "TypeError") (set_audioContext (Some (with_graph g ctx)) e) w
          end
      | None => mkRun (Throw "TypeError") e w
      end
  | _, _ => mkRun (Return tt) e w
  end.

(** *** renderOffline *)

Definition renderOffline (settings : MasteringSettings) (e : AudioEngine)
  (w : World) : Run RenderedBuffer :=
  match audioBuffer e with
  | None => mkRun (Throw "No Audio") e w
  | Some buffer =>
      let '(id, w) := fresh_id w in
      let offlineCtx :=
        mkOfflineAudioContext id 2 (length (buf_data buffer))
                              (sampleRate (buf_data buffer)) emptyGraph in
      let g := oc_graph offlineCtx in
      let '(source, g) :=
        createNode (BufferSourceNode (Some (buf_data buffer)) None) g in
      (* offline graph mirrors play graph *)
      let sortedEq := sortEq (eq settings) in
      let '(eqNodes', g) :=
        createNodes (mapi (eqStage (oc_sampleRate offlineCtx) sortedEq) sortedEq) g in
      let '(bodyNode', g) :=
        createNode (BiquadFilterNode peaking (param 300) (param 0.7)
                      (param (body settings))) g in
      let '(dynamicBassNode', g) :=
        createNode (BiquadFilterNode peaking (param 65) (param 1.2)
                      (param (dynamicBass settings))) g in
      let '(compressor', g) :=
        createNode (DynamicsCompressorNode
                      (param (threshold (compressor settings)))
                      (param 30)
                      (param (Math_max 1 (ratio (compressor settings))))
                      (param (attack (compressor settings)))
                      (param (release (compressor settings)))) g in
      let '(saturation', g) :=
        createNode (WaveShaperNode (Some (makeDistortionCurve (saturation settings)))
                      oversample_none) g in
      let '(airNode', g) :=
        createNode (BiquadFilterNode highshelf (param 12000) (param 1)
                      (param (air settings))) g in
      let '(masterGain', g) :=
        createNode (GainNode (param (1.0 + masterGain settings))) g in
      let '(softClip', g) :=
        createNode (WaveShaperNode (Some (makeSoftClipCurve (softClip settings)))
                      oversample_none) g in
      let '(limiter, g) :=
        createNode (DynamicsCompressorNode (param (ceiling settings)) (param 30)
                      (param 20) (param 0.001) (param 0.1)) g in
      let '(splitter, g) := createNode (ChannelSplitterNode 2) g in
      let '(merger, g) := createNode (ChannelMergerNode 2) g in
      let '(sumL, g) := createNode (GainNode (param 0.5)) g in
      let '(sumR, g) := createNode (GainNode (param 0.5)) g in
      let '(diffL, g) := createNode (GainNode (param 0.5)) g in
      let '(diffR, g) := createNode (GainNode (param (-0.5))) g in
      let '(midChannel, g) := createNode newGain g in
      let '(sideChannel, g) := createNode newGain g in
      let '(msSideGain, g) :=
        createNode (GainNode (param (1.0 + stereoWidth settings))) g in
      let '(stereoBassNode', g) :=
        createNode (BiquadFilterNode lowshelf (param 120) (param 1)
                      (param (stereoBass settings))) g in
      let '(outL_Mid, g) := createNode (GainNode (param 1)) g in
      let '(outL_Side, g) := createNode (GainNode (param 1)) g in
      let '(outR_Mid, g) := createNode (GainNode (param 1)) g in
      let '(outR_Side, g) := createNode (GainNode (param (-1))) g in
      let '(impulse, e, w) :=
        createImpulseResponse (OfflineAudioContext_ref offlineCtx) 3
                              (decay (reverb settings)) false e w in
      let '(reverb', g) :=
        createNode (ConvolverNode (Some (buf_data impulse))) g in
      let '(reverbTone, g) :=
        createNode (BiquadFilterNode lowpass (param 5000) (param 1) (param 0)) g in
      let '(wetGain, g) := createNode (GainNode (param (mix (reverb settings)))) g in
      let '(dryGain, g) :=
        createNode (GainNode (param (1 - mix (reverb settings)))) g in
      (* chain *)
      let head := source in
      let '(head, g) := chain head eqNodes' g in
      let g := connect head dynamicBassNode' 0 0 g in
      let head := dynamicBassNode' in
      let g := connect head bodyNode' 0 0 g in
      let head := bodyNode' in
      let g := connect head saturation' 0 0 g in
      let head := saturation' in
      let g := connect head compressor' 0 0 g in
      let head := compressor' in
      let g := connect head dryGain 0 0 g in
      let g := connect head reverbTone 0 0 g in
      let g := connect reverbTone reverb' 0 0 g in
      let g := connect reverb' wetGain 0 0 g in
      let g := connect dryGain airNode' 0 0 g in
      let g := connect wetGain airNode' 0 0 g in
      let g := connect airNode' splitter 0 0 g in
      let g := connect splitter sumL 0 0 g in
      let g := connect splitter sumR 1 0 g in
      let g := connect splitter diffL 0 0 g in
      let g := connect splitter diffR 1 0 g in
      let g := connect sumL midChannel 0 0 g in
      let g := connect sumR midChannel 0 0 g in
      let g := connect diffL sideChannel 0 0 g in
      let g := connect diffR sideChannel 0 0 g in
      let g := connect sideChannel stereoBassNode' 0 0 g in
      let g := connect stereoBassNode' msSideGain 0 0 g in
      let g := connect midChannel outL_Mid 0 0 g in
      let g := connect msSideGain outL_Side 0 0 g in
      let g := connect midChannel outR_Mid 0 0 g in
      let g := connect msSideGain outR_Side 0 0 g in
      let g := connect outL_Mid merger 0 0 g in
      let g := connect outL_Side merger 0 0 g in
      let g := connect outR_Mid merger 0 1 g in
      let g := connect outR_Side merger 0 1 g in
      let g := connect merger masterGain' 0 0 g in
      let g := connect masterGain' softClip' 0 0 g in
      let g := connect softClip' limiter 0 0 g in
      let g := connect limiter destination 0 0 g in
      (* source.start(0): nothing is negative, the call returns *)
      let g := updateNode source (startedAt 0 0) g in
      mkRun (Return (startRendering
                       (mkRenderJob (oc_numberOfChannels offlineCtx)
                                    (oc_length offlineCtx)
                                    (oc_sampleRate offlineCtx) g)))
            e w
  end.

(** *** resumeContext, pause, seek, getCurrentTime, getDuration *)

Definition with_currentTime (t : R) (c : AudioContext) : AudioContext :=
  mkAudioContext (ac_id c) (ac_sampleRate c) t (state c) (ac_graph c).

(** The host's clock: between two calls of the engine the context's
    [currentTime] has advanced by [dt] seconds. *)
Definition elapse (dt : R) (e : AudioEngine) : AudioEngine :=
  match audioContext e with
  | Some c => set_audioContext (Some (with_currentTime (currentTime c + dt) c)) e
  | None => e
  end.

Definition resumeContext (e : AudioEngine) : AudioEngine :=
  match audioContext e with
  | Some c =>
      match state c with
      | suspended => set_audioContext (Some (with_state running c)) e
      | _ => e
      end
  | None => e
  end.

(** [source.stop()]: the source no longer plays.  On a source that was never
    started the call throws, and [pause] catches that: nothing changes. *)
Definition stop (n : AudioNode) : AudioNode :=
  match n with
  | BufferSourceNode b _ => BufferSourceNode b None
  | other => other
  end.

Definition pause (e : AudioEngine) : AudioEngine :=
  match sourceNode e with
  | Some source =>
      if isPlaying e then
        let e :=
          match audioContext e with
          | Some c =>
              set_audioContext (Some (with_graph (updateNode source stop (ac_graph c)) c)) e
          | None => e
          end in
        let pausedAt' :=
          match audioContext e with
          | Some c => currentTime c - startTime e
          | None => pausedAt e
          end in
        set_transport (startTime e) pausedAt' false e
      else e
  | None => e
  end.

Definition seek (time : R) (settings : MasteringSettings) (e : AudioEngine)
  (w : World) : Run unit :=
  if isPlaying e then play time settings (pause e) w
  else mkRun (Return tt) (set_transport (startTime e) time (isPlaying e) e) w.

Definition getCurrentTime (e : AudioEngine) : R :=
  match audioContext e with
  | Some c => if isPlaying e then currentTime c - startTime e else pausedAt e
  | None => pausedAt e
  end.

(** [AudioBuffer.duration] *)
Definition duration (b : AudioBufferData) : R :=
  INR (length b) / INR (sampleRate b).

Definition getDuration (e : AudioEngine) : R :=
  match audioBuffer e with
  | Some b => duration (buf_data b)
  | None => 0
  end.

End Engine.

(** ** State updates of [src/App.tsx] and [src/constants.ts] *)

Module App.
Import Js Types Constants.
Local Open Scope R_scope.

(** [createEQ] of [src/constants.ts]: [gains[i] || 0] per default frequency. *)
Definition createEQ (gains : list R) : list EQBand :=
  mapi (fun f i => {| frequency := f; gain := orElse (nth_error gains i) 0 |})
       DEFAULT_EQ_FREQUENCIES.

(** The settings [handleEQChange(index, gain)] computes from the previous
    ones and passes to [audioEngine.updateSettings]. *)
Definition handleEQChange (index : nat) (gain' : R) (prev : MasteringSettings)
  : MasteringSettings :=
  let newEq :=
    mapi (fun band i =>
            if (i =? index)%nat
            then {| frequency := frequency band; gain := gain' |}
            else band)
         (eq prev) in
  set_eq newEq prev.

End App.

(** ** The presets of [src/constants.ts] *)

Module Presets.
Import Js Types Constants App.
Local Open Scope R_scope.

Inductive PresetName : Type :=
| Manual | Pop | Rap | Rock | Anatolian_Rock | Acoustic | Vocal | Arabesk | Slow.

Record Preset : Type := mkPreset {
  name : PresetName;
  description : string;
  settings : MasteringSettings
}.

(** [{ ...DEFAULT_SETTINGS, field: value, ... }]: the fields a preset does
    not list are those of [DEFAULT_SETTINGS]. *)
Definition PRESETS (key : PresetName) : Preset :=
  match key with
  | Pop =>
      {| name := Pop;
         description := "Radio-ready polish. Balanced highs and tight lows.";
         settings :=
           {| masterGain := 0.10;
              eq := createEQ [0; 1; 0; -1; -2; -1; 0; 1; 2; 2; 2; 1; 0; 0];
              compressor := {| threshold := -15; ratio := 2.5;
                               attack := 0.01; release := 0.1 |};
              reverb := reverb DEFAULT_SETTINGS;
              saturation := 0.02;
              air := 2.0;
              body := 1.0;
              stereoWidth := 0.10;
              ceiling := -0.2;
              stereoBass := stereoBass DEFAULT_SETTINGS;
              dynamicBass := 1.0;
              softClip := 0.1 |} |}
  | Rap =>
      {| name := Rap;
         description := "Heavy kick, clear vocals, hard limiting.";
         settings :=
           {| masterGain := 0.05;
              eq := createEQ [2; 3; 1; 0; -1; 0; 1; 2; 3; 3; 1; 0; 0; 0];
              compressor := {| threshold := -16; ratio := 4.0;
                               attack := 0.005; release := 0.05 |};
              reverb := reverb DEFAULT_SETTINGS;
              saturation := 0.04;
              air := 1.5;
              body := 0.5;
              stereoWidth := stereoWidth DEFAULT_SETTINGS;
              ceiling := -0.1;
              stereoBass := 0.5;
              dynamicBass := 3.0;
              softClip := 0.3 |} |}
  | Rock =>
      {| name := Rock;
         description := "Aggressive guitars, punchy drums, solid power.";
         settings :=
           {| masterGain := 0.08;
              eq := createEQ [1; 2; 1; 0; -1; 0; 2; 3; 3; 2; 1; 0; 0; 0];
              compressor := {| threshold := -14; ratio := 3.5;
                               attack := 0.01; release := 0.1 |};
              reverb := reverb DEFAULT_SETTINGS;
              saturation := 0.05;
              air := 1.5;
              body := 1.5;
              stereoWidth := 0.15;
              ceiling := -0.1;
              stereoBass := stereoBass DEFAULT_SETTINGS;
              dynamicBass := 1.5;
              softClip := 0.25 |} |}
  | Anatolian_Rock =>
      {| name := Anatolian_Rock;
         description := "Psychedelic 70s vibe. Driving bass rhythm, vintage warmth.";
         settings :=
           {| masterGain := 0.12;
              eq := createEQ [2; 3; 2; 1; 0; 1; 2; 2; 1; 1; 0; 0; 0; 0];
              compressor := {| threshold := -13; ratio := 2.5;
                               attack := 0.02; release := 0.2 |};
              reverb := {| mix := 0.2; decay := 2.0 |};
              saturation := 0.08;
              air := 1.0;
              body := 3.0;
              stereoWidth := 0.2;
              ceiling := ceiling DEFAULT_SETTINGS;
              stereoBass := 2.0;
              dynamicBass := 3.5;
              softClip := 0.2 |} |}
  | Acoustic =>
      {| name := Acoustic;
         description := "Dynamic, open, minimal coloring.";
         settings :=
           {| masterGain := 0.0;
              eq := createEQ [0; 0; -1; -1; 0; 0; 1; 1; 2; 1; 0; 0; 0; 0];
              compressor := {| threshold := -10; ratio := 1.5;
                               attack := 0.02; release := 0.2 |};
              reverb := {| mix := 0.1; decay := 1.5 |};
              saturation := 0.01;
              air := 1.0;
              body := 1.0;
              stereoWidth := 0.05;
              ceiling := ceiling DEFAULT_SETTINGS;
              stereoBass := stereoBass DEFAULT_SETTINGS;
              dynamicBass := dynamicBass DEFAULT_SETTINGS;
              softClip := softClip DEFAULT_SETTINGS |} |}
  | Vocal =>
      {| name := Vocal;
         description := "Mid-forward, de-essed highs, vocal presence.";
         settings :=
           {| masterGain := 0.1;
              eq := createEQ [-2; -1; -1; 0; 2; 3; 3; 0; 1; 2; 1; 0; 0; 0];
              compressor := {| threshold := -18; ratio := 2.5;
                               attack := 0.01; release := 0.15 |};
              reverb := {| mix := 0.15; decay := 2.0 |};
              saturation := saturation DEFAULT_SETTINGS;
              air := 2.0;
              body := 2.5;
              stereoWidth := 0.0;
              ceiling := ceiling DEFAULT_SETTINGS;
              stereoBass := stereoBass DEFAULT_SETTINGS;
              dynamicBass := dynamicBass DEFAULT_SETTINGS;
              softClip := 0.1 |} |}
  | Arabesk =>
      {| name := Arabesk;
         description := "Emotional, wide stereo field, warm mids.";
         settings :=
           {| masterGain := 0.12;
              eq := createEQ [1; 2; 2; 1; 2; 2; 1; 0; 0; 1; 0; 0; 0; 0];
              compressor := {| threshold := -14; ratio := 3.0;
                               attack := 0.02; release := 0.3 |};
              reverb := {| mix := 0.30; decay := 3.0 |};
              saturation := 0.05;
              air := air DEFAULT_SETTINGS;
              body := 4.0;
              stereoWidth := 0.30;
              ceiling := ceiling DEFAULT_SETTINGS;
              stereoBass := 1.5;
              dynamicBass := dynamicBass DEFAULT_SETTINGS;
              softClip := softClip DEFAULT_SETTINGS |} |}
  | Slow =>
      {| name := Slow;
         description := "Glue compression, dark vintage tone.";
         settings :=
           {| masterGain := 0.1;
              eq := createEQ [1; 1; 1; 0; 0; -0.5; -1; -1; -0.5; 0; 0; 0; 0; 0];
              compressor := {| threshold := -12; ratio := 2.0;
                               attack := 0.05; release := 0.5 |};
              reverb := {| mix := 0.20; decay := 2.5 |};
              saturation := 0.06;
              air := 0.5;
              body := 3.0;
              stereoWidth := stereoWidth DEFAULT_SETTINGS;
              ceiling := ceiling DEFAULT_SETTINGS;
              stereoBass := stereoBass DEFAULT_SETTINGS;
              dynamicBass := dynamicBass DEFAULT_SETTINGS;
              softClip := 0.2 |} |}
  | Manual =>
      {| name := Manual;
         description := "Reset all settings. You are in control.";
         settings := DEFAULT_SETTINGS |}
  end.

End Presets.

(** ** Preset handlers of [src/App.tsx] *)

Module Handlers.
Import Js Types Constants.
Local Open Scope R_scope.

(** The part of the component state the handlers below write. *)
Record AppState : Type := mkAppState {
  app_settings : MasteringSettings;
  activePreset : Presets.PresetName
}.

(** [applyPreset(name)]: the new component state and the engine after
    [audioEngine.updateSettings(newSettings)]. *)
Definition applyPreset (key : Presets.PresetName) (st : AppState) (e : Engine.AudioEngine)
  : AppState * Engine.AudioEngine :=
  let preset := Presets.PRESETS key in
  let newSettings := Presets.settings preset in
  ({| app_settings := newSettings; activePreset := key |},
   Engine.updateSettings newSettings e).

(** [handleReset] *)
Definition handleReset : AppState -> Engine.AudioEngine -> AppState * Engine.AudioEngine :=
  applyPreset Presets.Manual.

End Handlers.

(** * Properties of the WAV encoder *)

Section WavFacts.
Import Wav.

Lemma setBytes_spec (offset : nat) (bs : list byte) (view : DataView) :
  (offset + List.length bs <= List.length view)%nat ->
  exists view',
    setBytes offset bs view = Some view' /\
    List.length view' = List.length view /\
    (forall k, (k <= offset)%nat -> firstn k view' = firstn k view).
Proof.
  intro Hle. unfold setBytes.
  destruct (Nat.leb_spec (offset + List.length bs) (List.length view)); [|lia].
  eexists; split; [reflexivity|]; split.
  - rewrite !length_app, length_firstn, length_skipn. lia.
  - intros k Hk. rewrite firstn_app, firstn_firstn, length_firstn.
    replace (k - Nat.min offset (List.length view))%nat with 0%nat by lia.
    simpl. rewrite app_nil_r. f_equal. lia.
Qed.

Lemma length_endian (le : bool) (bs : list byte) :
  List.length (endian le bs) = List.length bs.
Proof. destruct le; simpl; [reflexivity | apply length_rev]. Qed.

(** A sample writer that stores [k] bytes at the running offset. *)
Definition writes_bytes (k : nat)
  (body : float32 -> nat * DataView -> option (nat * DataView)) : Prop :=
  forall x offset view,
    (offset + k <= List.length view)%nat ->
    exists view',
      body x (offset, view) = Some ((offset + k)%nat, view') /\
      List.length view' = List.length view /\
      (forall j, (j <= offset)%nat -> firstn j view' = firstn j view).

Lemma writeSample16_writes : writes_bytes 2 writeSample16.
Proof.
  intros x offset view Hle. unfold writeSample16, setInt16.
  destruct (setBytes_spec offset
              (endian true (le_split 2 (truncate (scale16 (clampUnit (f32_value x))))))
              view) as [v [Hv [Hl Hf]]].
  { rewrite length_endian, length_le_split. exact Hle. }
  rewrite Hv. exists v. auto.
Qed.

Lemma writeSample32_writes : writes_bytes 4 writeSample32.
Proof.
  intros x offset view Hle. unfold writeSample32, setFloat32.
  destruct (setBytes_spec offset (endian true (le_split 4 (f32_bits x))) view)
    as [v [Hv [Hl Hf]]].
  { rewrite length_endian, length_le_split. exact Hle. }
  rewrite Hv. exists v. auto.
Qed.

Lemma writeSample24_writes : writes_bytes 3 writeSample24.
Proof.
  intros x offset view Hle. unfold writeSample24, setUint8.
  set (val := Math_round (scale24 (clampUnit (f32_value x)))).
  destruct (setBytes_spec offset (le_split 1 (Z.land val 255)) view)
    as [v1 [Hv1 [Hl1 Hf1]]]; [simpl; lia|].
  rewrite Hv1.
  destruct (setBytes_spec (offset + 1) (le_split 1 (Z.land (Z.shiftr val 8) 255)) v1)
    as [v2 [Hv2 [Hl2 Hf2]]]; [simpl; lia|].
  rewrite Hv2.
  destruct (setBytes_spec (offset + 2) (le_split 1 (Z.land (Z.shiftr val 16) 255)) v2)
    as [v3 [Hv3 [Hl3 Hf3]]]; [simpl; lia|].
  rewrite Hv3. exists v3. split; [reflexivity|]. split; [lia|].
  intros j Hj. rewrite Hf3, Hf2, Hf1 by lia. reflexivity.
Qed.

(** The sample loops stay inside the buffer and leave everything below their
    first offset alone. *)
Lemma forEachSample_spec (k : nat) body (buffer : AudioBuffer)
  (start : nat) (view : DataView) :
  writes_bytes k body ->
  (start + length buffer * (numberOfChannels buffer * k) <= List.length view)%nat ->
  exists view',
    forEachSample buffer body (start, view)
    = Some ((start + length buffer * (numberOfChannels buffer * k))%nat, view') /\
    List.length view' = List.length view /\
    firstn start view' = firstn start view.
Proof.
  intros Hbody Hfit. unfold forEachSample.
  set (nc := numberOfChannels buffer) in *.
  set (P := fun (i : nat) (st : nat * DataView) =>
              fst st = (start + i * (nc * k))%nat /\
              List.length (snd st) = List.length view /\
              firstn start (snd st) = firstn start view).
  destruct (forRange_invariant P (length buffer) 0
              (fun i => forRange nc 0 (fun ch => body (getChannelData buffer ch i)))
              (start, view)) as [[off v] [Hrun [Hoff [Hlen Hpre]]]].
  - unfold P; simpl. repeat split; lia.
  - intros i [off v] Hi [Hoff [Hlen Hpre]]. simpl in Hoff, Hlen, Hpre.
    set (R := fun (ch : nat) (st : nat * DataView) =>
                fst st = (start + i * (nc * k) + ch * k)%nat /\
                List.length (snd st) = List.length view /\
                firstn start (snd st) = firstn start view).
    destruct (forRange_invariant R nc 0
                (fun ch => body (getChannelData buffer ch i)) (off, v))
      as [[off' v'] [Hrun' [Hoff' [Hlen' Hpre']]]].
    + unfold R; simpl. repeat split; [lia | assumption | assumption].
    + intros ch [o w] Hch [Ho [Hl Hp]]. simpl in Ho, Hl, Hp.
      destruct (Hbody (getChannelData buffer ch i) o w) as [w' [Hw [Hl' Hp']]].
      { rewrite Hl, Ho.
        assert (H1 : (ch * k + k <= nc * k)%nat)
          by (replace (ch * k + k)%nat with (S ch * k)%nat by lia;
              apply Nat.mul_le_mono_r; lia).
        assert (H2 : (i * (nc * k) + nc * k <= length buffer * (nc * k))%nat)
          by (replace (i * (nc * k) + nc * k)%nat with (S i * (nc * k))%nat by lia;
              apply Nat.mul_le_mono_r; lia).
        lia. }
      exists ((o + k)%nat, w'). split; [exact Hw|].
      unfold R; simpl. repeat split; [lia | lia |].
      rewrite Hp' by lia. exact Hp.
    + exists (off', v'). split; [exact Hrun'|].
      unfold P; simpl. simpl in Hoff', Hlen', Hpre'.
      repeat split; [lia | assumption | assumption].
  - simpl in Hoff, Hlen, Hpre. exists v. simpl in Hrun.
    rewrite Hrun. repeat split; [|assumption|assumption].
    f_equal. f_equal. lia.
Qed.

Lemma getBytes_prefix (offset n m : nat) (view : DataView) :
  (offset + n <= m)%nat -> (m <= List.length view)%nat ->
  getBytes offset n view = getBytes offset n (firstn m view).
Proof.
  intros H1 H2. unfold getBytes. rewrite length_firstn.
  destruct (Nat.leb_spec (offset + n) (List.length view)); [|lia].
  destruct (Nat.leb_spec (offset + n) (Nat.min m (List.length view))); [|lia].
  f_equal. rewrite skipn_firstn_comm, firstn_firstn. f_equal. lia.
Qed.

Lemma getUint32_prefix (offset m : nat) (le : bool) (view view' : DataView) :
  (offset + 4 <= m)%nat -> (m <= List.length view)%nat ->
  List.length view' = List.length view ->
  firstn m view' = firstn m view ->
  getUint32 offset le view' = getUint32 offset le view.
Proof.
  intros H1 H2 Hl Hf. unfold getUint32.
  rewrite (getBytes_prefix offset 4 m view') by lia.
  rewrite (getBytes_prefix offset 4 m view) by lia.
  now rewrite Hf.
Qed.

(** C8.  A 2-channel, 44100 Hz buffer of 1000 frames exported as 16-bit PCM:
    [dataSize] is 1000*2*2 = 4000, the encoder returns a blob of 44 + 4000
    bytes, bytes 4-7 read as the little-endian unsigned integer 4036 and
    bytes 40-43 as 4000, whatever the samples are. *)
Theorem encodeWAV_header_scenario (buffer : AudioBuffer) :
  numberOfChannels buffer = 2%nat ->
  sampleRate buffer = 44100%Z ->
  length buffer = 1000%nat ->
  dataSize buffer WAV_16 = 4000%nat /\
  exists blob,
    encodeWAV buffer WAV_16 = Some blob /\
    List.length blob = 4044%nat /\
    getUint32 4 true blob = Some 4036%Z /\
    getUint32 40 true blob = Some 4000%Z.
Proof.
  destruct buffer as [nc sr len g]; simpl; intros -> -> ->.
  split; [reflexivity|].
  unfold encodeWAV.
  destruct (writeHeader (mkAudioBuffer 2 44100 1000 g) WAV_16
              (newArrayBuffer (totalSize (mkAudioBuffer 2 44100 1000 g) WAV_16)))
    as [header|] eqn:Hh; vm_compute in Hh; [|discriminate].
  injection Hh as Hh.
  destruct (forEachSample_spec 2 writeSample16 (mkAudioBuffer 2 44100 1000 g)
              44 header writeSample16_writes) as [view [Hrun [Hlen Hpre]]].
  { subst header. vm_compute. lia. }
  rewrite Hrun. exists view. simpl snd.
  assert (Hl : List.length header = 4044%nat) by (subst header; reflexivity).
  split; [reflexivity|]. split; [lia|].
  rewrite !(getUint32_prefix _ 44 true header view) by (assumption || lia).
  subst header. split; reflexivity.
Qed.

Definition scenario_buffer : AudioBuffer :=
  mkAudioBuffer 2 44100 1000 (fun ch i => mkF32 (Nat.even (ch + i)) 126 0).

Lemma encodeWAV_header_scenario_witness :
  dataSize scenario_buffer WAV_16 = 4000%nat /\
  exists blob,
    encodeWAV scenario_buffer WAV_16 = Some blob /\
    List.length blob = 4044%nat /\
    getUint32 4 true blob = Some 4036%Z /\
    getUint32 40 true blob = Some 4000%Z.
Proof. apply (encodeWAV_header_scenario scenario_buffer); reflexivity. Defined.

(** *** 16-bit export: the stored sample is truncated, not rounded *)

(** One channel, one frame; the sample is 2^-15 + 2^-31 (bits 0x38000080),
    a float just above one 16-bit step. *)
Definition just_above_one_step : float32 := mkF32 false 112 128.

Definition one_sample_buffer : AudioBuffer :=
  mkAudioBuffer 1 44100 1 (fun _ _ => just_above_one_step).

(** C4 (16-bit half), evaluated on the code.  The sample
    65537/2^31 lies in [-1,1]; [encodeWAV] stores the 16-bit integer 0 for it
    ([setInt16] truncates 32767*x = 0.99998 toward zero), so either decoder
    returns 0 and the error is the sample itself, which exceeds 1/32768.
    Rounding as the 24-bit branch does ([Math.round]) would have stored 1 and
    kept the error below 1/32768. *)
Theorem encodeWAV_16_error_exceeds_step :
  (f32_value just_above_one_step == 65537 # 2147483648)%Q /\
  (-1 <= f32_value just_above_one_step <= 1)%Q /\
  exists blob v,
    encodeWAV one_sample_buffer WAV_16 = Some blob /\
    getInt16 44 true blob = Some v /\
    v = 0%Z /\
    (1 # 32768 < Qabs (f32_value just_above_one_step - decodeSample16 v))%Q /\
    (1 # 32768 < Qabs (f32_value just_above_one_step - decodeSample16_sym v))%Q /\
    Math_round (scale16 (clampUnit (f32_value just_above_one_step))) = 1%Z /\
    (Qabs (f32_value just_above_one_step - decodeSample16 1) <= 1 # 32768)%Q.
Proof.
  split; [reflexivity|]. split; [split; discriminate|].
  eexists. exists 0%Z.
  split; [vm_compute; reflexivity|].
  split; [reflexivity|]. split; [reflexivity|].
  repeat split; vm_compute; congruence.
Qed.

(** *** What the 16-bit branch does guarantee *)

Lemma clampUnit_id (x : Q) : (-1 <= x <= 1)%Q -> (clampUnit x == x)%Q.
Proof.
  intros [Hlo Hhi]. unfold clampUnit.
  rewrite (Q.min_r 1 x Hhi). now apply Q.max_r.
Qed.

Lemma truncate_scale16_bounds (x : Q) :
  (-1 <= x <= 1)%Q ->
  let v := truncate (scale16 (clampUnit x)) in
  (-32768 <= v <= 32767)%Z /\
  ((x < 0)%Q -> (x * 32768 <= inject_Z v /\ inject_Z v < x * 32768 + 1)%Q) /\
  ((0 <= x)%Q -> (inject_Z v <= x * 32767 /\ x * 32767 < inject_Z v + 1)%Q).
Proof.
  intros Hx v. subst v. pose proof (clampUnit_id x Hx) as Hc. destruct Hx as [Hlo Hhi].
  unfold scale16, truncate.
  destruct (Qlt_le_dec (clampUnit x) 0) as [Hneg|Hpos].
  - set (s := (clampUnit x * 32768)%Q).
    assert (Hs : (s == x * 32768)%Q) by (unfold s; now rewrite Hc).
    assert (Hs1 : (s < 0)%Q) by (unfold s; lra).
    clearbody s.
    destruct (Qlt_le_dec s 0) as [_|Hs0]; [|lra].
    pose proof (Qle_ceiling s) as H1. pose proof (Qceiling_lt s) as H2.
    unfold Z.sub in H2. rewrite inject_Z_plus in H2.
    change (inject_Z (- (1))) with (-1 # 1)%Q in H2.
    repeat split; intros; try lra.
    + rewrite Zle_Qle. change (inject_Z (-32768)) with (-32768 # 1)%Q. lra.
    + assert (H3 : (Qceiling s < 1)%Z)
        by (rewrite Zlt_Qlt; change (inject_Z 1) with (1 # 1)%Q; lra).
      lia.
  - set (s := (clampUnit x * 32767)%Q).
    assert (Hs : (s == x * 32767)%Q) by (unfold s; now rewrite Hc).
    assert (Hs1 : (0 <= s)%Q) by (unfold s; lra).
    clearbody s.
    destruct (Qlt_le_dec s 0) as [Hs0|_]; [lra|].
    pose proof (Qfloor_le s) as H1. pose proof (Qlt_floor s) as H2.
    rewrite inject_Z_plus in H2. change (inject_Z 1) with (1 # 1)%Q in H2.
    repeat split; intros; try lra.
    + assert (H3 : (-1 < Qfloor s)%Z)
        by (rewrite Zlt_Qlt; change (inject_Z (-1)) with (-1 # 1)%Q; lra).
      lia.
    + rewrite Zle_Qle. change (inject_Z 32767) with (32767 # 1)%Q. lra.
Qed.

(** Whatever sample of [-1,1] is exported, the 16-bit value decoded with the
    inverse of the documented scale is within 1/32767 (strictly) of it. *)
Lemma pcm16_error_bound (x : Q) :
  (-1 <= x <= 1)%Q ->
  (Qabs (x - decodeSample16 (truncate (scale16 (clampUnit x)))) < 1 # 32767)%Q.
Proof.
  intros Hx. destruct (truncate_scale16_bounds x Hx) as [Hr [Hn Hp]].
  set (v := truncate (scale16 (clampUnit x))) in *.
  assert (E1 : forall z, (inject_Z z / 32768 == inject_Z z * (1 # 32768))%Q)
    by (intro; unfold Qdiv; reflexivity).
  assert (E2 : forall z, (inject_Z z / 32767 == inject_Z z * (1 # 32767))%Q)
    by (intro; unfold Qdiv; reflexivity).
  apply Qabs_Qlt_condition. unfold decodeSample16.
  destruct (Qlt_le_dec x 0) as [Hx0|Hx0].
  - destruct (Hn Hx0) as [H1 H2].
    destruct (Z.ltb_spec v 0) as [Hv|Hv].
    + rewrite E1. split; lra.
    + assert (Hv0 : (0 <= inject_Z v)%Q)
        by (change 0%Q with (inject_Z 0); now rewrite <- Zle_Qle).
      rewrite E2. split; lra.
  - destruct (Hp Hx0) as [H1 H2].
    destruct (Z.ltb_spec v 0) as [Hv|Hv].
    + assert (Hv0 : (inject_Z v <= -1 # 1)%Q)
        by (change (-1 # 1)%Q with (inject_Z (-1)); rewrite <- Zle_Qle; lia).
      lra.
    + rewrite E2. split; lra.
Qed.

(** *** Reading the exported samples back *)

Lemma writeHeader_spec (buffer : AudioBuffer) (format : ExportFormat)
  (view : DataView) :
  (44 <= List.length view)%nat ->
  exists view',
    writeHeader buffer format view = Some view' /\
    List.length view' = List.length view.
Proof.
  intro Hlen.
  unfold writeHeader, writeString, setUint32, setUint16, setUint8.
  cbn [forRange String.length endian Nat.add].
  repeat
    match goal with
    | |- context [setBytes ?o ?b ?v] =>
        let v' := fresh "v" in
        let Hv := fresh "Hv" in
        let Hl := fresh "Hl" in
        destruct (setBytes_spec o b v) as [v' [Hv [Hl _]]];
        [rewrite ?length_le_split; lia | rewrite Hv; clear Hv]
    end.
  eexists. split; [reflexivity | lia].
Qed.

Lemma getBytes_setBytes (offset : nat) (bs : list byte) (view view' : DataView) :
  setBytes offset bs view = Some view' ->
  getBytes offset (List.length bs) view' = Some bs.
Proof.
  unfold setBytes, getBytes.
  destruct (Nat.leb_spec (offset + List.length bs) (List.length view)) as [Hle|];
    [|discriminate].
  intros [= <-].
  rewrite !length_app, length_firstn, length_skipn.
  destruct (Nat.leb_spec (offset + List.length bs)
              (Nat.min offset (List.length view) +
               (List.length bs + (List.length view - (offset + List.length bs)))));
    [|lia].
  f_equal. rewrite skipn_app, length_firstn.
  replace (offset - Nat.min offset (List.length view))%nat with 0%nat by lia.
  rewrite skipn_all2 by (rewrite length_firstn; lia).
  simpl. rewrite firstn_app, Nat.sub_diag, firstn_all. simpl.
  now rewrite app_nil_r.
Qed.

Section Float32Bits.
Local Open Scope Z_scope.

Lemma f32_of_bits_bits (f : float32) :
  f32_finite f -> f32_of_bits (f32_bits f mod 2 ^ 32) = f.
Proof.
  destruct f as [s e m]. unfold f32_finite, f32_bits, f32_of_bits.
  cbn [f_sign f_exp f_frac].
  intros [He Hm].
  assert (Hr : 0 <= e * 2 ^ 23 + m < 2 ^ 31) by nia.
  set (r := e * 2 ^ 23 + m) in *.
  assert (Hb : 0 <= (if s then 2 ^ 31 else 0) + r < 2 ^ 32) by (destruct s; lia).
  replace ((if s then 2 ^ 31 else 0) + e * 2 ^ 23 + m)
    with ((if s then 2 ^ 31 else 0) + r) by (unfold r; lia).
  rewrite (Z.mod_small _ _ Hb).
  f_equal.
  - rewrite Z.testbit_eqb by lia. destruct s.
    + replace ((2 ^ 31 + r) / 2 ^ 31) with 1; [reflexivity|].
      apply Z.div_unique with (r := r); lia.
    + simpl (0 + r). rewrite Z.div_small by lia. reflexivity.
  - assert (Hd : ((if s then 2 ^ 31 else 0) + r) / 2 ^ 23
               = (if s then 2 ^ 8 else 0) + e)
      by (symmetry; apply Z.div_unique with (r := m); unfold r; destruct s; lia).
    rewrite Hd. symmetry.
    apply Z.mod_unique with (q := if s then 1 else 0); destruct s; lia.
  - symmetry.
    apply Z.mod_unique with (q := (if s then 2 ^ 8 else 0) + e);
      unfold r; destruct s; lia.
Qed.

End Float32Bits.

(** A sample writer that stores [k] bytes from which [rd] recovers [val x],
    for the samples satisfying [good]. *)
Definition stores {A : Type} (k : nat) (good : float32 -> Prop)
  (rd : nat -> DataView -> option A) (val : float32 -> A)
  (body : float32 -> nat * DataView -> option (nat * DataView)) : Prop :=
  forall x offset view,
    good x ->
    (offset + k <= List.length view)%nat ->
    exists view',
      body x (offset, view) = Some ((offset + k)%nat, view') /\
      List.length view' = List.length view /\
      (forall j, (j <= offset)%nat -> firstn j view' = firstn j view) /\
      rd offset view' = Some (val x).

(** A reader of [k] bytes looks at nothing beyond them. *)
Definition reads_bytes {A : Type} (k : nat) (rd : nat -> DataView -> option A)
  : Prop :=
  forall offset view view',
    (offset + k <= List.length view)%nat ->
    List.length view' = List.length view ->
    firstn (offset + k) view' = firstn (offset + k) view ->
    rd offset view' = rd offset view.

Lemma getBytes_reads (k : nat) : reads_bytes k (fun o v => getBytes o k v).
Proof.
  intros offset view view' Hfit Hlen Hpre.
  rewrite (getBytes_prefix offset k (offset + k) view') by lia.
  rewrite (getBytes_prefix offset k (offset + k) view) by lia.
  now rewrite Hpre.
Qed.

Lemma frame_position (i i' nc ch ch' k : nat) :
  ((i' < i /\ ch' < nc) \/ (i' = i /\ ch' < ch))%nat ->
  ((i' * nc + ch') * k + k <= i * (nc * k) + ch * k)%nat.
Proof.
  intros H.
  assert (H1 : (S (i' * nc + ch') <= i * nc + ch)%nat).
  { destruct H as [[Hi Hc]|[-> Hc]]; [|lia].
    assert (S i' * nc <= i * nc)%nat by (apply Nat.mul_le_mono_r; lia). lia. }
  apply (Nat.mul_le_mono_r _ _ k) in H1. lia.
Qed.

Lemma forEachSample_readback {A : Type} (k : nat) good
  (rd : nat -> DataView -> option A) (val : float32 -> A) body
  (buffer : AudioBuffer) (start : nat) (view : DataView) :
  stores k good rd val body ->
  reads_bytes k rd ->
  (forall ch i, good (getChannelData buffer ch i)) ->
  (start + length buffer * (numberOfChannels buffer * k) <= List.length view)%nat ->
  exists view',
    forEachSample buffer body (start, view)
    = Some ((start + length buffer * (numberOfChannels buffer * k))%nat, view') /\
    List.length view' = List.length view /\
    firstn start view' = firstn start view /\
    forall i ch, (i < length buffer)%nat -> (ch < numberOfChannels buffer)%nat ->
      rd (start + (i * numberOfChannels buffer + ch) * k)%nat view'
      = Some (val (getChannelData buffer ch i)).
Proof.
  intros Hbody Hrd Hgood Hfit. unfold forEachSample.
  set (nc := numberOfChannels buffer) in *.
  set (g := getChannelData buffer) in *.
  set (Inv := fun (i ch : nat) (st : nat * DataView) =>
     fst st = (start + (i * (nc * k) + ch * k))%nat /\
     List.length (snd st) = List.length view /\
     firstn start (snd st) = firstn start view /\
     forall i' ch', ((i' < i /\ ch' < nc) \/ (i' = i /\ ch' < ch))%nat ->
       rd (start + (i' * nc + ch') * k)%nat (snd st) = Some (val (g ch' i'))).
  destruct (forRange_invariant (fun i => Inv i 0%nat) (length buffer) 0
              (fun i => forRange nc 0 (fun ch => body (g ch i)))
              (start, view)) as [[off v] [Hrun [Hoff [Hlen [Hpre Hread]]]]].
  - unfold Inv; simpl. repeat split; lia.
  - intros i st Hi HI.
    destruct (forRange_invariant (Inv i) nc 0 (fun ch => body (g ch i)) st HI)
      as [st' [Hrun' HI']].
    + intros ch [o w] Hch [Ho [Hl [Hp Hr]]]. simpl in Ho, Hl, Hp, Hr.
      assert (Hin : (o + k <= List.length w)%nat).
      { rewrite Hl, Ho.
        pose proof (frame_position (length buffer) i nc 0 ch k) as F.
        specialize (F ltac:(left; lia)). nia. }
      destruct (Hbody (g ch i) o w (Hgood ch i) Hin) as [w' [Hw [Hl' [Hp' Hr']]]].
      exists ((o + k)%nat, w'). split; [exact Hw|].
      unfold Inv; simpl. repeat split; [lia | lia | |].
      * rewrite Hp' by lia. exact Hp.
      * intros i' ch' Hpos.
        destruct (Nat.eq_dec i' i) as [->|Hne];
          [destruct (Nat.eq_dec ch' ch) as [->|Hne]|].
        -- replace (start + (i * nc + ch) * k)%nat with o by lia. exact Hr'.
        -- rewrite <- (Hr i ch') by lia.
           pose proof (frame_position i i nc ch ch' k ltac:(right; lia)) as F.
           apply Hrd; [lia | lia |]. apply Hp'. lia.
        -- rewrite <- (Hr i' ch') by lia.
           pose proof (frame_position i i' nc ch ch' k ltac:(left; lia)) as F.
           apply Hrd; [lia | lia |]. apply Hp'. lia.
    + exists st'. split; [exact Hrun'|].
      destruct st' as [o' w']. destruct HI' as [Ho [Hl [Hp Hr]]].
      simpl in Ho, Hl, Hp, Hr. unfold Inv; simpl.
      repeat split; [lia | lia | assumption |].
      intros i' ch' Hpos. apply Hr. lia.
  - simpl in Hoff, Hlen, Hpre, Hread, Hrun. exists v. rewrite Hrun.
    repeat split; [f_equal; f_equal; lia | assumption | assumption |].
    intros i ch Hi Hch. apply Hread. lia.
Qed.

Lemma getFloat32_reads : reads_bytes 4 (fun o v => getFloat32 o true v).
Proof.
  intros offset view view' Hfit Hlen Hpre. unfold getFloat32, getUint32.
  now rewrite (getBytes_reads 4 offset view view' Hfit Hlen Hpre).
Qed.

Lemma getInt16_reads : reads_bytes 2 (fun o v => getInt16 o true v).
Proof.
  intros offset view view' Hfit Hlen Hpre. unfold getInt16, getUint16.
  now rewrite (getBytes_reads 2 offset view view' Hfit Hlen Hpre).
Qed.

Lemma writeSample32_stores :
  stores 4 f32_finite (fun o v => getFloat32 o true v) (fun x => x) writeSample32.
Proof.
  intros x offset view Hx Hle. unfold writeSample32, setFloat32.
  set (bs := endian true (le_split 4 (f32_bits x))).
  destruct (setBytes_spec offset bs view) as [v [Hv [Hl Hf]]]; [exact Hle|].
  rewrite Hv. exists v. repeat split; [assumption | assumption |].
  unfold getFloat32, getUint32.
  rewrite (getBytes_setBytes offset bs view v Hv : getBytes offset 4 v = Some bs).
  unfold bs. cbn [option_map endian].
  rewrite le_combine_split. change (Z.of_nat 4 * 8)%Z with 32%Z.
  now rewrite f32_of_bits_bits.
Qed.

Lemma writeSample16_stores :
  stores 2 (fun x => (-1 <= f32_value x <= 1)%Q)
         (fun o v => getInt16 o true v)
         (fun x => truncate (scale16 (clampUnit (f32_value x)))) writeSample16.
Proof.
  intros x offset view Hx Hle. unfold writeSample16, setInt16.
  set (z := truncate (scale16 (clampUnit (f32_value x)))).
  set (bs := endian true (le_split 2 z)).
  destruct (setBytes_spec offset bs view) as [v [Hv [Hl Hf]]]; [exact Hle|].
  rewrite Hv. exists v. repeat split; [assumption | assumption |].
  unfold getInt16, getUint16.
  rewrite (getBytes_setBytes offset bs view v Hv : getBytes offset 2 v = Some bs).
  unfold bs. cbn [option_map endian].
  rewrite le_combine_split. change (Z.of_nat 2 * 8)%Z with 16%Z.
  destruct (truncate_scale16_bounds (f32_value x) Hx) as [Hr _]. fold z in Hr.
  f_equal. destruct (Z.ltb_spec (z mod 2 ^ 16) (2 ^ 15))%Z as [Hs|Hs].
  - destruct (Z.lt_ge_cases z 0) as [Hz|Hz].
    + replace z with ((z + 2 ^ 16) + (-1) * 2 ^ 16)%Z in Hs at 1 by lia.
      rewrite Z.mod_add, Z.mod_small in Hs by lia. lia.
    + apply Z.mod_small. lia.
  - destruct (Z.lt_ge_cases z 0) as [Hz|Hz].
    + replace z with ((z + 2 ^ 16) + (-1) * 2 ^ 16)%Z at 1 by lia.
      rewrite Z.mod_add, Z.mod_small by lia. lia.
    + rewrite Z.mod_small in Hs by lia. lia.
Qed.

(** C4 (32-bit half).  A buffer of finite float samples exported as 32-bit
    float: the encoder returns a blob from which [getFloat32] reads back, at
    the interleaved position of frame [i] and channel [ch], exactly the sample
    that was exported (sign, exponent and fraction). *)
Theorem encodeWAV_32_roundtrip (buffer : AudioBuffer) :
  (forall ch i, f32_finite (getChannelData buffer ch i)) ->
  exists blob,
    encodeWAV buffer WAV_32 = Some blob /\
    List.length blob = totalSize buffer WAV_32 /\
    forall i ch, (i < length buffer)%nat -> (ch < numberOfChannels buffer)%nat ->
      getFloat32 (44 + (i * numberOfChannels buffer + ch) * 4) true blob
      = Some (getChannelData buffer ch i).
Proof.
  intros Hfin. unfold encodeWAV.
  destruct (writeHeader_spec buffer WAV_32 (newArrayBuffer (totalSize buffer WAV_32)))
    as [header [Hh Hl]].
  { unfold newArrayBuffer, totalSize, headerSize. rewrite repeat_length. lia. }
  rewrite Hh. unfold newArrayBuffer in Hl. rewrite repeat_length in Hl.
  destruct (forEachSample_readback 4 f32_finite (fun o v => getFloat32 o true v)
              (fun x => x) writeSample32 buffer 44 header
              writeSample32_stores getFloat32_reads Hfin)
    as [view [Hrun [Hlen [_ Hread]]]].
  { rewrite Hl. unfold totalSize, headerSize, dataSize, blockAlign.
    change (bytesPerSample WAV_32) with 4%nat. lia. }
  rewrite Hrun. exists view. cbn [snd]. repeat split; [lia | exact Hread].
Qed.

(** The 16-bit export never throws, and the integer read back at each sample
    position decodes to within 1/32767 of the exported sample. *)
Theorem encodeWAV_16_roundtrip (buffer : AudioBuffer) :
  (forall ch i, (-1 <= f32_value (getChannelData buffer ch i) <= 1)%Q) ->
  exists blob,
    encodeWAV buffer WAV_16 = Some blob /\
    forall i ch, (i < length buffer)%nat -> (ch < numberOfChannels buffer)%nat ->
      exists v,
        getInt16 (44 + (i * numberOfChannels buffer + ch) * 2) true blob = Some v /\
        (Qabs (f32_value (getChannelData buffer ch i) - decodeSample16 v)
         < 1 # 32767)%Q.
Proof.
  intros Hrange. unfold encodeWAV.
  destruct (writeHeader_spec buffer WAV_16 (newArrayBuffer (totalSize buffer WAV_16)))
    as [header [Hh Hl]].
  { unfold newArrayBuffer, totalSize, headerSize. rewrite repeat_length. lia. }
  rewrite Hh. unfold newArrayBuffer in Hl. rewrite repeat_length in Hl.
  destruct (forEachSample_readback 2 _ _ _ writeSample16 buffer 44 header
              writeSample16_stores getInt16_reads Hrange)
    as [view [Hrun [Hlen [_ Hread]]]].
  { rewrite Hl. unfold totalSize, headerSize, dataSize, blockAlign.
    change (bytesPerSample WAV_16) with 2%nat. lia. }
  rewrite Hrun. exists view. cbn [snd]. split; [reflexivity|].
  intros i ch Hi Hch. eexists. split; [apply Hread; assumption|].
  apply pcm16_error_bound, Hrange.
Qed.

End WavFacts.

(** * Properties of the heuristic engine *)

Section AssistantFacts.
Import Js Types Constants Assistant.
Local Open Scope R_scope.

Lemma ln_10_pos : 0 < ln 10.
Proof. rewrite <- ln_1. apply ln_increasing; lra. Qed.

Lemma Math_log10_tenth : Math_log10 0.1 = -1.
Proof.
  unfold Math_log10. replace 0.1 with (/ 10) by lra.
  rewrite ln_Rinv by lra. pose proof ln_10_pos.
  replace (- ln 10 / ln 10) with (- (ln 10 / ln 10)) by (unfold Rdiv; ring).
  unfold Rdiv. rewrite Rinv_r by lra. reflexivity.
Qed.

Lemma toFixed_exact (digits : nat) (z : Z) (x : R) :
  0 <= x -> x * 10 ^ digits = IZR z -> toFixed digits x = x.
Proof.
  intros Hx Hz. unfold toFixed.
  assert (Hp : 0 < 10 ^ digits) by (apply pow_lt; lra).
  rewrite (Rabs_pos_eq x Hx), Hz.
  rewrite <- (Int_part_spec (IZR z + / 2) z) by lra.
  destruct (Rlt_dec x 0) as [Hneg|_]; [lra|].
  rewrite <- Hz. field. lra.
Qed.

(** 10^(1/5) lies between 1.584 and 1.585. *)
Lemma fifth_root_of_ten : 1.584 < Rpower 10 0.2 < 1.585.
Proof.
  set (y := Rpower 10 0.2).
  assert (Hy : 0 < y) by (unfold y, Rpower; apply exp_pos).
  assert (H5 : y ^ 5 = 10).
  { unfold y. rewrite <- Rpower_pow by (unfold Rpower; apply exp_pos).
    rewrite Rpower_mult. replace (0.2 * INR 5) with 1 by (simpl; lra).
    apply Rpower_1. lra. }
  split.
  - destruct (Rlt_le_dec 1.584 y) as [H|H]; [exact H|exfalso].
    assert (Hle : y ^ 5 <= 1.584 ^ 5) by (apply pow_incr; lra).
    rewrite H5 in Hle. lra.
  - destruct (Rlt_le_dec y 1.585) as [H|H]; [exact H|exfalso].
    assert (Hle : 1.585 ^ 5 <= y ^ 5) by (apply pow_incr; lra).
    rewrite H5 in Hle. lra.
Qed.

Lemma clamp_inside (v lo hi : R) : lo <= v <= hi -> clamp v lo hi = v.
Proof.
  intros [H1 H2]. unfold clamp, Math_min, Math_max.
  rewrite (Rmax_right lo v H1). now apply Rmin_right.
Qed.

Lemma clamp_above (v lo hi : R) : lo <= hi -> hi <= v -> clamp v lo hi = hi.
Proof.
  intros H1 H2. unfold clamp, Math_min, Math_max.
  rewrite (Rmax_right lo v) by lra. now apply Rmin_left.
Qed.

Ltac decide_tests :=
  repeat match goal with
    | |- context [Rgt_dec ?a ?b] => destruct (Rgt_dec a b); try lra
    | |- context [Rlt_dec ?a ?b] => destruct (Rlt_dec a b); try lra
    | |- context [Rle_dec ?a ?b] => destruct (Rle_dec a b); try lra
    | |- context [Req_dec_T ?a ?b] => destruct (Req_dec_T a b); try lra
    end.

(** C3.  The literal scenario rms = 0.1, crestFactor = 3, spectralFlux = 20,
    lowEnergy = 0.5, midEnergy = 0.5 (any spectral balance and metadata):
    estimatedLUFS = -20.6, targetLUFS = -10, gainNeeded = 10.6, and the
    returned settings have masterGain = clamp(10^0.2 - 1, 0, 0.8), a number
    between 0.584 and 0.585, ceiling = -0.3, softClip = 0.4 and the compressor
    set to threshold -16, ratio 2.0, attack 0.01, release 0.15. *)
Theorem generateAiSettings_scenario (analysis : AnalysisResult) :
  rms analysis = 0.1 ->
  crestFactor analysis = 3 ->
  spectralFlux analysis = 20 ->
  lowEnergy analysis = 0.5 ->
  midEnergy analysis = 0.5 ->
  estimatedLUFS analysis = -20.6 /\
  targetLUFS analysis = -10 /\
  gainNeeded analysis = 10.6 /\
  let s := settings (generateAiSettings analysis) in
  masterGain s = clamp (Rpower 10 0.2 - 1) 0 0.8 /\
  0.584 < masterGain s < 0.585 /\
  ceiling s = -0.3 /\
  softClip s = 0.4 /\
  compressor s = {| threshold := -16; ratio := 2.0; attack := 0.01; release := 0.15 |}.
Proof.
  intros Hrms Hcrest Hflux Hlow Hmid.
  assert (He : estimatedLUFS analysis = -20.6)
    by (unfold estimatedLUFS; rewrite Hrms, Math_log10_tenth; lra).
  assert (Ht : targetLUFS analysis = -10)
    by (unfold targetLUFS; rewrite He; decide_tests).
  assert (Hg : gainNeeded analysis = 10.6)
    by (unfold gainNeeded; rewrite Ht, He; lra).
  repeat split; try assumption.
  all: pose proof fifth_root_of_ten as [Hlo Hhi].
  all: unfold generateAiSettings; rewrite Hg, Hcrest, Hflux, Hlow, Hmid.
  all: assert (Hmin : Math_min 10.6 4.0 = 4)
         by (unfold Math_min, Rmin; decide_tests).
  all: rewrite Hmin.
  all: assert (Hmax : Math_max 0 (10.6 - 4) = 6.6)
         by (unfold Math_max, Rmax; decide_tests).
  all: rewrite Hmax.
  all: assert (Hpow : Math_pow 10 (4 / 20) = Rpower 10 0.2)
         by (unfold Math_pow; decide_tests; f_equal; lra).
  all: rewrite Hpow.
  all: assert (Hclip : clamp (6.6 * 0.08) 0 0.4 = 0.4)
         by (apply clamp_above; lra).
  all: rewrite Hclip.
  all: assert (Hfix : toFixed 2 0.4 = 0.4)
         by (apply (toFixed_exact 2 40); simpl; lra).
  all: decide_tests.
  all: cbn [settings masterGain ceiling softClip compressor
         set_masterGain set_ceiling set_softClip set_compressor set_eq
         set_stereoWidth set_stereoBass set_dynamicBass set_saturation set_body].
  - replace (Rpower 10 0.2 - 1.0) with (Rpower 10 0.2 - 1) by lra.
    replace 0.0 with 0 by lra. reflexivity.
  - rewrite clamp_inside; lra.
  - rewrite clamp_inside; lra.
  - reflexivity.
  - exact Hfix.
  - f_equal; lra.
Qed.

Definition scenario_analysis : AnalysisResult :=
  {| rms := 0.1; crestFactor := 3; spectralFlux := 20;
     musicalKey := "A"; musicalScale := "minor"; bpm := 120;
     spectralBalance := [0.9; 0.9; 0.8; 0.8; 0.7; 0.7; 0.6; 0.6; 0.5; 0.5; 0.4; 0.4; 0.3; 0.3];
     lowEnergy := 0.5; midEnergy := 0.5 |}.

Lemma generateAiSettings_scenario_witness :
  estimatedLUFS scenario_analysis = -20.6 /\
  targetLUFS scenario_analysis = -10 /\
  gainNeeded scenario_analysis = 10.6 /\
  let s := settings (generateAiSettings scenario_analysis) in
  masterGain s = clamp (Rpower 10 0.2 - 1) 0 0.8 /\
  0.584 < masterGain s < 0.585 /\
  ceiling s = -0.3 /\
  softClip s = 0.4 /\
  compressor s = {| threshold := -16; ratio := 2.0; attack := 0.01; release := 0.15 |}.
Proof. apply (generateAiSettings_scenario scenario_analysis); reflexivity. Defined.

(** *** The spectral-matching loop *)

Lemma generateAiSettings_eq (analysis : AnalysisResult) :
  eq (settings (generateAiSettings analysis))
  = mapi (matchBand analysis) (eq DEFAULT_SETTINGS).
Proof.
  unfold generateAiSettings.
  repeat match goal with
    | |- context [Rgt_dec ?a ?b] => destruct (Rgt_dec a b)
    | |- context [Rlt_dec ?a ?b] => destruct (Rlt_dec a b)
    end; reflexivity.
Qed.

Lemma nth_error_mapi_from {A B : Type} (f : A -> nat -> B) (l : list A) :
  forall start i,
    nth_error (mapi_from start f l) i
    = option_map (fun x => f x (start + i)%nat) (nth_error l i).
Proof.
  induction l as [|x l IH]; intros start [|i]; simpl; try reflexivity.
  - now rewrite Nat.add_0_r.
  - rewrite IH. now replace (S start + i)%nat with (start + S i)%nat by lia.
Qed.

Lemma nth_error_mapi {A B : Type} (f : A -> nat -> B) (l : list A) (i : nat) :
  nth_error (mapi f l) i = option_map (fun x => f x i) (nth_error l i).
Proof. unfold mapi. now rewrite nth_error_mapi_from. Qed.









End AssistantFacts.

(** * Properties of the engine *)

Section EngineFacts.
Import Js Types Constants WebAudio Engine.
Local Open Scope R_scope.

(** *** The impulse response and its cache *)

Lemma impulseLoop_world (count i len : nat) (decay : R) (reverse : bool) (w : World) :
  let '(_, _, w') := impulseLoop count i len decay reverse w in
  next_id w' = next_id w /\ random w' = random w /\
  drawn w' = (drawn w + 2 * count)%nat.
Proof.
  revert i w. induction count as [|count IH]; intros i w; simpl.
  - repeat split. lia.
  - specialize (IH (S i)
      (mkWorld (next_id w) (random w) (S (S (drawn w))))).
    destruct (impulseLoop count (S i) len decay reverse
                (mkWorld (next_id w) (random w) (S (S (drawn w)))))
      as [[l r] w'].
    simpl in IH. destruct IH as [H1 [H2 H3]]. repeat split; try assumption. lia.
Qed.

Lemma synthesizeImpulse_fresh (ctx : BaseAudioContext) (duration : nat)
  (decay : R) (reverse : bool) (w : World) :
  let '(b, w') := synthesizeImpulse ctx duration decay reverse w in
  buf_id b = next_id w /\
  next_id w' = S (next_id w) /\
  random w' = random w /\
  numberOfChannels (buf_data b) = 2%nat /\
  length (buf_data b) = (ctx_sampleRate ctx * duration)%nat /\
  sampleRate (buf_data b) = ctx_sampleRate ctx.
Proof.
  unfold synthesizeImpulse, fresh_id.
  pose proof (impulseLoop_world (ctx_sampleRate ctx * duration) 0
                (ctx_sampleRate ctx * duration) decay reverse
                (mkWorld (S (next_id w)) (random w) (drawn w))) as H.
  destruct (impulseLoop (ctx_sampleRate ctx * duration) 0
              (ctx_sampleRate ctx * duration) decay reverse
              (mkWorld (S (next_id w)) (random w) (drawn w))) as [[l r] w'].
  simpl in *. destruct H as [H1 [H2 H3]]. repeat split; assumption.
Qed.

(** The request is served from the cache. *)
Definition cache_hit (ctx : BaseAudioContext) (decay : R) (e : AudioEngine) : Prop :=
  is_engine_context ctx e = true /\
  impulseResponseCache e <> None /\
  Math_abs (lastDecayValue e - decay) < 0.01.

Lemma createImpulseResponse_hit ctx duration decay reverse e w cached :
  is_engine_context ctx e = true ->
  impulseResponseCache e = Some cached ->
  Math_abs (lastDecayValue e - decay) < 0.01 ->
  createImpulseResponse ctx duration decay reverse e w = (cached, e, w).
Proof.
  intros Hctx Hc Hd. unfold createImpulseResponse. rewrite Hctx, Hc.
  destruct (Rlt_dec (Math_abs (lastDecayValue e - decay)) 0.01); [reflexivity|].
  contradiction.
Qed.

Lemma createImpulseResponse_miss ctx duration decay reverse e w :
  ~ cache_hit ctx decay e ->
  createImpulseResponse ctx duration decay reverse e w
  = let '(impulse, w') := synthesizeImpulse ctx duration decay reverse w in
    (impulse,
     if is_engine_context ctx e
     then set_impulseResponse (Some impulse) decay e else e,
     w').
Proof.
  intro Hmiss. unfold createImpulseResponse.
  destruct (is_engine_context ctx e) eqn:Hctx; [|reflexivity].
  destruct (impulseResponseCache e) as [cached|] eqn:Hc; [|reflexivity].
  destruct (Rlt_dec (Math_abs (lastDecayValue e - decay)) 0.01) as [Hd|Hd];
    [|reflexivity].
  exfalso. apply Hmiss. unfold cache_hit. rewrite Hc. repeat split; congruence.
Qed.

Lemma is_engine_context_offline (c : OfflineAudioContext) (e : AudioEngine) :
  is_engine_context (OfflineAudioContext_ref c) e = false.
Proof.
  unfold is_engine_context. destruct (audioContext e); reflexivity.
Qed.

Lemma createImpulseResponse_foreign ctx duration decay reverse e w :
  is_engine_context ctx e = false ->
  createImpulseResponse ctx duration decay reverse e w
  = (fst (synthesizeImpulse ctx duration decay reverse w), e,
     snd (synthesizeImpulse ctx duration decay reverse w)).
Proof.
  intro Hctx. rewrite createImpulseResponse_miss.
  - rewrite Hctx. now destruct (synthesizeImpulse ctx duration decay reverse w).
  - intros [H _]. congruence.
Qed.

Lemma renderOffline_engine (settings : MasteringSettings) (e : AudioEngine)
  (w : World) :
  engine_after (renderOffline settings e w) = e.
Proof.
  unfold renderOffline. destruct (audioBuffer e) as [buffer|]; [|reflexivity].
  cbv beta iota zeta delta [fresh_id].
  repeat match goal with
    | |- context [createNode ?n ?g] => destruct (createNode n g)
    | |- context [createNodes ?n ?g] => destruct (createNodes n g)
    end.
  rewrite createImpulseResponse_foreign by apply is_engine_context_offline.
  repeat match goal with
    | |- context [createNode ?n ?g] => destruct (createNode n g)
    end.
  destruct (chain _ _ _) as [head gc]. reflexivity.
Qed.

(** A call of [createImpulseResponse] for a context that is not the
    engine's live audio context leaves the engine as it was (so the cache
    fields [impulseResponseCache] and [lastDecayValue] keep their values),
    returns a buffer that depends on the world alone and not on the cache,
    and [renderOffline], which makes such a call for its offline context,
    returns with the engine unchanged. *)
Theorem createImpulseResponse_leaves_cache
  (ctx : BaseAudioContext) (duration : nat) (decay : R) (reverse : bool)
  (settings : MasteringSettings) (e : AudioEngine) (w : World) :
  is_engine_context ctx e = false ->
  (let '(_, e', _) := createImpulseResponse ctx duration decay reverse e w in
   e' = e /\
   impulseResponseCache e' = impulseResponseCache e /\
   lastDecayValue e' = lastDecayValue e) /\
  (forall cache last,
     createImpulseResponse ctx duration decay reverse
       (set_impulseResponse cache last e) w
     = (fst (fst (createImpulseResponse ctx duration decay reverse e w)),
        set_impulseResponse cache last e,
        snd (createImpulseResponse ctx duration decay reverse e w))) /\
  impulseResponseCache (engine_after (renderOffline settings e w))
  = impulseResponseCache e /\
  lastDecayValue (engine_after (renderOffline settings e w)) = lastDecayValue e.
Proof.
  intro Hctx. split; [|split].
  - rewrite createImpulseResponse_foreign by assumption. auto.
  - intros cache last.
    rewrite !createImpulseResponse_foreign by assumption. reflexivity.
  - rewrite renderOffline_engine. auto.
Qed.

(** A world and an engine with a file loaded, for the concrete cases. *)
Definition world0 : World := mkWorld 0 (fun n => / INR (n + 2)) 0.

Definition decoded0 : AudioBufferData :=
  mkAudioBufferData 2 4 44100 [[0.5; -0.5; 0.25; 0]; [0.5; 0.5; -0.25; 0]].

Definition engine1 : AudioEngine :=
  snd (fst (loadFile 44100 decoded0 newAudioEngine world0)).

Definition world1 : World := snd (loadFile 44100 decoded0 newAudioEngine world0).

Definition offline9 : BaseAudioContext := mkBaseAudioContext Offline 9 44100.

Definition live0 : BaseAudioContext := mkBaseAudioContext Realtime 0 44100.

Lemma createImpulseResponse_leaves_cache_witness :
  (let '(_, e', _) := createImpulseResponse offline9 3 2 false engine1 world1 in
   e' = engine1 /\
   impulseResponseCache e' = impulseResponseCache engine1 /\
   lastDecayValue e' = lastDecayValue engine1) /\
  (forall cache last,
     createImpulseResponse offline9 3 2 false
       (set_impulseResponse cache last engine1) world1
     = (fst (fst (createImpulseResponse offline9 3 2 false engine1 world1)),
        set_impulseResponse cache last engine1,
        snd (createImpulseResponse offline9 3 2 false engine1 world1))) /\
  impulseResponseCache (engine_after (renderOffline DEFAULT_SETTINGS engine1 world1))
  = impulseResponseCache engine1 /\
  lastDecayValue (engine_after (renderOffline DEFAULT_SETTINGS engine1 world1))
  = lastDecayValue engine1.
Proof.
  apply (createImpulseResponse_leaves_cache offline9 3 2 false DEFAULT_SETTINGS
           engine1 world1).
  reflexivity.
Defined.

Lemma is_engine_context_set_impulseResponse ctx b d e :
  is_engine_context ctx (set_impulseResponse b d e) = is_engine_context ctx e.
Proof. reflexivity. Qed.

(** The engine after a request on its own context: the returned buffer is
    the cached one. *)
Lemma createImpulseResponse_live_caches ctx duration decay reverse e w :
  is_engine_context ctx e = true ->
  let r := createImpulseResponse ctx duration decay reverse e w in
  impulseResponseCache (snd (fst r)) = Some (fst (fst r)) /\
  is_engine_context ctx (snd (fst r)) = true /\
  (~ cache_hit ctx decay e -> lastDecayValue (snd (fst r)) = decay).
Proof.
  intros Hctx r. subst r. unfold createImpulseResponse. rewrite Hctx.
  destruct (impulseResponseCache e) as [cached|] eqn:Hc.
  - destruct (Rlt_dec (Math_abs (lastDecayValue e - decay)) 0.01) as [Hd|Hd].
    + simpl. repeat split; try assumption.
      intro Hmiss. exfalso. apply Hmiss. unfold cache_hit. rewrite Hc.
      repeat split; congruence.
    + destruct (synthesizeImpulse ctx duration decay reverse w) as [b w'].
      simpl. repeat split. exact Hctx.
  - destruct (synthesizeImpulse ctx duration decay reverse w) as [b w'].
    simpl. repeat split. exact Hctx.
Qed.

(** The cache of impulse responses.  After any request on the engine's live context
    the cache holds the returned buffer; if that request synthesized it, the
    decay stored with the cache is the requested one.  A following request on
    the live context returns the identical buffer object, and changes nothing,
    when its decay is less than 0.01 away from the stored decay; otherwise it
    returns a newly synthesized buffer (a new identity) and caches it.  A
    request on any other context returns a newly synthesized buffer, distinct
    from the one returned before, and leaves the engine alone. *)
Theorem createImpulseResponse_cache_behaviour
  (ctx : BaseAudioContext) (duration : nat) (d1 d2 : R) (reverse : bool)
  (e : AudioEngine) (w : World) :
  let r1 := createImpulseResponse ctx duration d1 reverse e w in
  let b1 := fst (fst r1) in
  let e1 := snd (fst r1) in
  let w1 := snd r1 in
  let r2 := createImpulseResponse ctx duration d2 reverse e1 w1 in
  let b2 := fst (fst r2) in
  let e2 := snd (fst r2) in
  let w2 := snd r2 in
  (is_engine_context ctx e = true ->
     impulseResponseCache e1 = Some b1 /\
     (~ cache_hit ctx d1 e -> lastDecayValue e1 = d1) /\
     (Math_abs (lastDecayValue e1 - d2) < 0.01 ->
        b2 = b1 /\ e2 = e1 /\ w2 = w1) /\
     (~ Math_abs (lastDecayValue e1 - d2) < 0.01 ->
        (b2, w2) = synthesizeImpulse ctx duration d2 reverse w1 /\
        buf_id b2 = next_id w1 /\
        impulseResponseCache e2 = Some b2 /\
        lastDecayValue e2 = d2)) /\
  (is_engine_context ctx e = false ->
     (b2, w2) = synthesizeImpulse ctx duration d2 reverse w1 /\
     buf_id b2 = next_id w1 /\
     buf_id b1 <> buf_id b2 /\
     e2 = e).
Proof.
  intros r1 b1 e1 w1 r2 b2 e2 w2. split; intro Hctx.
  - destruct (createImpulseResponse_live_caches ctx duration d1 reverse e w Hctx)
      as [Hc1 [Hctx1 Hd1]].
    fold r1 in Hc1, Hctx1, Hd1. fold e1 in Hc1, Hctx1, Hd1. fold b1 in Hc1.
    split; [exact Hc1|]. split; [exact Hd1|]. split.
    + intro Hd. subst b2 e2 w2 r2.
      rewrite (createImpulseResponse_hit ctx duration d2 reverse e1 w1 b1 Hctx1 Hc1 Hd).
      auto.
    + intro Hd. subst b2 e2 w2 r2.
      rewrite createImpulseResponse_miss by (intros [_ [_ H]]; contradiction).
      rewrite Hctx1.
      pose proof (synthesizeImpulse_fresh ctx duration d2 reverse w1) as Hf.
      destruct (synthesizeImpulse ctx duration d2 reverse w1) as [b w'].
      simpl. destruct Hf as [Hid _]. auto.
  - assert (He1 : e1 = e /\ (b1, w1) = synthesizeImpulse ctx duration d1 reverse w).
    { subst e1 b1 w1 r1. rewrite createImpulseResponse_foreign by assumption.
      simpl. split; [reflexivity|]. now destruct (synthesizeImpulse _ _ _ _ _). }
    destruct He1 as [He1 Hb1].
    subst b2 e2 w2 r2. rewrite He1.
    rewrite createImpulseResponse_foreign by assumption. simpl.
    pose proof (synthesizeImpulse_fresh ctx duration d1 reverse w) as Hf1.
    rewrite <- Hb1 in Hf1.
    pose proof (synthesizeImpulse_fresh ctx duration d2 reverse w1) as Hf2.
    destruct (synthesizeImpulse ctx duration d2 reverse w1) as [b w'].
    simpl. destruct Hf1 as [Hi1 [Hn1 _]]. destruct Hf2 as [Hi2 _].
    repeat split; try assumption. lia.
Qed.

Lemma engine1_no_cache (ctx : BaseAudioContext) (decay : R) :
  ~ cache_hit ctx decay engine1.
Proof. intros [_ [H _]]. now apply H. Qed.

Lemma Math_abs_small (a b : R) : -0.01 < a - b < 0.01 -> Math_abs (a - b) < 0.01.
Proof. intro H. unfold Math_abs. apply Rabs_def1; lra. Qed.

Lemma Math_abs_large (a b : R) : 0.01 <= b - a -> ~ Math_abs (a - b) < 0.01.
Proof.
  intros H Habs. unfold Math_abs in Habs. apply Rabs_def2 in Habs. lra.
Qed.

Lemma engine1_live : is_engine_context live0 engine1 = true.
Proof. reflexivity. Qed.

Lemma engine1_offline : is_engine_context offline9 engine1 = false.
Proof. reflexivity. Qed.

Lemma createImpulseResponse_cache_behaviour_witness :
  let r1 := createImpulseResponse live0 3 2 false engine1 world1 in
  let r2 := createImpulseResponse live0 3 2.005 false (snd (fst r1)) (snd r1) in
  let r3 := createImpulseResponse offline9 3 2 false engine1 world1 in
  let r4 := createImpulseResponse offline9 3 2 false (snd (fst r3)) (snd r3) in
  fst (fst r2) = fst (fst r1) /\ buf_id (fst (fst r3)) <> buf_id (fst (fst r4)).
Proof.
  split.
  - refine (proj1 (proj1 (proj2 (proj2 (proj1
             (createImpulseResponse_cache_behaviour
                live0 3 2 2.005 false engine1 world1) engine1_live))) _)).
    rewrite (proj1 (proj2 (proj1 (createImpulseResponse_cache_behaviour
               live0 3 2 2.005 false engine1 world1) engine1_live))
               (engine1_no_cache live0 2)).
    apply Math_abs_small. lra.
  - exact (proj1 (proj2 (proj2 (proj2 (createImpulseResponse_cache_behaviour
             offline9 3 2 2 false engine1 world1) engine1_offline)))).
Defined.

(** *** What the methods do without a buffer, and what a render consumes *)

Lemma synthesizeImpulse_drawn (ctx : BaseAudioContext) (duration : nat)
  (decay : R) (reverse : bool) (w : World) :
  drawn (snd (synthesizeImpulse ctx duration decay reverse w))
  = (drawn w + 2 * (ctx_sampleRate ctx * duration))%nat.
Proof.
  unfold synthesizeImpulse, fresh_id.
  pose proof (impulseLoop_world (ctx_sampleRate ctx * duration) 0
                (ctx_sampleRate ctx * duration) decay reverse
                (mkWorld (S (next_id w)) (random w) (drawn w))) as H.
  destruct (impulseLoop (ctx_sampleRate ctx * duration) 0
              (ctx_sampleRate ctx * duration) decay reverse
              (mkWorld (S (next_id w)) (random w) (drawn w))) as [[l r] w'].
  simpl in *. tauto.
Qed.

(** The shape of a successful [renderOffline]. *)
Lemma renderOffline_run (settings : MasteringSettings) (e : AudioEngine)
  (w : World) (buffer : AudioBuffer) :
  audioBuffer e = Some buffer ->
  exists g,
    renderOffline settings e w
    = mkRun (Return (startRendering
                       (mkRenderJob 2 (length (buf_data buffer))
                                    (sampleRate (buf_data buffer)) g)))
            e
            (snd (synthesizeImpulse
                    (mkBaseAudioContext Offline (next_id w)
                                        (sampleRate (buf_data buffer)))
                    3 (decay (reverb settings)) false
                    (mkWorld (S (next_id w)) (random w) (drawn w)))).
Proof.
  intro Hb. unfold renderOffline. rewrite Hb.
  cbv beta iota zeta delta [fresh_id].
  repeat match goal with
    | |- context [createNode ?n ?g] => destruct (createNode n g)
    | |- context [createNodes ?n ?g] => destruct (createNodes n g)
    end.
  rewrite createImpulseResponse_foreign by apply is_engine_context_offline.
  repeat match goal with
    | |- context [createNode ?n ?g] => destruct (createNode n g)
    end.
  destruct (chain _ _ _) as [head gc].
  eexists. reflexivity.
Qed.

(** Without a loaded buffer [renderOffline] throws the error "No Audio",
    while [play] and [setupGraph] return normally; none of them changes the
    engine or the world, and [getDuration] is 0. *)
Theorem no_buffer_loaded (offset : R) (settings : MasteringSettings)
  (e : AudioEngine) (w : World) :
  audioBuffer e = None ->
  renderOffline settings e w = mkRun (Throw "No Audio") e w /\
  play offset settings e w = mkRun (Return tt) e w /\
  setupGraph settings e w = (e, w) /\
  getDuration e = 0.
Proof.
  intro Hb. unfold renderOffline, play, setupGraph, getDuration. rewrite Hb.
  destruct (audioContext e); repeat split.
Qed.

Lemma no_buffer_loaded_witness :
  renderOffline DEFAULT_SETTINGS newAudioEngine world0
  = mkRun (Throw "No Audio") newAudioEngine world0 /\
  play 0 DEFAULT_SETTINGS newAudioEngine world0
  = mkRun (Return tt) newAudioEngine world0 /\
  setupGraph DEFAULT_SETTINGS newAudioEngine world0 = (newAudioEngine, world0) /\
  getDuration newAudioEngine = 0.
Proof.
  exact (no_buffer_loaded 0 DEFAULT_SETTINGS newAudioEngine world0 eq_refl).
Defined.

(** With a buffer loaded [renderOffline] returns a rendered buffer for a
    2-channel job of the loaded buffer's length and sample rate, leaves the
    engine as it was, allocates two object identities (the offline context
    and the impulse buffer) and draws 2 * 3 * sampleRate random numbers. *)
Theorem renderOffline_returns (settings : MasteringSettings) (e : AudioEngine)
  (w : World) (buffer : AudioBuffer) :
  audioBuffer e = Some buffer ->
  let r := renderOffline settings e w in
  (exists job,
     outcome r = Return (startRendering job) /\
     job_numberOfChannels job = 2%nat /\
     job_length job = length (buf_data buffer) /\
     job_sampleRate job = sampleRate (buf_data buffer)) /\
  engine_after r = e /\
  next_id (world_after r) = (next_id w + 2)%nat /\
  random (world_after r) = random w /\
  drawn (world_after r)
  = (drawn w + 2 * (sampleRate (buf_data buffer) * 3))%nat.
Proof.
  intros Hb r. subst r.
  destruct (renderOffline_run settings e w buffer Hb) as [g Hr]. rewrite Hr.
  cbn [outcome engine_after world_after].
  split; [eexists; repeat split|]. split; [reflexivity|].
  set (ctx := mkBaseAudioContext Offline (next_id w) (sampleRate (buf_data buffer))).
  set (w1 := mkWorld (S (next_id w)) (random w) (drawn w)).
  pose proof (synthesizeImpulse_fresh ctx 3 (decay (reverb settings)) false w1) as Hf.
  pose proof (synthesizeImpulse_drawn ctx 3 (decay (reverb settings)) false w1) as Hd.
  destruct (synthesizeImpulse ctx 3 (decay (reverb settings)) false w1) as [b w'].
  cbn [snd] in *. destruct Hf as [_ [Hn [Hrand _]]]. subst w1 ctx. simpl in *.
  repeat split; [lia | assumption | assumption].
Qed.

Lemma engine1_buffer : audioBuffer engine1 = Some (mkAudioBuffer 1 decoded0).
Proof. reflexivity. Qed.

Lemma renderOffline_returns_witness :
  let r := renderOffline DEFAULT_SETTINGS engine1 world1 in
  (exists job,
     outcome r = Return (startRendering job) /\
     job_numberOfChannels job = 2%nat /\
     job_length job = length (buf_data (mkAudioBuffer 1 decoded0)) /\
     job_sampleRate job = sampleRate (buf_data (mkAudioBuffer 1 decoded0))) /\
  engine_after r = engine1 /\
  next_id (world_after r) = (next_id world1 + 2)%nat /\
  random (world_after r) = random world1 /\
  drawn (world_after r)
  = (drawn world1 + 2 * (sampleRate (buf_data (mkAudioBuffer 1 decoded0)) * 3))%nat.
Proof.
  exact (renderOffline_returns DEFAULT_SETTINGS engine1 world1
           (mkAudioBuffer 1 decoded0) engine1_buffer).
Defined.

(** *** What a render depends on *)

Lemma impulseLoop_data (count : nat) (len : nat) (decay : R) (reverse : bool) :
  forall i w w',
    random w = random w' -> drawn w = drawn w' ->
    fst (impulseLoop count i len decay reverse w)
    = fst (impulseLoop count i len decay reverse w').
Proof.
  induction count as [|count IH]; intros i w w' Hr Hd; [reflexivity|].
  cbn [impulseLoop]. unfold Math_random. cbn [random drawn next_id].
  specialize (IH (S i) (mkWorld (next_id w) (random w) (S (S (drawn w))))
                 (mkWorld (next_id w') (random w') (S (S (drawn w'))))).
  cbn [random drawn] in IH. specialize (IH Hr (f_equal (fun n => S (S n)) Hd)).
  destruct (impulseLoop count (S i) len decay reverse
              (mkWorld (next_id w) (random w) (S (S (drawn w))))) as [[l r] w1].
  destruct (impulseLoop count (S i) len decay reverse
              (mkWorld (next_id w') (random w') (S (S (drawn w'))))) as [[l' r'] w1'].
  cbn [fst] in *. injection IH as -> ->. rewrite Hr, Hd. reflexivity.
Qed.

Lemma synthesizeImpulse_data (ctx ctx' : BaseAudioContext) (duration : nat)
  (decay : R) (reverse : bool) (w w' : World) :
  ctx_sampleRate ctx = ctx_sampleRate ctx' ->
  random w = random w' -> drawn w = drawn w' ->
  buf_data (fst (synthesizeImpulse ctx duration decay reverse w))
  = buf_data (fst (synthesizeImpulse ctx' duration decay reverse w')).
Proof.
  intros Hs Hr Hd. unfold synthesizeImpulse, fresh_id. rewrite <- Hs.
  pose proof (impulseLoop_data (ctx_sampleRate ctx * duration)
                (ctx_sampleRate ctx * duration) decay reverse 0
                (mkWorld (S (next_id w)) (random w) (drawn w))
                (mkWorld (S (next_id w')) (random w') (drawn w')) Hr Hd) as H.
  destruct (impulseLoop _ _ _ _ _ (mkWorld (S (next_id w)) _ _)) as [[l r] w1].
  destruct (impulseLoop _ _ _ _ _ (mkWorld (S (next_id w')) _ _)) as [[l' r'] w1'].
  cbn [fst] in H. injection H as -> ->. reflexivity.
Qed.

(** The buffer [renderOffline] returns is the rendering of a job that is
    determined by the settings, the samples of the loaded buffer and the
    random numbers drawn for the impulse response.  The identities of the
    objects involved, the engine's live context, nodes and cache, and its
    transport state have no influence. *)
Theorem renderOffline_depends_on (settings : MasteringSettings)
  (e e' : AudioEngine) (w w' : World) (buffer buffer' : AudioBuffer) :
  audioBuffer e = Some buffer ->
  audioBuffer e' = Some buffer' ->
  buf_data buffer = buf_data buffer' ->
  random w = random w' ->
  drawn w = drawn w' ->
  outcome (renderOffline settings e w) = outcome (renderOffline settings e' w').
Proof.
  intros Hb Hb' Hdata Hr Hd. unfold renderOffline. rewrite Hb, Hb', <- Hdata.
  cbv beta iota zeta delta [fresh_id].
  cbn [oc_graph oc_numberOfChannels oc_length oc_sampleRate].
  rewrite !createImpulseResponse_foreign by apply is_engine_context_offline.
  rewrite (synthesizeImpulse_data
             (OfflineAudioContext_ref
                (mkOfflineAudioContext (next_id w') 2 (length (buf_data buffer))
                   (sampleRate (buf_data buffer)) emptyGraph))
             (OfflineAudioContext_ref
                (mkOfflineAudioContext (next_id w) 2 (length (buf_data buffer))
                   (sampleRate (buf_data buffer)) emptyGraph))
             3 (decay (reverb settings)) false
             (mkWorld (S (next_id w')) (random w') (drawn w'))
             (mkWorld (S (next_id w)) (random w) (drawn w)))
    by (cbn; congruence).
  repeat match goal with
    | |- context [createNode ?n ?g] => destruct (createNode n g)
    | |- context [createNodes ?n ?g] => destruct (createNodes n g)
    end.
  destruct (chain _ _ _) as [head gc]. reflexivity.
Qed.

(** *** The synthesized impulse *)

Lemma Math_pow_unit (x y : R) : 0 <= x <= 1 -> 0 <= y -> 0 <= Math_pow x y <= 1.
Proof.
  intros [Hx0 Hx1] Hy. unfold Math_pow.
  destruct (Req_dec_T x 0) as [_|Hx]; [destruct (Req_dec_T y 0); lra|].
  unfold Rpower. split; [left; apply exp_pos|].
  rewrite <- exp_0.
  destruct (Rle_lt_or_eq_dec _ _ Hx1) as [Hlt| ->].
  - assert (Hln : ln x < 0) by (rewrite <- ln_1; apply ln_increasing; lra).
    destruct (Rle_lt_or_eq_dec _ _ Hy) as [Hy0| <-].
    + left. apply exp_increasing. nra.
    + right. f_equal. ring.
  - rewrite ln_1. right. f_equal. ring.
Qed.

Lemma envelope_unit (n len : nat) :
  (n <= len)%nat -> (0 < len)%nat -> 0 <= 1 - INR n / INR len <= 1.
Proof.
  intros Hn Hl.
  assert (H0 : 0 < INR len) by (apply lt_0_INR; exact Hl).
  assert (H1 : 0 <= INR n) by apply pos_INR.
  assert (H2 : INR n <= INR len) by (apply le_INR; exact Hn).
  assert (H3 : 0 <= INR n / INR len <= 1).
  { split.
    - apply Rmult_le_pos; [exact H1 | left; apply Rinv_0_lt_compat; exact H0].
    - apply (Rmult_le_reg_r (INR len)); [exact H0|].
      unfold Rdiv. rewrite Rmult_assoc, Rinv_l by lra. lra. }
  lra.
Qed.

Lemma impulseLoop_bounds (len : nat) (decay : R) (reverse : bool) :
  0 <= decay ->
  forall count i w,
    (i + count <= len)%nat ->
    (forall n, 0 <= random w n < 1) ->
    let '(l, r, _) := impulseLoop count i len decay reverse w in
    List.length l = count /\ List.length r = count /\
    Forall (fun x => -1 <= x <= 1) l /\ Forall (fun x => -1 <= x <= 1) r.
Proof.
  intros Hdecay. induction count as [|count IH]; intros i w Hi Hrand.
  - simpl. repeat split; constructor.
  - cbn [impulseLoop]. unfold Math_random. cbn [random drawn next_id].
    specialize (IH (S i) (mkWorld (next_id w) (random w) (S (S (drawn w))))).
    cbn [random] in IH. specialize (IH ltac:(lia) Hrand).
    destruct (impulseLoop count (S i) len decay reverse
                (mkWorld (next_id w) (random w) (S (S (drawn w))))) as [[l r] w'].
    destruct IH as [Hl [Hr [Fl Fr]]].
    set (n := if reverse then (len - i)%nat else i).
    assert (Hn : (n <= len)%nat) by (unfold n; destruct reverse; lia).
    pose proof (Math_pow_unit _ decay (envelope_unit n len Hn ltac:(lia)) Hdecay)
      as [He0 He1].
    set (env := Math_pow (1 - INR n / INR len) decay) in *.
    pose proof (Hrand (drawn w)) as [Ha0 Ha1].
    pose proof (Hrand (S (drawn w))) as [Hb0 Hb1].
    repeat split; try (simpl; lia).
    + constructor; [nra | exact Fl].
    + constructor; [nra | exact Fr].
Qed.

(** Whenever [Math.random()] returns numbers of [0,1) and the decay is not
    negative, a synthesized impulse has two channels of [sampleRate *
    duration] samples each, and every sample lies in [-1,1]. *)
Theorem synthesizeImpulse_bounded (ctx : BaseAudioContext) (duration : nat)
  (decay : R) (reverse : bool) (w : World) :
  0 <= decay ->
  (forall n, 0 <= random w n < 1) ->
  exists l r,
    buf_data (fst (synthesizeImpulse ctx duration decay reverse w))
    = mkAudioBufferData 2 (ctx_sampleRate ctx * duration) (ctx_sampleRate ctx) [l; r] /\
    List.length l = (ctx_sampleRate ctx * duration)%nat /\
    List.length r = (ctx_sampleRate ctx * duration)%nat /\
    Forall (fun x => -1 <= x <= 1) l /\
    Forall (fun x => -1 <= x <= 1) r.
Proof.
  intros Hdecay Hrand. unfold synthesizeImpulse, fresh_id.
  pose proof (impulseLoop_bounds (ctx_sampleRate ctx * duration) decay reverse
                Hdecay (ctx_sampleRate ctx * duration) 0
                (mkWorld (S (next_id w)) (random w) (drawn w))
                ltac:(lia) Hrand) as H.
  destruct (impulseLoop _ _ _ _ _ _) as [[l r] w'].
  exists l, r. cbn [fst buf_data]. tauto.
Qed.

Lemma world0_random (n : nat) : 0 <= random world0 n < 1.
Proof.
  unfold world0. cbn [random].
  assert (H : 2 <= INR (n + 2)) by (rewrite plus_INR; pose proof (pos_INR n); simpl; lra).
  split.
  - left. apply Rinv_0_lt_compat. lra.
  - rewrite <- Rinv_1. apply Rinv_lt_contravar; lra.
Qed.

Lemma synthesizeImpulse_bounded_witness :
  exists l r,
    buf_data (fst (synthesizeImpulse offline9 3 2 false world0))
    = mkAudioBufferData 2 (ctx_sampleRate offline9 * 3) (ctx_sampleRate offline9) [l; r] /\
    List.length l = (ctx_sampleRate offline9 * 3)%nat /\
    List.length r = (ctx_sampleRate offline9 * 3)%nat /\
    Forall (fun x => -1 <= x <= 1) l /\
    Forall (fun x => -1 <= x <= 1) r.
Proof.
  refine (synthesizeImpulse_bounded offline9 3 2 false world0 _ world0_random).
  lra.
Defined.

(** *** The EQ stage list *)

Definition by_frequency (a b : EQBand) : Prop := frequency a <= frequency b.

Lemma insertSorted_perm (x : EQBand) (l : list EQBand) :
  Permutation (insertSorted (fun a b => frequency a - frequency b) x l) (x :: l).
Proof.
  induction l as [|y l IH]; simpl; [reflexivity|].
  destruct (Rle_dec (frequency x - frequency y) 0); [reflexivity|].
  apply perm_trans with (y :: x :: l); [now apply perm_skip | apply perm_swap].
Qed.

Lemma insertSorted_sorted (x : EQBand) (l : list EQBand) :
  Sorted by_frequency l ->
  Sorted by_frequency (insertSorted (fun a b => frequency a - frequency b) x l).
Proof.
  induction 1 as [|y l Hs IH Hd]; simpl.
  - repeat constructor.
  - destruct (Rle_dec (frequency x - frequency y) 0) as [Hle|Hgt].
    + constructor; [constructor; assumption|]. constructor. unfold by_frequency. lra.
    + constructor; [exact IH|].
      destruct l as [|z l]; simpl.
      * constructor. unfold by_frequency. lra.
      * destruct (Rle_dec (frequency x - frequency z) 0).
        -- constructor. unfold by_frequency. lra.
        -- constructor. now inversion Hd.
Qed.

Lemma by_frequency_trans : Relations_1.Transitive by_frequency.
Proof. intros a b c. unfold by_frequency. lra. Qed.

(** The band list both graph builders walk,
    [[...settings.eq].sort((a, b) => a.frequency - b.frequency)], holds the
    bands of [settings.eq] (each as often as there), in ascending order of
    frequency: every band's frequency is at most that of every later band. *)
Theorem sortEq_sorted_permutation (bands : list EQBand) :
  Permutation (sortEq bands) bands /\
  StronglySorted by_frequency (sortEq bands) /\
  List.length (sortEq bands) = List.length bands.
Proof.
  assert (Hp : Permutation (sortEq bands) bands).
  { induction bands as [|x l IH]; [reflexivity|].
    unfold sortEq, Array_sort in *. cbn [fold_right].
    eapply perm_trans; [apply insertSorted_perm | now apply perm_skip]. }
  split; [exact Hp|]. split; [|now apply Permutation_length].
  apply Sorted_StronglySorted; [exact by_frequency_trans|].
  clear Hp. induction bands as [|x l IH]; [constructor|].
  unfold sortEq, Array_sort in *. cbn [fold_right].
  apply insertSorted_sorted. exact IH.
Qed.

Definition same_frequency (a b : EQBand) : Prop := frequency a = frequency b.

Lemma insertSorted_same_frequency (x x' : EQBand) (l l' : list EQBand) :
  same_frequency x x' -> Forall2 same_frequency l l' ->
  Forall2 same_frequency
    (insertSorted (fun a b => frequency a - frequency b) x l)
    (insertSorted (fun a b => frequency a - frequency b) x' l').
Proof.
  intros Hx Hl. induction Hl as [|y y' l l' Hy Hl IH]; simpl.
  - repeat constructor. exact Hx.
  - unfold same_frequency in Hx, Hy. rewrite Hx, Hy.
    destruct (Rle_dec (frequency x' - frequency y') 0).
    + repeat constructor; assumption.
    + constructor; assumption.
Qed.

Lemma sortEq_same_frequency (l l' : list EQBand) :
  Forall2 same_frequency l l' -> Forall2 same_frequency (sortEq l) (sortEq l').
Proof.
  induction 1 as [|x x' l l' Hx Hl IH]; [constructor|].
  unfold sortEq, Array_sort in *. cbn [fold_right].
  now apply insertSorted_same_frequency.
Qed.

Lemma Forall2_same_frequency_map (l l' : list EQBand) :
  Forall2 same_frequency l l' -> map frequency l = map frequency l'.
Proof. induction 1; simpl; [reflexivity|]. unfold same_frequency in *. congruence. Qed.

Lemma mapi_from_Forall2 {A B : Type} (P : A -> B -> Prop) (f : A -> nat -> B)
  (l : list A) :
  (forall x i, P x (f x i)) -> forall start, Forall2 P l (Js.mapi_from start f l).
Proof.
  intros Hf. induction l as [|x l IH]; intro start; simpl; constructor; auto.
Qed.

(** Moving an EQ slider: [handleEQChange(index, gain)] replaces the gain of
    the band at [index] and nothing else.  The band count and every frequency
    stay, an index outside the list changes nothing, and the frequency order
    the graph builders derive from the new settings is the old one, so the
    assignment of shelf and peaking filters to frequencies is unaffected. *)
Theorem handleEQChange_spec (index : nat) (g : R) (prev : MasteringSettings) :
  let next := App.handleEQChange index g prev in
  List.length (eq next) = List.length (eq prev) /\
  map frequency (eq next) = map frequency (eq prev) /\
  (forall i band, nth_error (eq prev) i = Some band ->
     nth_error (eq next) i
     = Some (if (i =? index)%nat
             then {| frequency := frequency band; gain := g |} else band)) /\
  ((List.length (eq prev) <= index)%nat -> eq next = eq prev) /\
  map frequency (sortEq (eq next)) = map frequency (sortEq (eq prev)) /\
  set_eq (eq prev) next = prev.
Proof.
  intro next. subst next. unfold App.handleEQChange. destruct prev as [mg bands c r sa ai bo sw ce sb db sc].
  cbn [eq set_eq masterGain compressor reverb saturation air body stereoWidth
       ceiling stereoBass dynamicBass softClip].
  set (f := fun (band : EQBand) (i : nat) =>
              if (i =? index)%nat
              then {| frequency := frequency band; gain := g |} else band).
  assert (HF : Forall2 same_frequency (mapi f bands) bands).
  { apply Forall2_flip. unfold mapi.
    apply (mapi_from_Forall2 (fun a b => same_frequency b a)).
    intros x i. unfold f, same_frequency. destruct (i =? index)%nat; reflexivity. }
  repeat split.
  - exact (Forall2_length HF).
  - now apply Forall2_same_frequency_map.
  - intros i band Hb. rewrite nth_error_mapi, Hb. reflexivity.
  - intro Hout. unfold mapi.
    assert (H : forall start l, (forall j, (j < List.length l)%nat -> (start + j <> index)%nat) ->
                mapi_from start f l = l).
    { intros start l. revert start. induction l as [|x l IH]; intros start Hj; simpl;
        [reflexivity|].
      f_equal.
      - unfold f. specialize (Hj 0%nat ltac:(simpl; lia)).
        destruct (Nat.eqb_spec start index); [lia | reflexivity].
      - apply IH. intros j Hjl. specialize (Hj (S j) ltac:(simpl; lia)). lia. }
    apply H. intros j Hj. simpl. lia.
  - apply Forall2_same_frequency_map, sortEq_same_frequency, HF.
Qed.

Lemma handleEQChange_spec_witness :
  eq (App.handleEQChange 20 3 DEFAULT_SETTINGS) = eq DEFAULT_SETTINGS.
Proof.
  refine (proj1 (proj2 (proj2 (proj2 (handleEQChange_spec 20 3 DEFAULT_SETTINGS)))) _).
  simpl. lia.
Defined.

(** *** updateSettings *)

(** A node with its scheduled automation and its curve table left out: the
    kind of the node, its filter type and the current values of its
    parameters. *)
Definition settled (p : AudioParam) : AudioParam := param (value p).

Definition static (n : AudioNode) : AudioNode :=
  match n with
  | GainNode p => GainNode (settled p)
  | BiquadFilterNode t f q g => BiquadFilterNode t (settled f) (settled q) (settled g)
  | WaveShaperNode _ o => WaveShaperNode None o
  | DynamicsCompressorNode t k r a rl =>
      DynamicsCompressorNode (settled t) (settled k) (settled r) (settled a) (settled rl)
  | other => other
  end.

Definition same_statics (g0 g : Graph) : Prop :=
  connections g = connections g0 /\
  map static (nodes g) = map static (nodes g0).

Lemma map_update {A B : Type} (h : A -> B) (f : A -> A) (l : list A) :
  (forall x, h (f x) = h x) -> forall i, map h (update i f l) = map h l.
Proof.
  intros Hf. induction l as [|x l IH]; intros [|i]; simpl; try reflexivity.
  - now rewrite Hf.
  - now rewrite IH.
Qed.

Lemma same_statics_updateNode g0 id f g :
  (forall n, static (f n) = static n) ->
  same_statics g0 g -> same_statics g0 (updateNode id f g).
Proof.
  intros Hf [Hc Hn]. split; [exact Hc|].
  unfold updateNode. cbn [nodes]. now rewrite map_update.
Qed.

Lemma same_statics_whenNode g0 node body g :
  (forall n g', same_statics g0 g' -> same_statics g0 (body n g')) ->
  same_statics g0 g -> same_statics g0 (whenNode node body g).
Proof. intros Hb Hg. destruct node; simpl; auto. Qed.

Lemma same_statics_fold {A : Type} g0 (body : Graph -> A -> Graph) (l : list A) :
  (forall g' a, same_statics g0 g' -> same_statics g0 (body g' a)) ->
  forall g, same_statics g0 g -> same_statics g0 (fold_left body l g).
Proof. intros Hb. induction l as [|a l IH]; intros g Hg; simpl; auto. Qed.

Lemma static_on_gain t now n : static (on_gain (rampTo t now) n) = static n.
Proof. destruct n; reflexivity. Qed.

Lemma static_on_threshold t now n : static (on_threshold (rampTo t now) n) = static n.
Proof. destruct n; reflexivity. Qed.

Lemma static_on_ratio t now n : static (on_ratio (rampTo t now) n) = static n.
Proof. destruct n; reflexivity. Qed.

Lemma static_on_attack t now n : static (on_attack (rampTo t now) n) = static n.
Proof. destruct n; reflexivity. Qed.

Lemma static_on_release t now n : static (on_release (rampTo t now) n) = static n.
Proof. destruct n; reflexivity. Qed.

Lemma static_set_curve c n : static (set_curve c n) = static n.
Proof. destruct n; reflexivity. Qed.

(** A live settings update never steps a parameter and never rewires: after
    [updateSettings] the context has the same nodes, of the same kinds and
    filter types, with the same current parameter values, and the same
    connections; only scheduled ramps and the two curve tables change, and no
    other field of the engine is written. *)
Theorem updateSettings_keeps_values (settings : MasteringSettings)
  (e : AudioEngine) (c : AudioContext) :
  audioContext e = Some c ->
  exists g,
    updateSettings settings e = set_audioContext (Some (with_graph g c)) e /\
    connections g = connections (ac_graph c) /\
    map static (nodes g) = map static (nodes (ac_graph c)).
Proof.
  intro Hc. unfold updateSettings. rewrite Hc. eexists. split; [reflexivity|].
  match goal with
  | |- connections ?G = _ /\ _ => change (same_statics (ac_graph c) G)
  end.
  cbv zeta.
  assert (H0 : same_statics (ac_graph c) (ac_graph c)) by (split; reflexivity).
  repeat
    first
      [ exact H0
      | apply same_statics_updateNode;
        [ first [ apply static_on_gain | apply static_on_threshold
                | apply static_on_ratio | apply static_on_attack
                | apply static_on_release | apply static_set_curve ] | ]
      | apply same_statics_whenNode; [intros ? ? ?|]
      | apply same_statics_fold; [intros ? [? ?] ?|]
      | assumption
      | match goal with
        | |- same_statics _ (match ?x with Some _ => _ | None => _ end) =>
            destruct x
        end ].
Qed.

Lemma engine1_context :
  audioContext engine1 = Some (mkAudioContext 0 44100 0 running emptyGraph).
Proof. reflexivity. Qed.

(** *** Transport *)

Lemma createImpulseResponse_engine ctx duration decay reverse e w :
  exists cache last,
    snd (fst (createImpulseResponse ctx duration decay reverse e w))
    = set_impulseResponse cache last e.
Proof.
  unfold createImpulseResponse.
  destruct (is_engine_context ctx e).
  - destruct (impulseResponseCache e) as [cached|] eqn:Hc.
    + destruct (Rlt_dec (Math_abs (lastDecayValue e - decay)) 0.01).
      * exists (impulseResponseCache e), (lastDecayValue e). now destruct e.
      * destruct (synthesizeImpulse ctx duration decay reverse w) as [b w'].
        eexists _, _. reflexivity.
    + destruct (synthesizeImpulse ctx duration decay reverse w) as [b w'].
      eexists _, _. reflexivity.
  - destruct (synthesizeImpulse ctx duration decay reverse w) as [b w'].
    exists (impulseResponseCache e), (lastDecayValue e). now destruct e.
Qed.

(** The engine [setupGraph] leaves when a context and a buffer exist. *)
Definition graph_ready (e0 e : AudioEngine) (c0 : AudioContext) : Prop :=
  (exists g, audioContext e = Some (with_graph g c0)) /\
  audioBuffer e = audioBuffer e0 /\
  sourceNode e = sourceNode e0 /\
  startTime e = startTime e0 /\ pausedAt e = pausedAt e0 /\
  isPlaying e = isPlaying e0 /\
  gainNode e <> None /\ compressorNode e <> None /\ reverbNode e <> None /\
  reverbToneNode e <> None /\ wetGainNode e <> None /\ dryGainNode e <> None /\
  analyzerNode e <> None /\ saturationNode e <> None /\ airNode e <> None /\
  bodyNode e <> None /\ limiterNode e <> None /\ msSideGainNode e <> None /\
  stereoBassNode e <> None /\ dynamicBassNode e <> None /\ softClipNode e <> None.

Lemma setupGraph_ready (settings : MasteringSettings) (e : AudioEngine)
  (w : World) (c : AudioContext) (b : AudioBuffer) :
  audioContext e = Some c -> audioBuffer e = Some b ->
  graph_ready e (fst (setupGraph settings e w)) c.
Proof.
  intros Hc Hb. unfold setupGraph. rewrite Hc, Hb.
  repeat match goal with
    | |- context [createNode ?n ?g] => destruct (createNode n g)
    end.
  destruct (createImpulseResponse_engine (AudioContext_ref c) 3
              (decay (reverb settings)) false e w) as [cache [last He]].
  destruct (createImpulseResponse (AudioContext_ref c) 3
              (decay (reverb settings)) false e w) as [[impulse e1] w1].
  cbn [fst snd] in He. subst e1.
  repeat match goal with
    | |- context [createNode ?n ?g] => destruct (createNode n g)
    | |- context [createNodes ?n ?g] => destruct (createNodes n g)
    end.
  cbn [fst]. unfold updateSettings. cbn [audioContext].
  unfold graph_ready, set_audioContext, set_impulseResponse, with_graph.
  cbn [audioContext audioBuffer sourceNode startTime pausedAt isPlaying
       gainNode compressorNode reverbNode reverbToneNode wetGainNode dryGainNode
       analyzerNode saturationNode airNode bodyNode limiterNode msSideGainNode
       stereoBassNode dynamicBassNode softClipNode
       ac_id ac_sampleRate currentTime state].
  rewrite Hb.
  split; [eexists; reflexivity|].
  repeat split; discriminate.
Qed.

Lemma wirePlayback_some (e : AudioEngine) (source : NodeId) (g : Graph) :
  gainNode e <> None -> compressorNode e <> None -> reverbNode e <> None ->
  reverbToneNode e <> None -> wetGainNode e <> None -> dryGainNode e <> None ->
  analyzerNode e <> None -> saturationNode e <> None -> airNode e <> None ->
  bodyNode e <> None -> limiterNode e <> None -> msSideGainNode e <> None ->
  stereoBassNode e <> None -> dynamicBassNode e <> None -> softClipNode e <> None ->
  wirePlayback e source g <> None.
Proof.
  intros. unfold wirePlayback.
  destruct (chain source (eqNodes e) g) as [head g1].
  repeat match goal with
    | H : ?x <> None |- _ => destruct x; [clear H | contradiction]
    end.
  repeat match goal with
    | |- context [createNode ?n ?g] => destruct (createNode n g)
    end.
  discriminate.
Qed.

Lemma play_run (offset : R) (settings : MasteringSettings) (e : AudioEngine)
  (w : World) (c : AudioContext) (b : AudioBuffer) :
  audioContext e = Some c -> audioBuffer e = Some b ->
  exists g source e1 st,
    let ctx g := mkAudioContext (ac_id c) (ac_sampleRate c) (currentTime c) st g in
    let w' :=
      snd (setupGraph settings
             (match state c with
              | suspended => set_audioContext (Some (with_state running c)) e
              | _ => e
              end) w) in
    (0 <= offset ->
     play offset settings e w
     = mkRun (Return tt)
         (set_transport (currentTime c - offset) offset true
            (set_audioContext
               (Some (ctx (updateNode source (startedAt 0 offset) g)))
               (set_sourceNode (Some source) e1)))
         w') /\
    (offset < 0 ->
     play offset settings e w
     = mkRun (Throw "RangeError")
         (set_transport (currentTime c - offset) offset (isPlaying e)
            (set_audioContext (Some (ctx g)) (set_sourceNode (Some source) e1)))
         w') /\
    audioBuffer e1 = Some b.
Proof.
  intros Hc Hb. unfold play. rewrite Hc, Hb.
  set (e0 := match state c with
             | suspended => set_audioContext (Some (with_state running c)) e
             | _ => e
             end).
  set (c0 := match state c with suspended => with_state running c | _ => c end).
  assert (Hc0 : audioContext e0 = Some c0)
    by (unfold e0, c0; destruct (state c); simpl; first [assumption | reflexivity]).
  assert (Hb0 : audioBuffer e0 = Some b)
    by (unfold e0; destruct (state c); simpl; assumption).
  assert (Hp0 : isPlaying e0 = isPlaying e)
    by (unfold e0; destruct (state c); reflexivity).
  pose proof (setupGraph_ready settings e0 w c0 b Hc0 Hb0) as Hready.
  destruct (setupGraph settings e0 w) as [e1 w1]. cbn [fst snd] in *.
  destruct Hready as [[g Hg] [Hb1 Hrest]].
  rewrite Hg. rewrite Hb1, Hb0. cbn [option_map].
  destruct (createNode _ _) as [source g1].
  pose proof (wirePlayback_some (set_sourceNode (Some source) e1) source g1) as Hw.
  destruct Hrest as [_ [_ [_ [Hp1 Hrest]]]].
  repeat match type of Hrest with
    | _ /\ _ => let H := fresh "Hn" in destruct Hrest as [H Hrest]
    end.
  cbn [set_sourceNode gainNode compressorNode reverbNode reverbToneNode
       wetGainNode dryGainNode analyzerNode saturationNode airNode bodyNode
       limiterNode msSideGainNode stereoBassNode dynamicBassNode softClipNode] in Hw.
  specialize (Hw Hn Hn0 Hn1 Hn2 Hn3 Hn4 Hn5 Hn6 Hn7 Hn8 Hn9 Hn10 Hn11 Hn12 Hrest).
  destruct (wirePlayback (set_sourceNode (Some source) e1) source g1) as [g2|];
    [|contradiction].
  exists g2, source, e1, (state c0). cbv zeta.
  unfold start. destruct (Rlt_dec 0 0) as [H00|_]; [lra|].
  assert (Hst : state c0 = state c0) by reflexivity.
  split; [|split].
  - intro Hoff. destruct (Rlt_dec offset 0) as [Hneg|_]; [lra|].
    unfold with_graph, set_transport, set_audioContext.
    cbn [ac_id ac_sampleRate currentTime state audioContext sourceNode audioBuffer
         startTime pausedAt isPlaying].
    unfold c0. destruct (state c); reflexivity.
  - intro Hoff. destruct (Rlt_dec offset 0) as [_|Hpos]; [|lra].
    unfold with_graph, set_transport, set_audioContext.
    cbn [ac_id ac_sampleRate currentTime state audioContext sourceNode audioBuffer
         startTime pausedAt isPlaying set_sourceNode].
    rewrite Hp1, Hp0.
    unfold c0. destruct (state c); reflexivity.
  - congruence.
Qed.

(** Playback position.  With a context and a buffer, [play(offset)] with an
    offset that is not negative returns normally with [isPlaying] set and the
    position [offset]; while playing, [getCurrentTime] advances with the
    context's clock; [pause] freezes the position at the elapsed time and a
    second [pause] changes nothing; a [seek] while paused just moves the
    position.  With a negative offset the source's [start] throws a
    RangeError after [pausedAt] was written: [play] throws, and [isPlaying]
    keeps the value it had. *)
Theorem transport_position (offset : R) (settings : MasteringSettings)
  (e : AudioEngine) (w : World) (c : AudioContext) (b : AudioBuffer) :
  audioContext e = Some c -> audioBuffer e = Some b ->
  let r := play offset settings e w in
  let playing := engine_after r in
  (offset < 0 ->
   outcome r = Throw "RangeError" /\
   isPlaying playing = isPlaying e /\
   pausedAt playing = offset) /\
  (0 <= offset ->
   outcome r = Return tt /\
   isPlaying playing = true /\
   getCurrentTime playing = offset /\
   (forall dt, getCurrentTime (elapse dt playing) = offset + dt) /\
   (forall dt,
      let paused := pause (elapse dt playing) in
      isPlaying paused = false /\
      getCurrentTime paused = offset + dt /\
      (forall dt', getCurrentTime (elapse dt' paused) = offset + dt) /\
      pause paused = paused /\
      (forall t w',
         let sought := seek t settings paused w' in
         outcome sought = Return tt /\
         getCurrentTime (engine_after sought) = t /\
         isPlaying (engine_after sought) = false /\
         world_after sought = w'))).
Proof.
  intros Hc Hb r playing. subst playing r.
  destruct (play_run offset settings e w c b Hc Hb)
    as [g [source [e1 [st [Hret [Hthrow _]]]]]].
  cbv zeta in Hret, Hthrow. split.
  - intro Hneg. rewrite (Hthrow Hneg). cbn [outcome engine_after].
    repeat split.
  - intro Hoff. rewrite (Hret Hoff). cbn [outcome engine_after].
    split; [reflexivity|]. split; [reflexivity|].
    split; [|split].
    + unfold getCurrentTime. simpl. ring.
    + intro dt. unfold getCurrentTime, elapse. simpl. ring.
    + intro dt. unfold pause, elapse. simpl.
      split; [reflexivity|]. split; [unfold getCurrentTime; simpl; ring|].
      split; [intro dt'; unfold getCurrentTime, elapse; simpl; ring|].
      split; [reflexivity|].
      intros t w'. unfold seek. simpl. repeat split.
Qed.

Lemma transport_position_witness :
  (let r := play 1.5 DEFAULT_SETTINGS engine1 world1 in
   outcome r = Return tt /\
   isPlaying (engine_after r) = true /\
   getCurrentTime (engine_after r) = 1.5) /\
  (let r := play (-1) DEFAULT_SETTINGS engine1 world1 in
   outcome r = Throw "RangeError" /\
   isPlaying (engine_after r) = false).
Proof.
  assert (Hpos : 0 <= 1.5) by lra.
  assert (Hneg : -1 < 0) by lra.
  pose proof (proj2 (transport_position 1.5 DEFAULT_SETTINGS engine1 world1 _ _
                       engine1_context engine1_buffer) Hpos) as H.
  pose proof (proj1 (transport_position (-1) DEFAULT_SETTINGS engine1 world1 _ _
                       engine1_context engine1_buffer) Hneg) as H'.
  exact (conj (conj (proj1 H) (conj (proj1 (proj2 H)) (proj1 (proj2 (proj2 H)))))
              (conj (proj1 H') (proj1 (proj2 H')))).
Defined.

End EngineFacts.

(** * More on the WAV encoder: every format, every buffer *)

Section WavExport.
Import Wav.

(** [encodeWAV] never fails: for every buffer and every export format all
    its DataView writes fall inside the ArrayBuffer it allocated, and the blob
    has 44 + length * numberOfChannels * (bitDepth / 8) bytes. *)
Theorem encodeWAV_total (buffer : AudioBuffer) (format : ExportFormat) :
  exists blob,
    encodeWAV buffer format = Some blob /\
    List.length blob
    = (44 + length buffer * (numberOfChannels buffer * (bitDepth format / 8)))%nat.
Proof.
  unfold encodeWAV.
  destruct (writeHeader_spec buffer format (newArrayBuffer (totalSize buffer format)))
    as [header [Hh Hl]].
  { unfold newArrayBuffer, totalSize, headerSize. rewrite repeat_length. lia. }
  rewrite Hh. unfold newArrayBuffer in Hl. rewrite repeat_length in Hl.
  unfold totalSize, headerSize, dataSize, blockAlign, bytesPerSample in Hl.
  destruct format.
  - destruct (forEachSample_spec 2 writeSample16 buffer 44 header
                writeSample16_writes) as [view [Hrun [Hlen _]]].
    { rewrite Hl. change (bitDepth WAV_16 / 8)%nat with 2%nat. lia. }
    rewrite Hrun. exists view. split; [reflexivity|]. cbn [snd]. rewrite Hlen, Hl.
    reflexivity.
  - destruct (forEachSample_spec 3 writeSample24 buffer 44 header
                writeSample24_writes) as [view [Hrun [Hlen _]]].
    { rewrite Hl. change (bitDepth WAV_24 / 8)%nat with 3%nat. lia. }
    rewrite Hrun. exists view. split; [reflexivity|]. cbn [snd]. rewrite Hlen, Hl.
    reflexivity.
  - destruct (forEachSample_spec 4 writeSample32 buffer 44 header
                writeSample32_writes) as [view [Hrun [Hlen _]]].
    { rewrite Hl. change (bitDepth WAV_32 / 8)%nat with 4%nat. lia. }
    rewrite Hrun. exists view. split; [reflexivity|]. cbn [snd]. rewrite Hlen, Hl.
    reflexivity.
Qed.

(** The canonical 44-byte RIFF/WAVE header for [buffer] and [format]. *)
Definition headerBytes (buffer : AudioBuffer) (format : ExportFormat) : list byte :=
  [Byte.x52; Byte.x49; Byte.x46; Byte.x46]                       (* "RIFF" *)
  ++ le_split 4 (36 + Z.of_nat (dataSize buffer format))
  ++ [Byte.x57; Byte.x41; Byte.x56; Byte.x45]                    (* "WAVE" *)
  ++ [Byte.x66; Byte.x6d; Byte.x74; Byte.x20]                    (* "fmt " *)
  ++ le_split 4 16
  ++ le_split 2 (formatTag format)
  ++ le_split 2 (Z.of_nat (numberOfChannels buffer))
  ++ le_split 4 (sampleRate buffer)
  ++ le_split 4 (byteRate buffer format)
  ++ le_split 2 (Z.of_nat (blockAlign buffer format))
  ++ le_split 2 (Z.of_nat (bitDepth format))
  ++ [Byte.x64; Byte.x61; Byte.x74; Byte.x61]                    (* "data" *)
  ++ le_split 4 (Z.of_nat (dataSize buffer format)).

Lemma writeHeader_bytes (buffer : AudioBuffer) (format : ExportFormat)
  (tail : list byte) :
  writeHeader buffer format (repeat Byte.x00 44 ++ tail)
  = Some (headerBytes buffer format ++ tail).
Proof.
  unfold writeHeader, writeString, headerBytes.
  set (z1 := (36 + Z.of_nat (dataSize buffer format))%Z).
  set (z2 := formatTag format).
  set (z3 := Z.of_nat (numberOfChannels buffer)).
  set (z4 := sampleRate buffer).
  set (z5 := byteRate buffer format).
  set (z6 := Z.of_nat (blockAlign buffer format)).
  set (z7 := Z.of_nat (bitDepth format)).
  set (z8 := Z.of_nat (dataSize buffer format)).
  cbv [forRange String.length setUint8 setUint16 setUint32 setBytes endian
       le_split repeat app firstn skipn List.length Nat.leb Nat.add].
  change (byte.of_Z (charCodeAt "RIFF" 0)) with Byte.x52.
  change (byte.of_Z (charCodeAt "RIFF" 1)) with Byte.x49.
  change (byte.of_Z (charCodeAt "RIFF" 2)) with Byte.x46.
  change (byte.of_Z (charCodeAt "RIFF" 3)) with Byte.x46.
  change (byte.of_Z (charCodeAt "WAVE" 0)) with Byte.x57.
  change (byte.of_Z (charCodeAt "WAVE" 1)) with Byte.x41.
  change (byte.of_Z (charCodeAt "WAVE" 2)) with Byte.x56.
  change (byte.of_Z (charCodeAt "WAVE" 3)) with Byte.x45.
  change (byte.of_Z (charCodeAt "fmt " 0)) with Byte.x66.
  change (byte.of_Z (charCodeAt "fmt " 1)) with Byte.x6d.
  change (byte.of_Z (charCodeAt "fmt " 2)) with Byte.x74.
  change (byte.of_Z (charCodeAt "fmt " 3)) with Byte.x20.
  change (byte.of_Z (charCodeAt "data" 0)) with Byte.x64.
  change (byte.of_Z (charCodeAt "data" 1)) with Byte.x61.
  change (byte.of_Z (charCodeAt "data" 2)) with Byte.x74.
  change (byte.of_Z (charCodeAt "data" 3)) with Byte.x61.
  reflexivity.
Qed.

Lemma headerBytes_length (buffer : AudioBuffer) (format : ExportFormat) :
  List.length (headerBytes buffer format) = 44%nat.
Proof. reflexivity. Qed.

Lemma header_fields (buffer : AudioBuffer) (format : ExportFormat)
  (view : DataView) :
  (44 <= List.length view)%nat ->
  firstn 44 view = headerBytes buffer format ->
  getUint32 4 true view
  = Some ((36 + Z.of_nat (dataSize buffer format)) mod 2 ^ 32)%Z /\
  getUint32 24 true view = Some (sampleRate buffer mod 2 ^ 32)%Z /\
  getUint32 40 true view = Some (Z.of_nat (dataSize buffer format) mod 2 ^ 32)%Z.
Proof.
  intros Hlen Hpre. unfold getUint32.
  rewrite !(getBytes_prefix _ 4 44 view) by lia. rewrite Hpre.
  unfold getBytes. rewrite headerBytes_length.
  cbn [Nat.add Nat.leb option_map endian].
  change (firstn 4 (skipn 4 (headerBytes buffer format)))
    with (le_split 4 (36 + Z.of_nat (dataSize buffer format))).
  change (firstn 4 (skipn 24 (headerBytes buffer format)))
    with (le_split 4 (sampleRate buffer)).
  change (firstn 4 (skipn 40 (headerBytes buffer format)))
    with (le_split 4 (Z.of_nat (dataSize buffer format))).
  rewrite !le_combine_split. repeat split.
Qed.

(** The header of every export.  For every buffer and format the first 44
    bytes of the blob are the RIFF/WAVE header laid out field by field; read
    back little-endian, bytes 4-7 are 36 + dataSize and bytes 40-43 are
    dataSize, both reduced modulo 2^32, and bytes 24-27 are the sample rate
    modulo 2^32. *)
Theorem encodeWAV_header (buffer : AudioBuffer) (format : ExportFormat) :
  exists blob,
    encodeWAV buffer format = Some blob /\
    firstn 44 blob = headerBytes buffer format /\
    getUint32 4 true blob
    = Some ((36 + Z.of_nat (dataSize buffer format)) mod 2 ^ 32)%Z /\
    getUint32 24 true blob = Some (sampleRate buffer mod 2 ^ 32)%Z /\
    getUint32 40 true blob = Some (Z.of_nat (dataSize buffer format) mod 2 ^ 32)%Z.
Proof.
  unfold encodeWAV, newArrayBuffer, totalSize, headerSize.
  rewrite repeat_app, writeHeader_bytes.
  cbv beta iota zeta.
  set (tail := repeat Byte.x00 (dataSize buffer format)).
  set (header := (headerBytes buffer format ++ tail)%list).
  assert (Hl : List.length header = (44 + dataSize buffer format)%nat)
    by (unfold header, tail; rewrite length_app, headerBytes_length, repeat_length;
        reflexivity).
  assert (Hh : firstn 44 header = headerBytes buffer format).
  { unfold header. rewrite firstn_app, headerBytes_length.
    change (44 - 44)%nat with 0%nat. rewrite firstn_O, app_nil_r.
    apply firstn_all2. rewrite headerBytes_length. lia. }
  assert (Hdone : forall view,
             List.length view = List.length header ->
             firstn 44 view = firstn 44 header ->
             firstn 44 view = headerBytes buffer format /\
             getUint32 4 true view
             = Some ((36 + Z.of_nat (dataSize buffer format)) mod 2 ^ 32)%Z /\
             getUint32 24 true view = Some (sampleRate buffer mod 2 ^ 32)%Z /\
             getUint32 40 true view
             = Some (Z.of_nat (dataSize buffer format) mod 2 ^ 32)%Z).
  { intros view Hlen Hpre. rewrite Hh in Hpre. split; [exact Hpre|].
    apply header_fields; [lia | exact Hpre]. }
  unfold dataSize, blockAlign, bytesPerSample in Hl. destruct format.
  - destruct (forEachSample_spec 2 writeSample16 buffer 44 header
                writeSample16_writes) as [view [Hrun [Hlen Hpre]]].
    { rewrite Hl. change (bitDepth WAV_16 / 8)%nat with 2%nat. lia. }
    rewrite Hrun. exists view. split; [reflexivity | now apply Hdone].
  - destruct (forEachSample_spec 3 writeSample24 buffer 44 header
                writeSample24_writes) as [view [Hrun [Hlen Hpre]]].
    { rewrite Hl. change (bitDepth WAV_24 / 8)%nat with 3%nat. lia. }
    rewrite Hrun. exists view. split; [reflexivity | now apply Hdone].
  - destruct (forEachSample_spec 4 writeSample32 buffer 44 header
                writeSample32_writes) as [view [Hrun [Hlen Hpre]]].
    { rewrite Hl. change (bitDepth WAV_32 / 8)%nat with 4%nat. lia. }
    rewrite Hrun. exists view. split; [reflexivity | now apply Hdone].
Qed.

(** *** The stored 16-bit and 24-bit samples *)

Lemma clampUnit_range (x : Q) : (-1 <= clampUnit x <= 1)%Q.
Proof.
  unfold clampUnit. split; [apply Q.le_max_l|].
  apply Q.max_lub; [discriminate | apply Q.le_min_l].
Qed.

Lemma clampUnit_high (x : Q) : (1 <= x)%Q -> (clampUnit x == 1)%Q.
Proof.
  intro H. unfold clampUnit. rewrite (Q.min_l 1 x H). now apply Q.max_r.
Qed.

Lemma clampUnit_low (x : Q) : (x <= -1)%Q -> (clampUnit x == -1)%Q.
Proof.
  intro H. unfold clampUnit. apply Q.max_l.
  apply Qle_trans with x; [apply Q.le_min_r | exact H].
Qed.

Lemma Z_between (z k : Z) (q : Q) :
  (inject_Z z <= q)%Q -> (q < inject_Z z + 1)%Q -> (q == inject_Z k)%Q -> z = k.
Proof.
  intros H1 H2 H3. rewrite H3 in H1, H2.
  rewrite <- Zle_Qle in H1.
  change 1%Q with (inject_Z 1) in H2. rewrite <- inject_Z_plus, <- Zlt_Qlt in H2.
  lia.
Qed.

Lemma Z_between_up (z k : Z) (q : Q) :
  (q <= inject_Z z)%Q -> (inject_Z z < q + 1)%Q -> (q == inject_Z k)%Q -> z = k.
Proof.
  intros H1 H2 H3. rewrite H3 in H1, H2.
  rewrite <- Zle_Qle in H1.
  change 1%Q with (inject_Z 1) in H2. rewrite <- inject_Z_plus, <- Zlt_Qlt in H2.
  lia.
Qed.

(** [setInt16] after the 16-bit scaling: truncation toward zero. *)
Lemma truncate_scale16_spec (c : Q) :
  (-1 <= c <= 1)%Q ->
  let v := truncate (scale16 c) in
  (-32768 <= v <= 32767)%Z /\
  ((c < 0)%Q -> (c * 32768 <= inject_Z v /\ inject_Z v < c * 32768 + 1)%Q) /\
  ((0 <= c)%Q -> (inject_Z v <= c * 32767 /\ c * 32767 < inject_Z v + 1)%Q).
Proof.
  intros [Hlo Hhi] v. subst v. unfold scale16, truncate.
  destruct (Qlt_le_dec c 0) as [Hneg|Hpos].
  - set (s := (c * 32768)%Q).
    assert (Hs : (s == c * 32768)%Q) by reflexivity.
    assert (Hs1 : (s < 0)%Q) by (unfold s; lra).
    clearbody s.
    destruct (Qlt_le_dec s 0) as [_|Hs0]; [|lra].
    pose proof (Qle_ceiling s) as H1. pose proof (Qceiling_lt s) as H2.
    unfold Z.sub in H2. rewrite inject_Z_plus in H2.
    change (inject_Z (- (1))) with (-1 # 1)%Q in H2.
    repeat split; intros; try lra.
    + rewrite Zle_Qle. change (inject_Z (-32768)) with (-32768 # 1)%Q. lra.
    + assert (H3 : (Qceiling s < 1)%Z)
        by (rewrite Zlt_Qlt; change (inject_Z 1) with (1 # 1)%Q; lra).
      lia.
  - set (s := (c * 32767)%Q).
    assert (Hs : (s == c * 32767)%Q) by reflexivity.
    assert (Hs1 : (0 <= s)%Q) by (unfold s; lra).
    clearbody s.
    destruct (Qlt_le_dec s 0) as [Hs0|_]; [lra|].
    pose proof (Qfloor_le s) as H1. pose proof (Qlt_floor s) as H2.
    rewrite inject_Z_plus in H2. change (inject_Z 1) with (1 # 1)%Q in H2.
    repeat split; intros; try lra.
    + assert (H3 : (-1 < Qfloor s)%Z)
        by (rewrite Zlt_Qlt; change (inject_Z (-1)) with (-1 # 1)%Q; lra).
      lia.
    + rewrite Zle_Qle. change (inject_Z 32767) with (32767 # 1)%Q. lra.
Qed.

(** [Math.round] after the 24-bit scaling: the nearest integer. *)
Lemma round_scale24_spec (c : Q) :
  (-1 <= c <= 1)%Q ->
  let v := Math_round (scale24 c) in
  (-8388608 <= v <= 8388607)%Z /\
  ((c < 0)%Q ->
     (c * 8388608 - (1 # 2) < inject_Z v /\ inject_Z v <= c * 8388608 + (1 # 2))%Q) /\
  ((0 <= c)%Q ->
     (c * 8388607 - (1 # 2) < inject_Z v /\ inject_Z v <= c * 8388607 + (1 # 2))%Q).
Proof.
  intros [Hlo Hhi] v. subst v. unfold scale24, Math_round.
  destruct (Qlt_le_dec c 0) as [Hneg|Hpos].
  - set (s := (c * 8388608)%Q).
    assert (Hs : (s == c * 8388608)%Q) by reflexivity.
    clearbody s.
    pose proof (Qfloor_le (s + (1 # 2))) as H1.
    pose proof (Qlt_floor (s + (1 # 2))) as H2.
    rewrite inject_Z_plus in H2. change (inject_Z 1) with (1 # 1)%Q in H2.
    repeat split; intros; try lra.
    + assert (H3 : (-8388609 < Qfloor (s + (1 # 2)))%Z)
        by (rewrite Zlt_Qlt; change (inject_Z (-8388609)) with (-8388609 # 1)%Q; lra).
      lia.
    + assert (H3 : (Qfloor (s + (1 # 2)) < 1)%Z)
        by (rewrite Zlt_Qlt; change (inject_Z 1) with (1 # 1)%Q; lra).
      lia.
  - set (s := (c * 8388607)%Q).
    assert (Hs : (s == c * 8388607)%Q) by reflexivity.
    clearbody s.
    pose proof (Qfloor_le (s + (1 # 2))) as H1.
    pose proof (Qlt_floor (s + (1 # 2))) as H2.
    rewrite inject_Z_plus in H2. change (inject_Z 1) with (1 # 1)%Q in H2.
    repeat split; intros; try lra.
    + assert (H3 : (-1 < Qfloor (s + (1 # 2)))%Z)
        by (rewrite Zlt_Qlt; change (inject_Z (-1)) with (-1 # 1)%Q; lra).
      lia.
    + assert (H3 : (Qfloor (s + (1 # 2)) < 8388608)%Z)
        by (rewrite Zlt_Qlt; change (inject_Z 8388608) with (8388608 # 1)%Q; lra).
      lia.
Qed.

Section Wrapping.
Local Open Scope Z_scope.

Lemma int16_wrap (z : Z) :
  -32768 <= z <= 32767 ->
  (if z mod 2 ^ 16 <? 2 ^ 15 then z mod 2 ^ 16 else z mod 2 ^ 16 - 2 ^ 16) = z.
Proof.
  intro Hr. destruct (Z.ltb_spec (z mod 2 ^ 16) (2 ^ 15)) as [Hs|Hs].
  - destruct (Z.lt_ge_cases z 0) as [Hz|Hz].
    + replace z with ((z + 2 ^ 16) + (-1) * 2 ^ 16) in Hs at 1 by lia.
      rewrite Z.mod_add, Z.mod_small in Hs by lia. lia.
    + apply Z.mod_small. lia.
  - destruct (Z.lt_ge_cases z 0) as [Hz|Hz].
    + replace z with ((z + 2 ^ 16) + (-1) * 2 ^ 16) at 1 by lia.
      rewrite Z.mod_add, Z.mod_small by lia. lia.
    + rewrite Z.mod_small in Hs by lia. lia.
Qed.

Lemma of_Z_land_255 (z : Z) : byte.of_Z (Z.land z 255) = byte.of_Z z.
Proof.
  apply byte.unsigned_inj. rewrite !byte.unsigned_of_Z. unfold byte.wrap.
  change 255 with (Z.ones 8). rewrite Z.land_ones by lia.
  apply Zmod_mod.
Qed.

(** The three bytes the 24-bit branch stores are the little-endian bytes of
    the rounded value. *)
Lemma bytes24 (val : Z) :
  (le_split 1 (Z.land val 255) ++ le_split 1 (Z.land (Z.shiftr val 8) 255)
     ++ le_split 1 (Z.land (Z.shiftr val 16) 255))%list
  = le_split 3 val.
Proof.
  assert (H1 : forall z, le_split 1 z = [byte.of_Z z]) by reflexivity.
  assert (H3 : forall z, le_split 3 z
                         = [byte.of_Z z; byte.of_Z (Z.shiftr z 8);
                            byte.of_Z (Z.shiftr (Z.shiftr z 8) 8)]) by reflexivity.
  rewrite !H1, H3, !of_Z_land_255, (Z.shiftr_shiftr val 8 8) by lia. reflexivity.
Qed.

End Wrapping.

Lemma setBytes_app (offset : nat) (bs1 bs2 : list byte) (view v1 v2 : DataView) :
  setBytes offset bs1 view = Some v1 ->
  setBytes (offset + List.length bs1) bs2 v1 = Some v2 ->
  setBytes offset (bs1 ++ bs2) view = Some v2.
Proof.
  unfold setBytes.
  destruct (Nat.leb_spec (offset + List.length bs1) (List.length view)) as [H1|];
    [|discriminate].
  intros [= <-].
  rewrite !length_app, length_firstn, length_skipn.
  destruct (Nat.leb_spec (offset + List.length bs1 + List.length bs2)
              (Nat.min offset (List.length view) +
               (List.length bs1 + (List.length view - (offset + List.length bs1)))))
    as [H2|]; [|discriminate].
  intros [= <-].
  destruct (Nat.leb_spec (offset + (List.length bs1 + List.length bs2))
              (List.length view)); [|lia].
  f_equal.
  set (A := firstn offset view).
  assert (HA : List.length A = offset) by (unfold A; rewrite length_firstn; lia).
  rewrite (app_assoc A bs1).
  rewrite firstn_app, skipn_app, length_app, HA.
  replace (offset + List.length bs1 - (offset + List.length bs1))%nat with 0%nat by lia.
  rewrite firstn_O, app_nil_r.
  assert (F : firstn (offset + List.length bs1) (A ++ bs1) = (A ++ bs1)%list)
    by (apply firstn_all2; rewrite length_app; lia).
  assert (S : skipn (offset + List.length bs1 + List.length bs2) (A ++ bs1) = [])
    by (apply skipn_all2; rewrite length_app; lia).
  rewrite F, S.
  replace (offset + List.length bs1 + List.length bs2 - (offset + List.length bs1))%nat
    with (List.length bs2) by lia.
  rewrite skipn_skipn. cbn [app]. rewrite <- !app_assoc.
  replace (List.length bs2 + (offset + List.length bs1))%nat
    with (offset + (List.length bs1 + List.length bs2))%nat by lia.
  reflexivity.
Qed.

Lemma writeSample16_stores_all :
  stores 2 (fun _ => True) (fun o v => getInt16 o true v)
         (fun x => truncate (scale16 (clampUnit (f32_value x)))) writeSample16.
Proof.
  intros x offset view _ Hle. unfold writeSample16, setInt16.
  set (z := truncate (scale16 (clampUnit (f32_value x)))).
  set (bs := endian true (le_split 2 z)).
  destruct (setBytes_spec offset bs view) as [v [Hv [Hl Hf]]]; [exact Hle|].
  rewrite Hv. exists v. repeat split; [assumption | assumption |].
  unfold getInt16, getUint16.
  rewrite (getBytes_setBytes offset bs view v Hv : getBytes offset 2 v = Some bs).
  unfold bs. cbn [option_map endian].
  rewrite le_combine_split. change (Z.of_nat 2 * 8)%Z with 16%Z.
  f_equal. apply int16_wrap.
  exact (proj1 (truncate_scale16_spec _ (clampUnit_range (f32_value x)))).
Qed.

(** What a reader of a 24-bit file sees at a sample position: the unsigned
    little-endian value of the three bytes. *)
Definition getUint24 (offset : nat) (view : DataView) : option Z :=
  option_map le_combine (getBytes offset 3 view).

Lemma getUint24_reads : reads_bytes 3 getUint24.
Proof.
  intros offset view view' Hfit Hlen Hpre. unfold getUint24.
  now rewrite (getBytes_reads 3 offset view view' Hfit Hlen Hpre).
Qed.

Lemma writeSample24_stores :
  stores 3 (fun _ => True) getUint24
         (fun x => (Math_round (scale24 (clampUnit (f32_value x))) mod 2 ^ 24)%Z)
         writeSample24.
Proof.
  intros x offset view _ Hle. unfold writeSample24, setUint8.
  set (val := Math_round (scale24 (clampUnit (f32_value x)))).
  destruct (setBytes_spec offset (le_split 1 (Z.land val 255)) view)
    as [v1 [Hv1 [Hl1 Hf1]]]; [simpl; lia|].
  rewrite Hv1.
  destruct (setBytes_spec (offset + 1) (le_split 1 (Z.land (Z.shiftr val 8) 255)) v1)
    as [v2 [Hv2 [Hl2 Hf2]]]; [simpl; lia|].
  rewrite Hv2.
  destruct (setBytes_spec (offset + 2) (le_split 1 (Z.land (Z.shiftr val 16) 255)) v2)
    as [v3 [Hv3 [Hl3 Hf3]]]; [simpl; lia|].
  rewrite Hv3. exists v3. split; [reflexivity|]. split; [lia|]. split.
  - intros j Hj. rewrite Hf3, Hf2, Hf1 by lia. reflexivity.
  - set (b0 := le_split 1 (Z.land val 255)) in *.
    set (b1 := le_split 1 (Z.land (Z.shiftr val 8) 255)) in *.
    set (b2 := le_split 1 (Z.land (Z.shiftr val 16) 255)) in *.
    assert (H23 : setBytes (offset + 1) (b1 ++ b2) v1 = Some v3).
    { apply (setBytes_app (offset + 1) b1 b2 v1 v2 v3 Hv2).
      replace (offset + 1 + List.length b1)%nat with (offset + 2)%nat
        by (unfold b1; rewrite length_le_split; lia).
      exact Hv3. }
    assert (H123 : setBytes offset (b0 ++ b1 ++ b2) view = Some v3).
    { apply (setBytes_app offset b0 (b1 ++ b2) view v1 v3 Hv1).
      replace (offset + List.length b0)%nat with (offset + 1)%nat
        by (unfold b0; rewrite length_le_split; lia).
      exact H23. }
    unfold b0, b1, b2 in H123. rewrite bytes24 in H123.
    unfold getUint24.
    rewrite (getBytes_setBytes offset _ view v3 H123
             : getBytes offset 3 v3 = Some (le_split 3 val)).
    cbn [option_map]. now rewrite le_combine_split.
Qed.

(** 16-bit export, sample by sample.  For every buffer of finite samples the
    signed 16-bit integer read back at the interleaved position of frame [i],
    channel [ch] lies in [-32768, 32767]; samples at or above 1 are stored as
    32767 and samples at or below -1 as -32768 (clipping, no wrap-around);
    inside [-1,1] the stored integer is the sample times 32767 (times 32768
    when negative) with its fraction cut off toward zero. *)
Theorem encodeWAV_16_clips (buffer : AudioBuffer) :
  (forall ch i, f32_finite (getChannelData buffer ch i)) ->
  exists blob,
    encodeWAV buffer WAV_16 = Some blob /\
    forall i ch, (i < length buffer)%nat -> (ch < numberOfChannels buffer)%nat ->
      exists v,
        getInt16 (44 + (i * numberOfChannels buffer + ch) * 2) true blob = Some v /\
        (-32768 <= v <= 32767)%Z /\
        ((1 <= f32_value (getChannelData buffer ch i))%Q -> v = 32767%Z) /\
        ((f32_value (getChannelData buffer ch i) <= -1)%Q -> v = (-32768)%Z) /\
        ((0 <= f32_value (getChannelData buffer ch i) <= 1)%Q ->
           (inject_Z v <= f32_value (getChannelData buffer ch i) * 32767 /\
            f32_value (getChannelData buffer ch i) * 32767 < inject_Z v + 1)%Q) /\
        ((-1 <= f32_value (getChannelData buffer ch i) /\
          f32_value (getChannelData buffer ch i) < 0)%Q ->
           (f32_value (getChannelData buffer ch i) * 32768 <= inject_Z v /\
            inject_Z v < f32_value (getChannelData buffer ch i) * 32768 + 1)%Q).
Proof.
  intros _. unfold encodeWAV.
  destruct (writeHeader_spec buffer WAV_16 (newArrayBuffer (totalSize buffer WAV_16)))
    as [header [Hh Hl]].
  { unfold newArrayBuffer, totalSize, headerSize. rewrite repeat_length. lia. }
  rewrite Hh. unfold newArrayBuffer in Hl. rewrite repeat_length in Hl.
  destruct (forEachSample_readback 2 _ _ _ writeSample16 buffer 44 header
              writeSample16_stores_all getInt16_reads (fun _ _ => I))
    as [view [Hrun [Hlen [_ Hread]]]].
  { rewrite Hl. unfold totalSize, headerSize, dataSize, blockAlign.
    change (bytesPerSample WAV_16) with 2%nat. lia. }
  rewrite Hrun. exists view. cbn [snd]. split; [reflexivity|].
  intros i ch Hi Hch. eexists. split; [apply Hread; assumption|].
  set (x := f32_value (getChannelData buffer ch i)).
  pose proof (clampUnit_range x) as Hc.
  destruct (truncate_scale16_spec (clampUnit x) Hc) as [Hr [Hn Hp]].
  set (v := truncate (scale16 (clampUnit x))) in *.
  split; [exact Hr|]. split; [|split; [|split]].
  - intro Hx. pose proof (clampUnit_high x Hx) as E.
    destruct (Hp ltac:(lra)) as [H1 H2].
    apply (Z_between v 32767 (clampUnit x * 32767)); [assumption | assumption |].
    rewrite E. reflexivity.
  - intro Hx. pose proof (clampUnit_low x Hx) as E.
    destruct (Hn ltac:(lra)) as [H1 H2].
    apply (Z_between_up v (-32768) (clampUnit x * 32768)); [assumption | assumption |].
    rewrite E. reflexivity.
  - intro Hx. pose proof (clampUnit_id x ltac:(lra)) as E.
    destruct (Hp ltac:(lra)) as [H1 H2]. lra.
  - intro Hx. pose proof (clampUnit_id x ltac:(lra)) as E.
    destruct (Hn ltac:(lra)) as [H1 H2]. lra.
Qed.

(** 24-bit export, sample by sample.  The three bytes at a sample position
    are the little-endian two's-complement bytes of an integer [val] of
    [-8388608, 8388607]: 8388607 for samples at or above 1, -8388608 at or
    below -1, and inside [-1,1] the integer nearest to the sample times
    8388607 (times 8388608 when negative), a tie going to the larger one. *)
Theorem encodeWAV_24_rounds (buffer : AudioBuffer) :
  (forall ch i, f32_finite (getChannelData buffer ch i)) ->
  exists blob,
    encodeWAV buffer WAV_24 = Some blob /\
    forall i ch, (i < length buffer)%nat -> (ch < numberOfChannels buffer)%nat ->
      exists val,
        getUint24 (44 + (i * numberOfChannels buffer + ch) * 3) blob
        = Some (val mod 2 ^ 24)%Z /\
        (-8388608 <= val <= 8388607)%Z /\
        ((1 <= f32_value (getChannelData buffer ch i))%Q -> val = 8388607%Z) /\
        ((f32_value (getChannelData buffer ch i) <= -1)%Q -> val = (-8388608)%Z) /\
        ((0 <= f32_value (getChannelData buffer ch i) <= 1)%Q ->
           (f32_value (getChannelData buffer ch i) * 8388607 - (1 # 2) < inject_Z val /\
            inject_Z val <= f32_value (getChannelData buffer ch i) * 8388607 + (1 # 2))%Q) /\
        ((-1 <= f32_value (getChannelData buffer ch i) /\
          f32_value (getChannelData buffer ch i) < 0)%Q ->
           (f32_value (getChannelData buffer ch i) * 8388608 - (1 # 2) < inject_Z val /\
            inject_Z val <= f32_value (getChannelData buffer ch i) * 8388608 + (1 # 2))%Q).
Proof.
  intros _. unfold encodeWAV.
  destruct (writeHeader_spec buffer WAV_24 (newArrayBuffer (totalSize buffer WAV_24)))
    as [header [Hh Hl]].
  { unfold newArrayBuffer, totalSize, headerSize. rewrite repeat_length. lia. }
  rewrite Hh. unfold newArrayBuffer in Hl. rewrite repeat_length in Hl.
  destruct (forEachSample_readback 3 _ _ _ writeSample24 buffer 44 header
              writeSample24_stores getUint24_reads (fun _ _ => I))
    as [view [Hrun [Hlen [_ Hread]]]].
  { rewrite Hl. unfold totalSize, headerSize, dataSize, blockAlign.
    change (bytesPerSample WAV_24) with 3%nat. lia. }
  rewrite Hrun. cbn [snd]. exists view. split; [reflexivity|].
  intros i ch Hi Hch. eexists. split; [apply Hread; assumption|].
  set (x := f32_value (getChannelData buffer ch i)).
  pose proof (clampUnit_range x) as Hc.
  destruct (round_scale24_spec (clampUnit x) Hc) as [Hr [Hn Hp]].
  set (v := Math_round (scale24 (clampUnit x))) in *.
  clearbody v.
  assert (Hz : forall k : Z, (inject_Z k - (1 # 2) < inject_Z v)%Q ->
                 (inject_Z v <= inject_Z k + (1 # 2))%Q -> v = k).
  { intros k H1 H2.
    assert (H3 : (inject_Z (k - 1) < inject_Z v)%Q)
      by (unfold Z.sub; rewrite inject_Z_plus;
          change (inject_Z (- (1))) with (-1 # 1)%Q; lra).
    assert (H4 : (inject_Z v < inject_Z (k + 1))%Q)
      by (rewrite inject_Z_plus; change (inject_Z 1) with (1 # 1)%Q; lra).
    rewrite <- Zlt_Qlt in H3, H4. lia. }
  split; [exact Hr|]. split; [|split; [|split]].
  - intro Hx. pose proof (clampUnit_high x Hx) as E.
    destruct (Hp ltac:(lra)) as [H1 H2]. rewrite E in H1, H2.
    apply Hz; change (inject_Z 8388607) with (8388607 # 1)%Q; lra.
  - intro Hx. pose proof (clampUnit_low x Hx) as E.
    destruct (Hn ltac:(lra)) as [H1 H2]. rewrite E in H1, H2.
    apply Hz; change (inject_Z (-8388608)) with (-8388608 # 1)%Q; lra.
  - intro Hx. pose proof (clampUnit_id x ltac:(lra)) as E.
    destruct (Hp ltac:(lra)) as [H1 H2]. lra.
  - intro Hx. pose proof (clampUnit_id x ltac:(lra)) as E.
    destruct (Hn ltac:(lra)) as [H1 H2]. lra.
Qed.

(** A stereo buffer of three frames for the concrete cases: full scale,
    half scale with alternating sign, and silence. *)
Definition three_frames : AudioBuffer :=
  mkAudioBuffer 2 48000 3
    (fun ch i =>
       match i with
       | O => mkF32 (Nat.odd ch) 127 0
       | S O => mkF32 (Nat.even ch) 126 0
       | _ => mkF32 false 0 0
       end).

Lemma three_frames_finite (ch i : nat) : f32_finite (getChannelData three_frames ch i).
Proof.
  unfold f32_finite, three_frames. cbn [getChannelData].
  destruct i as [|[|i]]; cbn [f_exp f_frac]; lia.
Qed.

Lemma encodeWAV_32_roundtrip_witness :
  exists blob,
    encodeWAV three_frames WAV_32 = Some blob /\
    List.length blob = totalSize three_frames WAV_32 /\
    forall i ch, (i < length three_frames)%nat ->
      (ch < numberOfChannels three_frames)%nat ->
      getFloat32 (44 + (i * numberOfChannels three_frames + ch) * 4) true blob
      = Some (getChannelData three_frames ch i).
Proof. exact (encodeWAV_32_roundtrip three_frames three_frames_finite). Defined.

Lemma encodeWAV_16_clips_witness :
  exists blob,
    encodeWAV three_frames WAV_16 = Some blob /\
    forall i ch, (i < length three_frames)%nat ->
      (ch < numberOfChannels three_frames)%nat ->
      exists v,
        getInt16 (44 + (i * numberOfChannels three_frames + ch) * 2) true blob = Some v /\
        (-32768 <= v <= 32767)%Z /\
        ((1 <= f32_value (getChannelData three_frames ch i))%Q -> v = 32767%Z) /\
        ((f32_value (getChannelData three_frames ch i) <= -1)%Q -> v = (-32768)%Z) /\
        ((0 <= f32_value (getChannelData three_frames ch i) <= 1)%Q ->
           (inject_Z v <= f32_value (getChannelData three_frames ch i) * 32767 /\
            f32_value (getChannelData three_frames ch i) * 32767 < inject_Z v + 1)%Q) /\
        ((-1 <= f32_value (getChannelData three_frames ch i) /\
          f32_value (getChannelData three_frames ch i) < 0)%Q ->
           (f32_value (getChannelData three_frames ch i) * 32768 <= inject_Z v /\
            inject_Z v < f32_value (getChannelData three_frames ch i) * 32768 + 1)%Q).
Proof. exact (encodeWAV_16_clips three_frames three_frames_finite). Defined.

Lemma encodeWAV_24_rounds_witness :
  exists blob,
    encodeWAV three_frames WAV_24 = Some blob /\
    forall i ch, (i < length three_frames)%nat ->
      (ch < numberOfChannels three_frames)%nat ->
      exists val,
        getUint24 (44 + (i * numberOfChannels three_frames + ch) * 3) blob
        = Some (val mod 2 ^ 24)%Z /\
        (-8388608 <= val <= 8388607)%Z /\
        ((1 <= f32_value (getChannelData three_frames ch i))%Q -> val = 8388607%Z) /\
        ((f32_value (getChannelData three_frames ch i) <= -1)%Q -> val = (-8388608)%Z) /\
        ((0 <= f32_value (getChannelData three_frames ch i) <= 1)%Q ->
           (f32_value (getChannelData three_frames ch i) * 8388607 - (1 # 2) < inject_Z val /\
            inject_Z val <= f32_value (getChannelData three_frames ch i) * 8388607 + (1 # 2))%Q) /\
        ((-1 <= f32_value (getChannelData three_frames ch i) /\
          f32_value (getChannelData three_frames ch i) < 0)%Q ->
           (f32_value (getChannelData three_frames ch i) * 8388608 - (1 # 2) < inject_Z val /\
            inject_Z val <= f32_value (getChannelData three_frames ch i) * 8388608 + (1 # 2))%Q).
Proof. exact (encodeWAV_24_rounds three_frames three_frames_finite). Defined.

End WavExport.

(** * More on the heuristic engine: every analysis result *)

Section AssistantRanges.
Import Js Types Constants Assistant.
Local Open Scope R_scope.

Lemma Int_part_between (y : R) (zlo zhi : Z) :
  IZR zlo <= y -> y < IZR zhi + 1 -> (zlo <= Int_part y <= zhi)%Z.
Proof.
  intros Hlo Hhi. destruct (base_Int_part y) as [H1 H2].
  assert (H3 : IZR (zlo - 1) < IZR (Int_part y)) by (rewrite minus_IZR; lra).
  assert (H4 : IZR (Int_part y) < IZR (zhi + 1)) by (rewrite plus_IZR; lra).
  apply lt_IZR in H3, H4. lia.
Qed.

(** [toFixed] never leaves an interval whose ends are decimals of that many
    digits. *)
Lemma toFixed_bounds (digits : nat) (x lo hi : R) (zlo zhi : Z) :
  IZR zlo = lo * 10 ^ digits -> IZR zhi = hi * 10 ^ digits ->
  lo <= x <= hi -> lo <= toFixed digits x <= hi.
Proof.
  intros Hzlo Hzhi [Hlo Hhi]. unfold toFixed.
  assert (Hp : 0 < 10 ^ digits) by (apply pow_lt; lra).
  set (p := 10 ^ digits) in *.
  assert (Hdiv : forall n : R, n / p * p = n) by (intro; field; lra).
  destruct (Rlt_dec x 0) as [Hneg|Hpos].
  - rewrite (Rabs_left x Hneg).
    destruct (Int_part_between (- x * p + / 2) (- zhi) (- zlo)) as [H1 H2].
    + rewrite opp_IZR, Hzhi. nra.
    + rewrite opp_IZR, Hzlo. nra.
    + apply IZR_le in H1, H2. rewrite opp_IZR in H1, H2.
      set (n := IZR (Int_part (- x * p + / 2))) in *.
      split; apply (Rmult_le_reg_r p); try exact Hp.
      * replace (- (n / p) * p) with (- (n / p * p)) by ring. rewrite Hdiv. lra.
      * replace (- (n / p) * p) with (- (n / p * p)) by ring. rewrite Hdiv. lra.
  - rewrite (Rabs_right x) by lra.
    destruct (Int_part_between (x * p + / 2) zlo zhi) as [H1 H2].
    + rewrite Hzlo. nra.
    + rewrite Hzhi. nra.
    + apply IZR_le in H1, H2.
      set (n := IZR (Int_part (x * p + / 2))) in *.
      split; apply (Rmult_le_reg_r p); try exact Hp; rewrite Hdiv; lra.
Qed.

Lemma clamp_range (v lo hi : R) : lo <= hi -> lo <= clamp v lo hi <= hi.
Proof.
  intro H. unfold clamp, Math_min, Math_max, Rmin, Rmax.
  repeat match goal with
    | |- context [Rle_dec ?a ?b] => destruct (Rle_dec a b)
    end; lra.
Qed.

Ltac split_tests :=
  repeat match goal with
    | |- context [Rgt_dec ?a ?b] => destruct (Rgt_dec a b)
    | |- context [Rlt_dec ?a ?b] => destruct (Rlt_dec a b)
    end.

(** The returned settings, field by field. *)
Lemma generateAiSettings_fields (analysis : AnalysisResult) :
  let s := settings (generateAiSettings analysis) in
  let g := gainNeeded analysis in
  masterGain s
  = (if Rgt_dec g 0.5
     then clamp (Math_pow 10 (Math_min g 4.0 / 20) - 1.0) 0.0 0.8 else 0.0) /\
  softClip s
  = (if Rgt_dec g 0.5
     then toFixed 2
            (if Rgt_dec (crestFactor analysis) 4.0
             then clamp (Math_max 0 (g - Math_min g 4.0) * 0.08) 0 0.4 + 0.1
             else clamp (Math_max 0 (g - Math_min g 4.0) * 0.08) 0 0.4)
     else 0.05) /\
  ceiling s = (if Rgt_dec g 0.5 then -0.3 else 0) /\
  compressor s
  = (if Rgt_dec g 0.5
     then if Rgt_dec g 3
          then {| threshold := -16; ratio := 2.0; attack := 0.010; release := 0.15 |}
          else compressor DEFAULT_SETTINGS
     else compressor DEFAULT_SETTINGS) /\
  stereoWidth s
  = (if Rgt_dec (midEnergy analysis) (lowEnergy analysis * 1.5) then 0.05 else 0.15) /\
  stereoBass s = (if Rgt_dec (lowEnergy analysis) 0.6 then 2.0 else 0) /\
  dynamicBass s = (if Rlt_dec (lowEnergy analysis) 0.4 then 3.0 else 0) /\
  saturation s = (if Rlt_dec (spectralFlux analysis) 12 then 0.04 else 0.01) /\
  body s = (if Rlt_dec (spectralFlux analysis) 12 then 1.5 else 0.0) /\
  reverb s = reverb DEFAULT_SETTINGS /\
  air s = 0.
Proof.
  unfold generateAiSettings. split_tests; repeat split.
Qed.

(** The loudness decision in terms of the estimated loudness. *)
Lemma gainNeeded_cases (analysis : AnalysisResult) :
  let est := estimatedLUFS analysis in
  (-12 < est -> gainNeeded analysis = 0) /\
  (-24 <= est <= -12 -> gainNeeded analysis = -10 - est) /\
  (est < -24 -> gainNeeded analysis = -13 - est).
Proof.
  unfold gainNeeded, targetLUFS. cbv zeta.
  destruct (Rgt_dec (estimatedLUFS analysis) (-12));
    destruct (Rlt_dec (estimatedLUFS analysis) (-24));
    repeat split; intros; lra.
Qed.

Lemma Math_pow_ten (y : R) : Math_pow 10 y = Rpower 10 y.
Proof. unfold Math_pow. destruct (Req_dec_T 10 0); [lra | reflexivity]. Qed.

Lemma matchBand_spec (analysis : AnalysisResult) (band : EQBand) (i : nat) :
  gain band = 0 ->
  frequency (matchBand analysis band i) = frequency band /\
  -4 <= gain (matchBand analysis band i) <= 4 /\
  (frequency band <= 8000 -> -3 <= gain (matchBand analysis band i) <= 3).
Proof.
  intro Hg. unfold matchBand.
  destruct (nth_error (spectralBalance analysis) i) as [actual|];
    [|rewrite Hg; repeat split; intros; lra].
  cbn [frequency gain]. split; [reflexivity|].
  set (t := orElse (nth_error targetCurve i) 0.5).
  assert (H3 : forall v, -3 <= toFixed 1 (clamp v (-3) 3) <= 3).
  { intro v. apply (toFixed_bounds 1 _ (-3) 3 (-30) 30); [simpl; lra | simpl; lra |].
    apply clamp_range. lra. }
  assert (H4 : forall v, -4 <= toFixed 1 (clamp v (-4) 4) <= 4).
  { intro v. apply (toFixed_bounds 1 _ (-4) 4 (-40) 40); [simpl; lra | simpl; lra |].
    apply clamp_range. lra. }
  destruct (Rlt_dec (frequency band) 100) as [Hlow|Hlow].
  - pose proof (H3 ((actual - t) * -12.0)). split; [lra | intros _; assumption].
  - destruct (Rgt_dec (frequency band) 8000) as [Hhigh|Hhigh].
    + pose proof (H4 ((actual - t) * -12.0)). split; [assumption | intros; lra].
    + pose proof (H3 ((actual - t) * -12.0)). split; [lra | intros _; assumption].
Qed.

Lemma mapi_from_Forall {A B : Type} (P : A -> Prop) (Q : B -> Prop)
  (f : A -> nat -> B) (l : list A) :
  (forall x i, P x -> Q (f x i)) ->
  Forall P l -> forall start, Forall Q (mapi_from start f l).
Proof.
  intros Hf Hl. induction Hl as [|x l Hx Hl IH]; intro start; simpl; constructor; auto.
Qed.

(** The ranges the type declarations give for the fields of
    [MasteringSettings] (the comments of [src/types.ts]). *)
Definition in_declared_ranges (s : MasteringSettings) : Prop :=
  0 <= masterGain s <= 2 /\
  Forall (fun b => -12 <= gain b <= 12) (eq s) /\
  -60 <= threshold (compressor s) <= 0 /\
  0 <= ratio (compressor s) <= 20 /\
  0 <= attack (compressor s) <= 1 /\
  0 <= release (compressor s) <= 1 /\
  0 <= mix (reverb s) <= 1 /\
  0.1 <= decay (reverb s) <= 10 /\
  0 <= saturation s <= 1 /\
  0 <= air s <= 12 /\
  0 <= body s <= 6 /\
  0 <= stereoWidth s <= 2 /\
  -10 <= ceiling s <= 0 /\
  0 <= stereoBass s <= 12 /\
  0 <= dynamicBass s <= 12 /\
  0 <= softClip s <= 1.

(** What the assistant can return.  For every analysis result with a
    positive RMS level: the master gain is at most 10^(4/20) - 1 (less than
    0.585, so the clamp at 0.8 never acts), soft clip is between 0 and 0.5,
    every band keeps its default frequency and gets a gain of [-4,4] (of
    [-3,3] up to 8 kHz), reverb and air are never touched, stereo-bass
    widening and the dynamic-bass boost are never applied together, and all
    fields lie inside the ranges the type declarations give. *)
Theorem generateAiSettings_ranges (analysis : AnalysisResult) :
  0 < rms analysis ->
  let s := settings (generateAiSettings analysis) in
  0 <= masterGain s <= Rpower 10 0.2 - 1 /\
  masterGain s < 0.585 /\
  0 <= softClip s <= 0.5 /\
  map frequency (eq s) = DEFAULT_EQ_FREQUENCIES /\
  Forall (fun b => -4 <= gain b <= 4 /\ (frequency b <= 8000 -> -3 <= gain b <= 3))
         (eq s) /\
  reverb s = reverb DEFAULT_SETTINGS /\
  air s = air DEFAULT_SETTINGS /\
  ~ (stereoBass s <> 0 /\ dynamicBass s <> 0) /\
  in_declared_ranges s.
Proof.
  intros _ s.
  destruct (generateAiSettings_fields analysis)
    as [Hmg [Hsc [Hce [Hco [Hsw [Hsb [Hdb [Hsa [Hbo [Hre Hai]]]]]]]]]].
  fold s in Hmg, Hsc, Hce, Hco, Hsw, Hsb, Hdb, Hsa, Hbo, Hre, Hai.
  pose proof fifth_root_of_ten as [Hr1 Hr2].
  assert (Hgain : 0 <= masterGain s <= Rpower 10 0.2 - 1).
  { rewrite Hmg. destruct (Rgt_dec (gainNeeded analysis) 0.5) as [Hg|Hg]; [|lra].
    rewrite Math_pow_ten.
    set (y := Math_min (gainNeeded analysis) 4.0 / 20).
    assert (Hy : 0 <= y <= 0.2).
    { unfold y, Math_min, Rmin. destruct (Rle_dec (gainNeeded analysis) 4.0); lra. }
    assert (H1 : Rpower 10 0 <= Rpower 10 y) by (apply Rle_Rpower; lra).
    assert (H2 : Rpower 10 y <= Rpower 10 0.2) by (apply Rle_Rpower; lra).
    rewrite Rpower_O in H1 by lra.
    rewrite clamp_inside; lra. }
  assert (Hclip : 0 <= softClip s <= 0.5).
  { rewrite Hsc. destruct (Rgt_dec (gainNeeded analysis) 0.5); [|lra].
    set (c := clamp (Math_max 0 (gainNeeded analysis
                                 - Math_min (gainNeeded analysis) 4.0) * 0.08) 0 0.4).
    assert (Hc : 0 <= c <= 0.4) by (apply clamp_range; lra).
    apply (toFixed_bounds 2 _ 0 0.5 0 50); [simpl; lra | simpl; lra |].
    destruct (Rgt_dec (crestFactor analysis) 4.0); lra. }
  assert (Heq : Forall (fun b => -4 <= gain b <= 4 /\
                                 (frequency b <= 8000 -> -3 <= gain b <= 3)) (eq s)).
  { unfold s. rewrite generateAiSettings_eq. unfold mapi.
    apply (mapi_from_Forall (fun b => gain b = 0)).
    - intros b i Hb. destruct (matchBand_spec analysis b i Hb) as [Hf [H4 H3]].
      rewrite Hf. auto.
    - unfold DEFAULT_SETTINGS. cbn [eq]. apply Forall_map, Forall_forall. reflexivity. }
  split; [exact Hgain|]. split; [lra|]. split; [exact Hclip|].
  split; [|split; [|split; [|split; [|split]]]].
  - unfold s. rewrite generateAiSettings_eq.
    assert (H : Forall2 (fun a b => frequency b = frequency a)
                  (eq DEFAULT_SETTINGS) (mapi (matchBand analysis) (eq DEFAULT_SETTINGS))).
    { unfold mapi. apply mapi_from_Forall2. intros b i. unfold matchBand.
      destruct (nth_error (spectralBalance analysis) i); reflexivity. }
    transitivity (map frequency (eq DEFAULT_SETTINGS)).
    + induction H; simpl; [reflexivity | congruence].
    + unfold DEFAULT_SETTINGS. cbn [eq]. rewrite map_map. cbn [frequency].
      apply map_id.
  - exact Heq.
  - exact Hre.
  - rewrite Hai. reflexivity.
  - rewrite Hsb, Hdb.
    destruct (Rgt_dec (lowEnergy analysis) 0.6), (Rlt_dec (lowEnergy analysis) 0.4);
      intros [H1 H2]; lra.
  - unfold in_declared_ranges. rewrite Hre, Hai, Hce, Hco, Hsw, Hsb, Hdb, Hsa, Hbo.
    split; [lra|]. split.
    { eapply Forall_impl; [|exact Heq]. intros b [H _]. lra. }
    unfold DEFAULT_SETTINGS. cbn [compressor reverb mix decay].
    destruct (Rgt_dec (gainNeeded analysis) 0.5), (Rgt_dec (gainNeeded analysis) 3),
      (Rgt_dec (midEnergy analysis) (lowEnergy analysis * 1.5)),
      (Rgt_dec (lowEnergy analysis) 0.6), (Rlt_dec (lowEnergy analysis) 0.4),
      (Rlt_dec (spectralFlux analysis) 12);
      cbn [threshold ratio attack release]; repeat split; lra.
Qed.

Definition quiet_analysis : AnalysisResult :=
  {| rms := 0.05; crestFactor := 6; spectralFlux := 8;
     musicalKey := "C"; musicalScale := "major"; bpm := 96;
     spectralBalance := [1; 0.2; 0.85; 0.8; 0.75; 0.7; 0.65; 0.6; 0.55; 0.5; 0.45; 0.9];
     lowEnergy := 0.3; midEnergy := 0.6 |}.

Lemma generateAiSettings_ranges_witness :
  let s := settings (generateAiSettings quiet_analysis) in
  0 <= masterGain s <= Rpower 10 0.2 - 1 /\
  masterGain s < 0.585 /\
  0 <= softClip s <= 0.5 /\
  map frequency (eq s) = DEFAULT_EQ_FREQUENCIES /\
  Forall (fun b => -4 <= gain b <= 4 /\ (frequency b <= 8000 -> -3 <= gain b <= 3))
         (eq s) /\
  reverb s = reverb DEFAULT_SETTINGS /\
  air s = air DEFAULT_SETTINGS /\
  ~ (stereoBass s <> 0 /\ dynamicBass s <> 0) /\
  in_declared_ranges s.
Proof.
  apply (generateAiSettings_ranges quiet_analysis). cbn [rms quiet_analysis]. lra.
Defined.

(** The loudness decision.  The assistant either leaves the level alone or
    raises it by at least 2 dB; it never lowers it.  The track is left alone
    (unity master gain, ceiling 0, soft clip 0.05, default compressor)
    exactly when its estimated loudness is above -12 LUFS; otherwise the
    ceiling becomes -0.3 and the master gain is positive, and the compressor
    is engaged exactly when the estimate is below -13 LUFS. *)
Theorem generateAiSettings_loudness (analysis : AnalysisResult) :
  0 < rms analysis ->
  let s := settings (generateAiSettings analysis) in
  let est := estimatedLUFS analysis in
  (gainNeeded analysis = 0 \/ 2 <= gainNeeded analysis) /\
  (-12 < est ->
     gainNeeded analysis = 0 /\ masterGain s = 0 /\ ceiling s = 0 /\
     softClip s = 0.05 /\ compressor s = compressor DEFAULT_SETTINGS) /\
  (est <= -12 ->
     2 <= gainNeeded analysis /\ 0 < masterGain s /\ ceiling s = -0.3 /\
     (est < -13 ->
        compressor s
        = {| threshold := -16; ratio := 2.0; attack := 0.010; release := 0.15 |}) /\
     (-13 <= est -> compressor s = compressor DEFAULT_SETTINGS)).
Proof.
  intros _ s est.
  destruct (generateAiSettings_fields analysis) as [Hmg [Hsc [Hce [Hco _]]]].
  fold s in Hmg, Hsc, Hce, Hco.
  destruct (gainNeeded_cases analysis) as [Hhi [Hmid Hlo]]. fold est in Hhi, Hmid, Hlo.
  split; [|split].
  - destruct (Rlt_le_dec (-12) est) as [H|H]; [left; auto|right].
    destruct (Rlt_le_dec est (-24)) as [H'|H'].
    + rewrite Hlo by assumption. lra.
    + rewrite Hmid by lra. lra.
  - intro H. specialize (Hhi H). rewrite Hmg, Hsc, Hce, Hco, Hhi.
    destruct (Rgt_dec 0 0.5); [lra|]. repeat split; lra.
  - intro H.
    assert (Hg : 2 <= gainNeeded analysis /\
                 (est < -13 -> 3 < gainNeeded analysis) /\
                 (-13 <= est -> gainNeeded analysis <= 3)).
    { destruct (Rlt_le_dec est (-24)) as [H'|H'].
      - rewrite Hlo by assumption. repeat split; intros; lra.
      - rewrite Hmid by lra. repeat split; intros; lra. }
    destruct Hg as [Hg2 [Hg3 Hg3']].
    rewrite Hmg, Hce, Hco.
    destruct (Rgt_dec (gainNeeded analysis) 0.5) as [_|Hn]; [|lra].
    split; [exact Hg2|]. split; [|split; [reflexivity|split]].
    + rewrite Math_pow_ten.
      set (y := Math_min (gainNeeded analysis) 4.0 / 20).
      assert (Hy : 0.1 <= y <= 0.2).
      { unfold y, Math_min, Rmin. destruct (Rle_dec (gainNeeded analysis) 4.0); lra. }
      assert (H1 : 1 < Rpower 10 y).
      { rewrite <- (Rpower_O 10) by lra. apply Rpower_lt; lra. }
      assert (H2 : Rpower 10 y <= Rpower 10 0.2) by (apply Rle_Rpower; lra).
      pose proof fifth_root_of_ten. rewrite clamp_inside; lra.
    + intro H13. destruct (Rgt_dec (gainNeeded analysis) 3); [reflexivity|].
      specialize (Hg3 H13). lra.
    + intro H13. destruct (Rgt_dec (gainNeeded analysis) 3) as [H3|]; [|reflexivity].
      specialize (Hg3' H13). lra.
Qed.

Lemma generateAiSettings_loudness_witness :
  gainNeeded quiet_analysis = 0 \/ 2 <= gainNeeded quiet_analysis.
Proof.
  refine (proj1 (generateAiSettings_loudness quiet_analysis _)).
  cbn [rms quiet_analysis]. lra.
Defined.

End AssistantRanges.

(** * The wave-shaper curves *)

Section Curves.
Import Js Types Constants WebAudio Engine.
Local Open Scope R_scope.

(** The abscissa of curve entry [i]: [(i * 2) / n_samples - 1]. *)
Definition curve_x (i : nat) : R := (INR i * 2) / INR n_samples - 1.

Lemma INR_n_samples : INR n_samples = 4096.
Proof.
  unfold n_samples. change 4096%nat with (Z.to_nat 4096).
  rewrite INR_IZR_INZ, Z2Nat.id by lia. reflexivity.
Qed.

Lemma curve_x_range (i : nat) : (i < n_samples)%nat -> -1 <= curve_x i < 1.
Proof.
  intro Hi. unfold curve_x. rewrite INR_n_samples.
  assert (H0 : 0 <= INR i) by apply pos_INR.
  assert (H1 : INR i < 4096) by (rewrite <- INR_n_samples; now apply lt_INR).
  lra.
Qed.

Lemma curve_x_mirror (i : nat) :
  (i <= n_samples)%nat -> curve_x (n_samples - i) = - curve_x i.
Proof.
  intro Hi. unfold curve_x. rewrite minus_INR by exact Hi.
  rewrite INR_n_samples. lra.
Qed.

Lemma curve_x_increasing (i j : nat) : (i <= j)%nat -> curve_x i <= curve_x j.
Proof.
  intro H. unfold curve_x. rewrite INR_n_samples. apply le_INR in H. lra.
Qed.

Lemma fillCurve_length (f : nat -> R) : List.length (fillCurve f) = n_samples.
Proof. unfold fillCurve. now rewrite length_map, length_seq. Qed.

Lemma fillCurve_nth (f : nat -> R) (i : nat) :
  (i < n_samples)%nat -> nth_error (fillCurve f) i = Some (f i).
Proof.
  intro Hi. unfold fillCurve. apply map_nth_error.
  rewrite nth_error_nth' with (d := 0%nat) by (rewrite length_seq; exact Hi).
  now rewrite seq_nth.
Qed.

(** The saturation transfer function at drive [d]. *)
Definition tape (d x : R) : R := (PI + d) * x / (PI + d * Math_abs x).

Lemma tape_odd (d x : R) : tape d (- x) = - tape d x.
Proof. unfold tape, Math_abs. rewrite Rabs_Ropp. unfold Rdiv. ring. Qed.

Lemma tape_denominator (d x : R) : 0 <= d -> 0 < PI + d * Math_abs x.
Proof.
  intro Hd. pose proof PI_RGT_0. pose proof (Rabs_pos x). unfold Math_abs. nra.
Qed.

Lemma tape_nonneg (d x y : R) :
  0 <= d -> 0 <= x <= y -> 0 <= tape d x <= tape d y.
Proof.
  intros Hd [Hx Hxy]. unfold tape, Math_abs.
  rewrite !Rabs_pos_eq by lra.
  pose proof PI_RGT_0 as Hpi.
  assert (Dx : 0 < PI + d * x) by nra.
  assert (Dy : 0 < PI + d * y) by nra.
  split.
  - apply Rmult_le_pos; [nra | left; now apply Rinv_0_lt_compat].
  - apply (Rmult_le_reg_r ((PI + d * x) * (PI + d * y))); [nra|].
    replace ((PI + d) * x / (PI + d * x) * ((PI + d * x) * (PI + d * y)))
      with ((PI + d) * x * (PI + d * y)) by (field; lra).
    replace ((PI + d) * y / (PI + d * y) * ((PI + d * x) * (PI + d * y)))
      with ((PI + d) * y * (PI + d * x)) by (field; lra).
    assert (H : 0 <= (PI + d) * PI * (y - x))
      by (apply Rmult_le_pos; [apply Rmult_le_pos|]; lra).
    replace ((PI + d) * y * (PI + d * x))
      with ((PI + d) * x * (PI + d * y) + (PI + d) * PI * (y - x)) by ring.
    lra.
Qed.

Lemma tape_monotone (d x y : R) : 0 <= d -> x <= y -> tape d x <= tape d y.
Proof.
  intros Hd Hxy.
  destruct (Rle_lt_dec 0 x) as [Hx|Hx].
  - apply (tape_nonneg d x y Hd). lra.
  - destruct (Rle_lt_dec 0 y) as [Hy|Hy].
    + pose proof (tape_nonneg d 0 (- x) Hd ltac:(lra)) as [_ H1].
      pose proof (tape_nonneg d 0 y Hd ltac:(lra)) as [_ H2].
      rewrite tape_odd in H1.
      assert (H0 : tape d 0 = 0) by (unfold tape, Rdiv; ring).
      lra.
    + pose proof (tape_nonneg d (- y) (- x) Hd ltac:(lra)) as [_ H1].
      rewrite !tape_odd in H1. lra.
Qed.

Lemma tape_one (d : R) : 0 <= d -> tape d 1 = 1.
Proof.
  intro Hd. unfold tape, Math_abs. rewrite Rabs_pos_eq by lra.
  pose proof PI_RGT_0. field. lra.
Qed.

Lemma makeDistortionCurve_nth (amount : R) (i : nat) :
  (i < n_samples)%nat ->
  nth_error (makeDistortionCurve amount) i
  = Some (if Req_dec_T (amount * 10.0) 0 then curve_x i
          else tape (amount * 10.0) (curve_x i)).
Proof. intro Hi. unfold makeDistortionCurve. now rewrite fillCurve_nth. Qed.

(** The saturation curve.  For every amount that is not negative the table
    has 4096 entries, all of [-1,1]; it starts at -1, passes through 0 at its
    centre, never decreases, and is odd about the centre.  At amount 0 it is
    the identity ramp [i / 2048 - 1]. *)
Theorem makeDistortionCurve_shape (amount : R) :
  0 <= amount ->
  List.length (makeDistortionCurve amount) = 4096%nat /\
  nth_error (makeDistortionCurve amount) 0 = Some (-1) /\
  nth_error (makeDistortionCurve amount) 2048 = Some 0 /\
  (forall i y, nth_error (makeDistortionCurve amount) i = Some y -> -1 <= y <= 1) /\
  (forall i j y z, (i <= j)%nat ->
     nth_error (makeDistortionCurve amount) i = Some y ->
     nth_error (makeDistortionCurve amount) j = Some z -> y <= z) /\
  (forall i y, (1 <= i)%nat ->
     nth_error (makeDistortionCurve amount) i = Some y ->
     nth_error (makeDistortionCurve amount) (4096 - i) = Some (- y)) /\
  (amount = 0 ->
     forall i, (i < 4096)%nat ->
       nth_error (makeDistortionCurve amount) i = Some (INR i / 2048 - 1)).
Proof.
  intro Ha.
  assert (Hd : 0 <= amount * 10.0) by lra.
  set (d := amount * 10.0) in *.
  set (f := fun x => if Req_dec_T d 0 then x else tape d x).
  assert (Hnth : forall i, (i < n_samples)%nat ->
                   nth_error (makeDistortionCurve amount) i = Some (f (curve_x i)))
    by (intros i Hi; rewrite makeDistortionCurve_nth by exact Hi; reflexivity).
  assert (Hlen : List.length (makeDistortionCurve amount) = n_samples)
    by apply fillCurve_length.
  assert (Hin : forall i y, nth_error (makeDistortionCurve amount) i = Some y ->
                  (i < n_samples)%nat /\ y = f (curve_x i)).
  { intros i y Hy.
    assert (Hi : (i < n_samples)%nat)
      by (rewrite <- Hlen; apply nth_error_Some; congruence).
    split; [exact Hi|]. rewrite (Hnth i Hi) in Hy. congruence. }
  assert (Hodd : forall x, f (- x) = - f x)
    by (intro x; unfold f; destruct (Req_dec_T d 0); [reflexivity | apply tape_odd]).
  assert (Hmono : forall x y, x <= y -> f x <= f y)
    by (intros x y Hxy; unfold f; destruct (Req_dec_T d 0);
        [exact Hxy | now apply tape_monotone]).
  assert (Hone : f 1 = 1)
    by (unfold f; destruct (Req_dec_T d 0); [reflexivity | now apply tape_one]).
  assert (Hx0 : curve_x 0 = -1) by (unfold curve_x; rewrite INR_n_samples; simpl; lra).
  assert (Hxc : curve_x 2048 = 0).
  { unfold curve_x. rewrite INR_n_samples.
    change 2048%nat with (Z.to_nat 2048). rewrite INR_IZR_INZ, Z2Nat.id by lia. lra. }
  change 4096%nat with n_samples.
  split; [exact Hlen|]. split; [|split; [|split; [|split; [|split]]]].
  - rewrite Hnth by (unfold n_samples; lia). rewrite Hx0.
    replace (-1) with (- (1)) by lra. rewrite Hodd, Hone. reflexivity.
  - rewrite Hnth by (unfold n_samples; lia). rewrite Hxc.
    f_equal. pose proof (Hodd 0) as H. rewrite Ropp_0 in H. lra.
  - intros i y Hy. destruct (Hin i y Hy) as [Hi ->].
    pose proof (curve_x_range i Hi) as [H1 H2].
    pose proof (Hmono (-1) (curve_x i) H1) as Hlo.
    pose proof (Hmono (curve_x i) 1 ltac:(lra)) as Hhi.
    replace (-1) with (- (1)) in Hlo by lra. rewrite Hodd, Hone in Hlo.
    rewrite Hone in Hhi. lra.
  - intros i j y z Hij Hy Hz.
    destruct (Hin i y Hy) as [Hi ->]. destruct (Hin j z Hz) as [Hj ->].
    apply Hmono. now apply curve_x_increasing.
  - intros i y Hi1 Hy. destruct (Hin i y Hy) as [Hi ->].
    rewrite Hnth by lia. rewrite curve_x_mirror by lia. now rewrite Hodd.
  - intros Hz i Hi. rewrite Hnth by exact Hi. unfold f.
    destruct (Req_dec_T d 0) as [_|Hne]; [|unfold d in Hne; lra].
    unfold curve_x. rewrite INR_n_samples. f_equal. lra.
Qed.

Lemma makeDistortionCurve_shape_witness :
  List.length (makeDistortionCurve 0.04) = 4096%nat /\
  nth_error (makeDistortionCurve 0.04) 0 = Some (-1) /\
  nth_error (makeDistortionCurve 0.04) 2048 = Some 0.
Proof.
  assert (H : 0 <= 0.04) by lra.
  pose proof (makeDistortionCurve_shape 0.04 H) as S.
  exact (conj (proj1 S) (conj (proj1 (proj2 S)) (proj1 (proj2 (proj2 S))))).
Defined.

(** *** The soft-clip curve *)

Lemma tanh_exp (x : R) : tanh x = (exp x * exp x - 1) / (exp x * exp x + 1).
Proof.
  unfold tanh, sinh, cosh. rewrite exp_Ropp. pose proof (exp_pos x). field.
  split; nra.
Qed.

Lemma tanh_odd (x : R) : tanh (- x) = - tanh x.
Proof.
  rewrite !tanh_exp, exp_Ropp. pose proof (exp_pos x). field. split; nra.
Qed.

Lemma tanh_monotone (x y : R) : x <= y -> tanh x <= tanh y.
Proof.
  intro Hxy. rewrite !tanh_exp.
  pose proof (exp_pos x) as Hx. pose proof (exp_pos y) as Hy.
  assert (He : exp x <= exp y).
  { destruct Hxy as [Hlt| ->]; [left; now apply exp_increasing | right; reflexivity]. }
  set (a := exp x) in *. set (b := exp y) in *.
  apply (Rmult_le_reg_r ((a * a + 1) * (b * b + 1))); [nra|].
  replace ((a * a - 1) / (a * a + 1) * ((a * a + 1) * (b * b + 1)))
    with ((a * a - 1) * (b * b + 1)) by (field; nra).
  replace ((b * b - 1) / (b * b + 1) * ((a * a + 1) * (b * b + 1)))
    with ((b * b - 1) * (a * a + 1)) by (field; nra).
  nra.
Qed.

Lemma tanh_pos (x : R) : 0 < x -> 0 < tanh x.
Proof.
  intro Hx. rewrite tanh_exp. pose proof (exp_pos x) as He.
  assert (H1 : 1 < exp x) by (rewrite <- exp_0; now apply exp_increasing).
  apply Rmult_lt_0_compat; [nra | apply Rinv_0_lt_compat; nra].
Qed.

Lemma tanh_0 : tanh 0 = 0.
Proof. rewrite tanh_exp, exp_0. unfold Rdiv. ring. Qed.

(** The soft-clip transfer function at steepness [k]. *)
Definition sigmoid (k x : R) : R := tanh (k * x) / tanh k.

Lemma makeSoftClipCurve_nth (amount : R) (i : nat) :
  (i < n_samples)%nat ->
  nth_error (makeSoftClipCurve amount) i
  = Some (if Req_dec_T amount 0 then curve_x i
          else sigmoid (1 + amount * 2) (curve_x i)).
Proof. intro Hi. unfold makeSoftClipCurve. now rewrite fillCurve_nth. Qed.

(** The soft-clip curve.  For every amount that is not negative the table
    has 4096 entries, all of [-1,1]; it starts at -1, passes through 0 at its
    centre, never decreases, and is odd about the centre.  At amount 0 it is
    the identity ramp [i / 2048 - 1]. *)
Theorem makeSoftClipCurve_shape (amount : R) :
  0 <= amount ->
  List.length (makeSoftClipCurve amount) = 4096%nat /\
  nth_error (makeSoftClipCurve amount) 0 = Some (-1) /\
  nth_error (makeSoftClipCurve amount) 2048 = Some 0 /\
  (forall i y, nth_error (makeSoftClipCurve amount) i = Some y -> -1 <= y <= 1) /\
  (forall i j y z, (i <= j)%nat ->
     nth_error (makeSoftClipCurve amount) i = Some y ->
     nth_error (makeSoftClipCurve amount) j = Some z -> y <= z) /\
  (forall i y, (1 <= i)%nat ->
     nth_error (makeSoftClipCurve amount) i = Some y ->
     nth_error (makeSoftClipCurve amount) (4096 - i) = Some (- y)) /\
  (amount = 0 ->
     forall i, (i < 4096)%nat ->
       nth_error (makeSoftClipCurve amount) i = Some (INR i / 2048 - 1)).
Proof.
  intro Ha.
  set (k := 1 + amount * 2).
  assert (Hk : 0 < k) by (unfold k; lra).
  assert (Htk : 0 < tanh k) by now apply tanh_pos.
  set (f := fun x => if Req_dec_T amount 0 then x else sigmoid k x).
  assert (Hnth : forall i, (i < n_samples)%nat ->
                   nth_error (makeSoftClipCurve amount) i = Some (f (curve_x i)))
    by (intros i Hi; rewrite makeSoftClipCurve_nth by exact Hi; reflexivity).
  assert (Hlen : List.length (makeSoftClipCurve amount) = n_samples)
    by apply fillCurve_length.
  assert (Hin : forall i y, nth_error (makeSoftClipCurve amount) i = Some y ->
                  (i < n_samples)%nat /\ y = f (curve_x i)).
  { intros i y Hy.
    assert (Hi : (i < n_samples)%nat)
      by (rewrite <- Hlen; apply nth_error_Some; congruence).
    split; [exact Hi|]. rewrite (Hnth i Hi) in Hy. congruence. }
  assert (Hodd : forall x, f (- x) = - f x).
  { intro x. unfold f. destruct (Req_dec_T amount 0); [reflexivity|].
    unfold sigmoid. replace (k * - x) with (- (k * x)) by ring.
    rewrite tanh_odd. unfold Rdiv. ring. }
  assert (Hmono : forall x y, x <= y -> f x <= f y).
  { intros x y Hxy. unfold f. destruct (Req_dec_T amount 0); [exact Hxy|].
    unfold sigmoid. apply Rmult_le_compat_r; [left; now apply Rinv_0_lt_compat|].
    apply tanh_monotone. nra. }
  assert (Hone : f 1 = 1).
  { unfold f. destruct (Req_dec_T amount 0); [reflexivity|].
    unfold sigmoid. rewrite Rmult_1_r. field. lra. }
  assert (Hx0 : curve_x 0 = -1) by (unfold curve_x; rewrite INR_n_samples; simpl; lra).
  assert (Hxc : curve_x 2048 = 0).
  { unfold curve_x. rewrite INR_n_samples.
    change 2048%nat with (Z.to_nat 2048). rewrite INR_IZR_INZ, Z2Nat.id by lia. lra. }
  change 4096%nat with n_samples.
  split; [exact Hlen|]. split; [|split; [|split; [|split; [|split]]]].
  - rewrite Hnth by (unfold n_samples; lia). rewrite Hx0.
    replace (-1) with (- (1)) by lra. rewrite Hodd, Hone. reflexivity.
  - rewrite Hnth by (unfold n_samples; lia). rewrite Hxc.
    f_equal. pose proof (Hodd 0) as H. rewrite Ropp_0 in H. lra.
  - intros i y Hy. destruct (Hin i y Hy) as [Hi ->].
    pose proof (curve_x_range i Hi) as [H1 H2].
    pose proof (Hmono (-1) (curve_x i) H1) as Hlo.
    pose proof (Hmono (curve_x i) 1 ltac:(lra)) as Hhi.
    replace (-1) with (- (1)) in Hlo by lra. rewrite Hodd, Hone in Hlo.
    rewrite Hone in Hhi. lra.
  - intros i j y z Hij Hy Hz.
    destruct (Hin i y Hy) as [Hi ->]. destruct (Hin j z Hz) as [Hj ->].
    apply Hmono. now apply curve_x_increasing.
  - intros i y Hi1 Hy. destruct (Hin i y Hy) as [Hi ->].
    rewrite Hnth by lia. rewrite curve_x_mirror by lia. now rewrite Hodd.
  - intros Hz i Hi. rewrite Hnth by exact Hi. unfold f.
    destruct (Req_dec_T amount 0) as [_|Hne]; [|lra].
    unfold curve_x. rewrite INR_n_samples. f_equal. lra.
Qed.

Lemma makeSoftClipCurve_shape_witness :
  List.length (makeSoftClipCurve 0.3) = 4096%nat /\
  nth_error (makeSoftClipCurve 0.3) 0 = Some (-1) /\
  nth_error (makeSoftClipCurve 0.3) 2048 = Some 0.
Proof.
  assert (H : 0 <= 0.3) by lra.
  pose proof (makeSoftClipCurve_shape 0.3 H) as S.
  exact (conj (proj1 S) (conj (proj1 (proj2 S)) (proj1 (proj2 (proj2 S))))).
Defined.

End Curves.

(** * Settings the application installs: defaults, presets, sliders *)

Section SettingsFacts.
Import Js Types Constants Assistant Engine.
Local Open Scope R_scope.

Lemma sortEq_of_sorted (l : list EQBand) : Sorted by_frequency l -> sortEq l = l.
Proof.
  induction 1 as [|x l Hs IH Hd]; [reflexivity|].
  unfold sortEq, Array_sort in *. cbn [fold_right]. rewrite IH.
  destruct Hd as [|y l' Hxy]; [reflexivity|]. cbn [insertSorted].
  destruct (Rle_dec (frequency x - frequency y) 0); [reflexivity|].
  unfold by_frequency in Hxy. lra.
Qed.

Lemma sortEq_sorted (l : list EQBand) : Sorted by_frequency (sortEq l).
Proof.
  induction l as [|x l IH]; [constructor|].
  unfold sortEq, Array_sort in *. cbn [fold_right].
  now apply insertSorted_sorted.
Qed.

Lemma Sorted_same_frequency (l l' : list EQBand) :
  Forall2 same_frequency l l' -> Sorted by_frequency l -> Sorted by_frequency l'.
Proof.
  induction 1 as [|x x' l l' Hx Hl IH]; intro Hs; [constructor|].
  inversion Hs as [|? ? Hs' Hd]; subst. constructor; [now apply IH|].
  destruct Hl as [|y y' l l' Hy Hl]; constructor.
  inversion Hd; subst. unfold by_frequency, same_frequency in *. lra.
Qed.

Lemma default_frequencies_sorted (l : list EQBand) :
  map frequency l = DEFAULT_EQ_FREQUENCIES -> Sorted by_frequency l.
Proof.
  unfold DEFAULT_EQ_FREQUENCIES. intro H.
  do 14 (destruct l as [|? l]; [discriminate H|]).
  destruct l; [|discriminate H].
  cbn [map] in H. injection H as H1 H2 H3 H4 H5 H6 H7 H8 H9 H10 H11 H12 H13 H14.
  repeat constructor; unfold by_frequency; lra.
Qed.

Lemma orElse_nth (gains : list R) (i : nat) :
  orElse (nth_error gains i) 0 = nth i gains 0.
Proof.
  revert i. induction gains as [|g gains IH]; intros [|i]; cbn; try reflexivity.
  - destruct (Req_dec_T g 0); [symmetry; assumption | reflexivity].
  - apply IH.
Qed.

Lemma mapi_from_ext {A B : Type} (f g : A -> nat -> B) (l : list A) :
  (forall x i, f x i = g x i) -> forall start, mapi_from start f l = mapi_from start g l.
Proof.
  intros H. induction l as [|x l IH]; intro start; simpl; [reflexivity|].
  now rewrite H, IH.
Qed.

Lemma createEQ_bands (gains : list R) :
  App.createEQ gains
  = mapi (fun f i => {| frequency := f; gain := nth i gains 0 |}) DEFAULT_EQ_FREQUENCIES.
Proof.
  unfold App.createEQ, mapi. apply mapi_from_ext. intros f i. now rewrite orElse_nth.
Qed.

(** [createEQ(gains)] always yields the 14 default frequencies, in ascending
    order; band [i] has the gain [gains[i]], or 0 where [gains] has no entry
    (entries beyond the fourteenth are ignored), so the fallback [|| 0] never
    changes a gain that was given; sorting the result changes nothing. *)
Theorem createEQ_spec (gains : list R) :
  List.length (App.createEQ gains) = 14%nat /\
  map frequency (App.createEQ gains) = DEFAULT_EQ_FREQUENCIES /\
  (forall i, (i < 14)%nat ->
     option_map gain (nth_error (App.createEQ gains) i) = Some (nth i gains 0)) /\
  sortEq (App.createEQ gains) = App.createEQ gains.
Proof.
  rewrite createEQ_bands.
  assert (Hf : map frequency
                 (mapi (fun f i => {| frequency := f; gain := nth i gains 0 |})
                       DEFAULT_EQ_FREQUENCIES) = DEFAULT_EQ_FREQUENCIES) by reflexivity.
  split; [reflexivity|]. split; [exact Hf|]. split.
  - intros i Hi. rewrite nth_error_mapi.
    do 14 (destruct i as [|i]; [reflexivity|]). lia.
  - apply sortEq_of_sorted, default_frequencies_sorted, Hf.
Qed.

Lemma generateAiSettings_frequencies (analysis : AnalysisResult) :
  map frequency (eq (settings (generateAiSettings analysis))) = DEFAULT_EQ_FREQUENCIES.
Proof.
  rewrite generateAiSettings_eq.
  assert (H : Forall2 (fun a b => frequency b = frequency a)
                (eq DEFAULT_SETTINGS) (mapi (matchBand analysis) (eq DEFAULT_SETTINGS))).
  { unfold mapi. apply mapi_from_Forall2. intros b i. unfold matchBand.
    destruct (nth_error (spectralBalance analysis) i); reflexivity. }
  transitivity (map frequency (eq DEFAULT_SETTINGS)).
  - induction H; simpl; [reflexivity | congruence].
  - reflexivity.
Qed.

Lemma PRESETS_frequencies (key : Presets.PresetName) :
  map frequency (eq (Presets.settings (Presets.PRESETS key))) = DEFAULT_EQ_FREQUENCIES.
Proof. destruct key; reflexivity. Qed.

(** Filter stage [i] is slider [i].  The graph builders sort the bands by
    frequency before they create the stages; for the default settings, every
    preset, every result of the assistant and every settings value reached
    from these by moving EQ sliders, the band array is already in ascending
    order, so sorting leaves it as it is. *)
Theorem stages_follow_sliders :
  (forall l, map frequency l = DEFAULT_EQ_FREQUENCIES -> sortEq l = l) /\
  sortEq (eq DEFAULT_SETTINGS) = eq DEFAULT_SETTINGS /\
  (forall key,
     sortEq (eq (Presets.settings (Presets.PRESETS key)))
     = eq (Presets.settings (Presets.PRESETS key))) /\
  (forall analysis,
     sortEq (eq (settings (generateAiSettings analysis)))
     = eq (settings (generateAiSettings analysis))) /\
  (forall index g prev,
     sortEq (eq prev) = eq prev ->
     sortEq (eq (App.handleEQChange index g prev))
     = eq (App.handleEQChange index g prev)).
Proof.
  assert (H : forall l, map frequency l = DEFAULT_EQ_FREQUENCIES -> sortEq l = l)
    by (intros l Hl; apply sortEq_of_sorted, default_frequencies_sorted, Hl).
  split; [exact H|]. split; [apply H; reflexivity|].
  split; [intro key; apply H, PRESETS_frequencies|].
  split; [intro analysis; apply H, generateAiSettings_frequencies|].
  intros index g prev Hprev. apply sortEq_of_sorted.
  apply (Sorted_same_frequency (eq prev)).
  - unfold App.handleEQChange. destruct prev; cbn [eq set_eq]. unfold mapi.
    apply mapi_from_Forall2. intros x i. unfold same_frequency.
    destruct (i =? index)%nat; reflexivity.
  - rewrite <- Hprev. apply sortEq_sorted.
Qed.

Ltac ranges :=
  unfold in_declared_ranges; cbn -[App.createEQ];
  rewrite ?createEQ_bands; cbn;
  repeat split; try lra;
  repeat (constructor; [cbn; lra|]); try constructor.

(** Every preset is filed under its own name, has the 14 default
    frequencies, and keeps every field inside the range its type declares;
    ['Manual'] is [DEFAULT_SETTINGS].  [applyPreset] installs the preset's
    settings as they are and hands the same value to the engine;
    [handleReset] installs [DEFAULT_SETTINGS]. *)
Theorem PRESETS_valid (key : Presets.PresetName) :
  Presets.name (Presets.PRESETS key) = key /\
  map frequency (eq (Presets.settings (Presets.PRESETS key))) = DEFAULT_EQ_FREQUENCIES /\
  in_declared_ranges (Presets.settings (Presets.PRESETS key)) /\
  Presets.settings (Presets.PRESETS Presets.Manual) = DEFAULT_SETTINGS /\
  (forall st e,
     Handlers.applyPreset key st e
     = (Handlers.mkAppState (Presets.settings (Presets.PRESETS key)) key,
        updateSettings (Presets.settings (Presets.PRESETS key)) e)) /\
  (forall st e,
     Handlers.app_settings (fst (Handlers.handleReset st e)) = DEFAULT_SETTINGS).
Proof.
  split; [destruct key; reflexivity|].
  split; [apply PRESETS_frequencies|].
  split; [destruct key; ranges|].
  split; [reflexivity|]. split; intros st e; reflexivity.
Qed.

End SettingsFacts.

(** * Loading a file; what a render depends on *)

Section LoadAndSeek.
Import Js Types Constants WebAudio Engine.
Local Open Scope R_scope.

(** [loadFile] stores a new buffer object holding the decoded samples, and
    creates the audio context only when the engine has none: an existing
    context is kept (with its graph and clock), a new one runs at the host's
    rate with an empty graph.  The graph nodes, the impulse-response cache and
    the transport fields are not written, and no random number is drawn. *)
Theorem loadFile_spec (hostRate : nat) (decoded : AudioBufferData)
  (e : AudioEngine) (w : World) :
  let '(buffer, e', w') := loadFile hostRate decoded e w in
  audioBuffer e' = Some buffer /\
  buf_data buffer = decoded /\
  getDuration e' = INR (length decoded) / INR (sampleRate decoded) /\
  (forall c, audioContext e = Some c ->
     audioContext e' = Some c /\ buf_id buffer = next_id w /\
     next_id w' = S (next_id w)) /\
  (audioContext e = None ->
     audioContext e' = Some (mkAudioContext (next_id w) hostRate 0 running emptyGraph) /\
     buf_id buffer = S (next_id w) /\
     next_id w' = S (S (next_id w))) /\
  e' = set_audioBuffer (Some buffer) (set_audioContext (audioContext e') e) /\
  random w' = random w /\ drawn w' = drawn w.
Proof.
  unfold loadFile, initContext, newAudioContext, fresh_id.
  destruct (audioContext e) as [c|] eqn:Hc; cbn.
  - repeat split; congruence.
  - repeat split; intros; try discriminate; repeat split.
Qed.

Lemma pause_keeps (e : AudioEngine) (c : AudioContext) (b : AudioBuffer) :
  audioContext e = Some c -> audioBuffer e = Some b ->
  exists g,
    audioContext (pause e) = Some (with_graph g c) /\
    audioBuffer (pause e) = Some b.
Proof.
  intros Hc Hb. unfold pause.
  destruct (sourceNode e) as [source|]; [|exists (ac_graph c); now destruct c].
  destruct (isPlaying e); [|exists (ac_graph c); now destruct c].
  rewrite Hc. cbn. eexists. split; [reflexivity | exact Hb].
Qed.

Lemma seek_while_playing (time : R) (settings : MasteringSettings)
  (e : AudioEngine) (w : World) (c : AudioContext) (b : AudioBuffer) :
  audioContext e = Some c -> audioBuffer e = Some b -> isPlaying e = true ->
  let r := seek time settings e w in
  (0 <= time ->
   outcome r = Return tt /\
   isPlaying (engine_after r) = true /\
   audioBuffer (engine_after r) = Some b /\
   getCurrentTime (engine_after r) = time /\
   (forall dt, getCurrentTime (elapse dt (engine_after r)) = time + dt)) /\
  (time < 0 ->
   outcome r = Throw "RangeError" /\
   isPlaying (engine_after r) = isPlaying (pause e) /\
   pausedAt (engine_after r) = time).
Proof.
  intros Hc Hb Hp r. subst r. unfold seek. rewrite Hp.
  destruct (pause_keeps e c b Hc Hb) as [g [Hc' Hb']].
  destruct (play_run time settings (pause e) w _ b Hc' Hb')
    as [g' [source [e1 [st [Hret [Hthrow Hb1]]]]]].
  cbv zeta in Hret, Hthrow. split.
  - intro Htime. rewrite (Hret Htime). cbn [outcome engine_after].
    split; [reflexivity|]. split; [reflexivity|]. split; [exact Hb1|].
    split.
    + unfold getCurrentTime. cbn. ring.
    + intro dt. unfold getCurrentTime, elapse. cbn. ring.
  - intro Htime. rewrite (Hthrow Htime). cbn [outcome engine_after].
    repeat split.
Qed.

Lemma play_ready (offset : R) (settings : MasteringSettings) (e : AudioEngine)
  (w : World) (c : AudioContext) (b : AudioBuffer) :
  audioContext e = Some c -> audioBuffer e = Some b -> 0 <= offset ->
  exists c',
    audioContext (engine_after (play offset settings e w)) = Some c' /\
    audioBuffer (engine_after (play offset settings e w)) = Some b /\
    isPlaying (engine_after (play offset settings e w)) = true.
Proof.
  intros Hc Hb Hoff.
  destruct (play_run offset settings e w c b Hc Hb)
    as [g [source [e1 [st [Hret [_ Hb1]]]]]].
  cbv zeta in Hret. rewrite (Hret Hoff). cbn [engine_after].
  eexists. split; [reflexivity|].
  split; [exact Hb1 | reflexivity].
Qed.

Lemma engine1_other_buffer :
  audioBuffer (set_transport 3 1 true
                 (set_impulseResponse (Some (mkAudioBuffer 7 decoded0)) 5
                    (set_audioBuffer (Some (mkAudioBuffer 8 decoded0)) engine1)))
  = Some (mkAudioBuffer 8 decoded0).
Proof. reflexivity. Qed.

Lemma renderOffline_depends_on_witness :
  outcome (renderOffline DEFAULT_SETTINGS engine1 world1)
  = outcome (renderOffline DEFAULT_SETTINGS
               (set_transport 3 1 true
                  (set_impulseResponse (Some (mkAudioBuffer 7 decoded0)) 5
                     (set_audioBuffer (Some (mkAudioBuffer 8 decoded0)) engine1)))
               (mkWorld 40 (random world1) (drawn world1))).
Proof.
  exact (renderOffline_depends_on DEFAULT_SETTINGS engine1 _ world1
           (mkWorld 40 (random world1) (drawn world1)) _ _
           engine1_buffer engine1_other_buffer eq_refl eq_refl eq_refl).
Defined.

End LoadAndSeek.

(** * The graphs the engine builds *)

Section GraphShape.
Import Js Types Constants WebAudio Engine.
Local Open Scope R_scope.

(** The connections [chain] makes: [head] to the first node, each node to
    the next. *)
Fixpoint links (head : NodeId) (ids : list NodeId) : list Connection :=
  match ids with
  | [] => []
  | n :: ns => mkConnection head 0 n 0 :: links n ns
  end.

Lemma createNodes_spec (ns : list AudioNode) :
  forall g,
    createNodes ns g
    = (seq (List.length (nodes g)) (List.length ns),
       mkGraph (nodes g ++ ns) (connections g)).
Proof.
  induction ns as [|n ns IH]; intro g.
  - cbn. rewrite app_nil_r. now destruct g.
  - cbn [createNodes]. unfold createNode. rewrite IH. cbn [nodes connections].
    rewrite length_app, <- app_assoc. cbn [List.length app seq].
    rewrite Nat.add_1_r. reflexivity.
Qed.

Lemma last_cons {A : Type} (x d : A) (l : list A) : last (x :: l) d = last l x.
Proof.
  revert x d. induction l as [|y l IH]; intros x d; [reflexivity|].
  change (last (x :: y :: l) d) with (last (y :: l) d). now rewrite !IH.
Qed.

Lemma chain_spec (ids : list NodeId) :
  forall head g,
    chain head ids g
    = (last ids head, mkGraph (nodes g) (connections g ++ links head ids)).
Proof.
  induction ids as [|n ns IH]; intros head g.
  - cbn. rewrite app_nil_r. now destruct g.
  - cbn [chain]. rewrite IH. unfold connect. cbn [nodes connections links].
    rewrite last_cons, <- app_assoc. reflexivity.
Qed.

Lemma length_snoc {A : Type} (l : list A) (x : A) :
  List.length (l ++ [x]) = S (List.length l).
Proof. rewrite length_app. simpl. lia. Qed.

Lemma length_mapi_from {A B : Type} (f : A -> nat -> B) (l : list A) :
  forall start, List.length (mapi_from start f l) = List.length l.
Proof. induction l as [|x l IH]; intro start; simpl; [reflexivity | now rewrite IH]. Qed.

Lemma sortEq_perm (bands : list EQBand) : Permutation (sortEq bands) bands.
Proof.
  induction bands as [|x l IH]; [reflexivity|].
  unfold sortEq, Array_sort in *. cbn [fold_right].
  eapply perm_trans; [apply insertSorted_perm | now apply perm_skip].
Qed.

Lemma sortEq_length (bands : list EQBand) :
  List.length (sortEq bands) = List.length bands.
Proof. apply Permutation_length, sortEq_perm. Qed.

Lemma eqStages_length (rate : nat) (bands : list EQBand) :
  List.length (mapi (eqStage rate (sortEq bands)) (sortEq bands)) = List.length bands.
Proof. unfold mapi. now rewrite length_mapi_from, sortEq_length. Qed.

(** *** The offline graph in closed form *)

Definition wire (src dst : NodeId) : Connection := mkConnection src 0 dst 0.

(** The nodes [renderOffline] creates after the EQ stages, in creation
    order; [impulse] is the buffer of the convolver. *)
Definition offlineTail (settings : MasteringSettings) (impulse : AudioBufferData)
  : list AudioNode :=
  [ BiquadFilterNode peaking (param 300) (param 0.7) (param (body settings));
    BiquadFilterNode peaking (param 65) (param 1.2) (param (dynamicBass settings));
    DynamicsCompressorNode (param (threshold (compressor settings))) (param 30)
      (param (Math_max 1 (ratio (compressor settings))))
      (param (attack (compressor settings)))
      (param (release (compressor settings)));
    WaveShaperNode (Some (makeDistortionCurve (saturation settings))) oversample_none;
    BiquadFilterNode highshelf (param 12000) (param 1) (param (air settings));
    GainNode (param (1.0 + masterGain settings));
    WaveShaperNode (Some (makeSoftClipCurve (softClip settings))) oversample_none;
    DynamicsCompressorNode (param (ceiling settings)) (param 30) (param 20)
      (param 0.001) (param 0.1);
    ChannelSplitterNode 2;
    ChannelMergerNode 2;
    GainNode (param 0.5);
    GainNode (param 0.5);
    GainNode (param 0.5);
    GainNode (param (-0.5));
    newGain;
    newGain;
    GainNode (param (1.0 + stereoWidth settings));
    BiquadFilterNode lowshelf (param 120) (param 1) (param (stereoBass settings));
    GainNode (param 1);
    GainNode (param 1);
    GainNode (param 1);
    GainNode (param (-1));
    ConvolverNode (Some impulse);
    BiquadFilterNode lowpass (param 5000) (param 1) (param 0);
    GainNode (param (mix (reverb settings)));
    GainNode (param (1 - mix (reverb settings))) ].

(** The nodes of the context [renderOffline] renders, in creation order. *)
Definition offlineNodes (settings : MasteringSettings) (data impulse : AudioBufferData)
  : list AudioNode :=
  let sorted := sortEq (eq settings) in
  [DestinationNode; BufferSourceNode (Some data) (Some (0, 0))]
  ++ mapi (eqStage (sampleRate data) sorted) sorted
  ++ offlineTail settings impulse.

Lemma offlineNodes_after (settings : MasteringSettings) (data impulse : AudioBufferData)
  (k : nat) :
  nth_error (offlineNodes settings data impulse) (k + 2 + List.length (eq settings))
  = nth_error (offlineTail settings impulse) k.
Proof.
  unfold offlineNodes. cbv zeta.
  rewrite nth_error_app2 by (cbn [List.length]; lia).
  rewrite nth_error_app2 by (rewrite eqStages_length; cbn [List.length]; lia).
  rewrite eqStages_length. cbn [List.length]. f_equal. lia.
Qed.

(** Its connections, in the order they are made; [n] is the number of EQ
    stages, which occupy the identities 2 .. n+1. *)
Definition offlineConnections (n : nat) : list Connection :=
  (links 1 (seq 2 n)
  ++ [ wire (last (seq 2 n) 1) (3 + n);
       wire (3 + n) (2 + n);
       wire (2 + n) (5 + n);
       wire (5 + n) (4 + n);
       wire (4 + n) (27 + n);
       wire (4 + n) (25 + n);
       wire (25 + n) (24 + n);
       wire (24 + n) (26 + n);
       wire (27 + n) (6 + n);
       wire (26 + n) (6 + n);
       wire (6 + n) (10 + n);
       mkConnection (10 + n) 0 (12 + n) 0;
       mkConnection (10 + n) 1 (13 + n) 0;
       mkConnection (10 + n) 0 (14 + n) 0;
       mkConnection (10 + n) 1 (15 + n) 0;
       wire (12 + n) (16 + n);
       wire (13 + n) (16 + n);
       wire (14 + n) (17 + n);
       wire (15 + n) (17 + n);
       wire (17 + n) (19 + n);
       wire (19 + n) (18 + n);
       wire (16 + n) (20 + n);
       wire (18 + n) (21 + n);
       wire (16 + n) (22 + n);
       wire (18 + n) (23 + n);
       mkConnection (20 + n) 0 (11 + n) 0;
       mkConnection (21 + n) 0 (11 + n) 0;
       mkConnection (22 + n) 0 (11 + n) 1;
       mkConnection (23 + n) 0 (11 + n) 1;
       wire (11 + n) (7 + n);
       wire (7 + n) (8 + n);
       wire (8 + n) (9 + n);
       wire (9 + n) destination ])%nat.

Lemma renderOffline_graph (settings : MasteringSettings) (e : AudioEngine)
  (w : World) (buffer : AudioBuffer) :
  audioBuffer e = Some buffer ->
  outcome (renderOffline settings e w)
  = Return
      (startRendering
         (mkRenderJob 2 (length (buf_data buffer)) (sampleRate (buf_data buffer))
            (mkGraph
               (offlineNodes settings (buf_data buffer)
                  (buf_data
                     (fst (synthesizeImpulse
                             (mkBaseAudioContext Offline (next_id w)
                                (sampleRate (buf_data buffer)))
                             3 (decay (reverb settings)) false
                             (mkWorld (S (next_id w)) (random w) (drawn w))))))
               (offlineConnections (List.length (eq settings)))))).
Proof.
  intro Hb. unfold renderOffline. rewrite Hb.
  cbv beta iota zeta delta [fresh_id].
  cbn [oc_graph oc_numberOfChannels oc_length oc_sampleRate].
  rewrite createImpulseResponse_foreign by apply is_engine_context_offline.
  unfold OfflineAudioContext_ref. cbn [oc_id oc_sampleRate].
  set (impulse := synthesizeImpulse _ _ _ _ _).
  pose proof (eqStages_length (sampleRate (buf_data buffer)) (eq settings)) as Hn.
  unfold offlineNodes, offlineTail, offlineConnections.
  set (stages := mapi (eqStage _ (sortEq (eq settings))) (sortEq (eq settings))) in *.
  set (n := List.length (eq settings)) in *.
  cbv beta iota zeta delta [createNode emptyGraph nodes connections fst snd].
  rewrite createNodes_spec.
  cbv beta iota zeta delta [createNode nodes connections fst snd].
  rewrite chain_spec.
  cbv beta iota zeta delta [createNode connect updateNode nodes connections snd outcome].
  do 3 f_equal. f_equal.
  - rewrite <- !app_assoc. reflexivity.
  - rewrite !length_snoc, !length_app, Hn. cbn [List.length Nat.add].
    rewrite <- !app_assoc. reflexivity.
Qed.

Lemma In_links_seq (c : Connection) (n : nat) :
  forall h a,
    In c (links h (seq a n)) <->
    exists j, (j < n)%nat /\
      c = wire (if (j =? 0)%nat then h else (a + j - 1)%nat) (a + j)%nat.
Proof.
  induction n as [|n IH]; intros h a; cbn [seq links In].
  - split; [contradiction | intros [j [Hj _]]; lia].
  - rewrite IH. split.
    + intros [<-|[j [Hj ->]]].
      * exists 0%nat. split; [lia|]. cbn. now rewrite Nat.add_0_r.
      * exists (S j). split; [lia|]. cbn [Nat.eqb]. unfold wire. f_equal; [|lia].
        destruct (Nat.eqb_spec j 0); lia.
    + intros [[|j] [Hj ->]].
      * left. cbn. now rewrite Nat.add_0_r.
      * right. exists j. split; [lia|]. cbn [Nat.eqb]. unfold wire. f_equal; [|lia].
        destruct (Nat.eqb_spec j 0); lia.
Qed.

Lemma last_seq (a n d : nat) :
  last (seq a n) d = if (n =? 0)%nat then d else (a + n - 1)%nat.
Proof.
  revert a d. induction n as [|n IH]; intros a d; [reflexivity|].
  cbn [seq]. rewrite last_cons, IH. cbn [Nat.eqb].
  destruct (Nat.eqb_spec n 0); lia.
Qed.

Ltac in_cases H :=
  cbn [In] in H;
  repeat (destruct H as [H|H];
          [subst; cbn [conn_dst conn_src wire] in *; unfold destination in *; try lia|]);
  try contradiction.

Lemma clampToRange_inside (lo hi v : R) : lo <= v <= hi -> clampToRange lo hi v = v.
Proof.
  intros [H1 H2]. unfold clampToRange, Math_max, Math_min.
  rewrite Rmin_right by exact H2. now rewrite Rmax_right.
Qed.

Lemma clampToRange_above (lo hi v : R) : lo <= hi -> hi <= v -> clampToRange lo hi v = hi.
Proof.
  intros H1 H2. unfold clampToRange, Math_max, Math_min.
  rewrite Rmin_left by exact H2. now rewrite Rmax_right.
Qed.

Lemma nyquist_nonneg (rate : nat) : 0 <= nyquist rate.
Proof. unfold nyquist. pose proof (pos_INR rate). lra. Qed.

(** The EQ stages of an export.  [renderOffline] creates one filter per band
    of [settings.eq], taken in ascending order of frequency: stage [i] has
    the gain of the i-th band of the sorted list, Q = 1, and the band's
    frequency as the host keeps it: clamped to the range from 0 to half the
    buffer's sample rate, so a band inside that range keeps its frequency and
    a band above it sits at the Nyquist frequency.  The first stage is a low
    shelf, the last (when there are at least two) a high shelf, the others
    peaking.  The source feeds stage 0, stage [i-1] is the only input of
    stage [i], and the last stage (the source itself when there are no bands)
    is the only input of the dynamic-bass filter. *)
Theorem renderOffline_eq_stages (settings : MasteringSettings) (e : AudioEngine)
  (w : World) (buffer : AudioBuffer) :
  audioBuffer e = Some buffer ->
  let top := nyquist (sampleRate (buf_data buffer)) in
  exists job,
    outcome (renderOffline settings e w) = Return (startRendering job) /\
    getNode 1%nat (job_graph job)
    = Some (BufferSourceNode (Some (buf_data buffer)) (Some (0, 0))) /\
    (forall i band,
       nth_error (sortEq (eq settings)) i = Some band ->
       exists f,
         getNode (2 + i)%nat (job_graph job)
         = Some (BiquadFilterNode
                   (if (i =? 0)%nat then lowshelf
                    else if (i =? List.length (eq settings) - 1)%nat then highshelf
                         else peaking)
                   (param f) (param 1.0) (param (gain band))) /\
         f = clampToRange 0 top (frequency band) /\
         0 <= f <= top /\
         (0 <= frequency band <= top -> f = frequency band) /\
         (top <= frequency band -> f = top)) /\
    (forall i c,
       (i < List.length (eq settings))%nat ->
       (In c (connections (job_graph job)) /\ conn_dst c = (2 + i)%nat
        <-> c = mkConnection (1 + i)%nat 0 (2 + i)%nat 0)) /\
    getNode (3 + List.length (eq settings))%nat (job_graph job)
    = Some (BiquadFilterNode peaking (param 65) (param 1.2)
              (param (dynamicBass settings))) /\
    (forall c,
       In c (connections (job_graph job)) /\
       conn_dst c = (3 + List.length (eq settings))%nat
       <-> c = mkConnection (1 + List.length (eq settings))%nat 0
                            (3 + List.length (eq settings))%nat 0).
Proof.
  intros Hb top. eexists. split; [apply renderOffline_graph; exact Hb|].
  cbn [job_graph connections getNode nodes].
  pose proof (eqStages_length (sampleRate (buf_data buffer)) (eq settings)) as Hlen.
  set (n := List.length (eq settings)) in *.
  unfold getNode, offlineNodes, offlineTail, offlineConnections. cbn [nodes connections].
  set (stages := mapi (eqStage _ (sortEq (eq settings))) (sortEq (eq settings))) in *.
  split; [reflexivity|]. split; [|split; [|split]].
  - intros i band Hband. eexists. split; [|split; [reflexivity|]].
    + cbn [app Nat.add nth_error].
      rewrite nth_error_app1
        by (rewrite Hlen; unfold n; rewrite <- (sortEq_length (eq settings));
            apply nth_error_Some; congruence).
      unfold stages. rewrite nth_error_mapi, Hband. cbn [option_map].
      unfold eqStage. now rewrite sortEq_length.
    + fold top. pose proof (nyquist_nonneg (sampleRate (buf_data buffer))) as Htop.
      fold top in Htop. split; [|split].
      * unfold clampToRange, Math_max, Math_min.
        split; [apply Rmax_l|]. apply Rmax_lub; [exact Htop | apply Rmin_l].
      * apply clampToRange_inside.
      * apply clampToRange_above; exact Htop.
  - intros i c Hi. rewrite in_app_iff, In_links_seq. split.
    + intros [[[j [Hj ->]]|Hin] Hdst].
      * cbn [wire conn_dst] in Hdst. assert (j = i) by lia. subst j.
        unfold wire. f_equal. destruct (Nat.eqb_spec i 0); lia.
      * exfalso. in_cases Hin.
    + intros ->. split; [|reflexivity]. left. exists i. split; [exact Hi|].
      unfold wire. f_equal. destruct (Nat.eqb_spec i 0); lia.
  - replace (3 + n)%nat with (2 + (n + 1))%nat by lia.
    cbn [app Nat.add nth_error].
    rewrite nth_error_app2 by (rewrite Hlen; lia).
    rewrite Hlen. replace (n + 1 - n)%nat with 1%nat by lia. reflexivity.
  - intro c. rewrite in_app_iff, In_links_seq, last_seq. split.
    + intros [[[j [Hj ->]]|Hin] Hdst].
      * cbn [wire conn_dst] in Hdst. lia.
      * cbn [In] in Hin. destruct Hin as [<-|Hin].
        -- unfold wire. f_equal. destruct (Nat.eqb_spec n 0); lia.
        -- exfalso. in_cases Hin.
    + intros ->. split; [|reflexivity]. right. left.
      unfold wire. f_equal. destruct (Nat.eqb_spec n 0); lia.
Qed.

Lemma sortEq_default : sortEq (eq DEFAULT_SETTINGS) = eq DEFAULT_SETTINGS.
Proof. apply sortEq_of_sorted, default_frequencies_sorted. reflexivity. Qed.

Lemma nyquist_44100 : nyquist 44100 = 22050.
Proof.
  unfold nyquist. rewrite INR_IZR_INZ.
  replace (Z.of_nat 44100) with 44100%Z by reflexivity. lra.
Qed.

Lemma renderOffline_eq_stages_witness :
  exists job,
    outcome (renderOffline DEFAULT_SETTINGS engine1 world1)
    = Return (startRendering job) /\
    getNode 1%nat (job_graph job)
    = Some (BufferSourceNode (Some decoded0) (Some (0, 0))) /\
    getNode 15%nat (job_graph job)
    = Some (BiquadFilterNode highshelf (param 22050) (param 1.0) (param 0)).
Proof.
  destruct (renderOffline_eq_stages DEFAULT_SETTINGS engine1 world1
              (mkAudioBuffer 1 decoded0) engine1_buffer)
    as [job [H1 [H2 [Hstage _]]]].
  exists job. split; [exact H1|]. split; [exact H2|].
  assert (Hband : nth_error (sortEq (eq DEFAULT_SETTINGS)) 13
                  = Some {| frequency := 32000; gain := 0 |})
    by (rewrite sortEq_default; reflexivity).
  destruct (Hstage 13%nat _ Hband) as [f [Hnode [_ [_ [_ Hf]]]]].
  assert (Htop : f = 22050).
  { rewrite Hf; [exact nyquist_44100|].
    change (nyquist 44100 <= 32000). rewrite nyquist_44100. lra. }
  rewrite Htop in Hnode. exact Hnode.
Defined.

(** ** The live graph *)

(** The nodes whose outputs [setupGraph] disconnects before it builds. *)
Definition tracked (e : AudioEngine) : list NodeId :=
  let node (o : option NodeId) := match o with Some id => [id] | None => [] end in
  node (sourceNode e) ++ node (gainNode e) ++ node (compressorNode e)
  ++ node (analyzerNode e) ++ node (reverbNode e) ++ node (reverbToneNode e)
  ++ node (wetGainNode e) ++ node (dryGainNode e) ++ node (saturationNode e)
  ++ node (airNode e) ++ node (bodyNode e) ++ node (limiterNode e)
  ++ node (msSideGainNode e) ++ node (stereoBassNode e) ++ node (dynamicBassNode e)
  ++ node (softClipNode e) ++ eqNodes e.

Lemma disconnect_spec (id : NodeId) (g : Graph) :
  nodes (disconnect id g) = nodes g /\
  forall c, In c (connections (disconnect id g))
            <-> In c (connections g) /\ conn_src c <> id.
Proof.
  split; [reflexivity|]. intro c. unfold disconnect. cbn [connections].
  rewrite filter_In, negb_true_iff, Nat.eqb_neq. reflexivity.
Qed.

Lemma disconnect_opt_spec (o : option NodeId) (g : Graph) :
  nodes (disconnect_opt o g) = nodes g /\
  forall c, In c (connections (disconnect_opt o g))
            <-> In c (connections g) /\
                ~ In (conn_src c) (match o with Some id => [id] | None => [] end).
Proof.
  destruct o as [id|]; cbn [disconnect_opt].
  - destruct (disconnect_spec id g) as [Hn Hc]. split; [exact Hn|].
    intro c. rewrite Hc. cbn [In]. intuition congruence.
  - split; [reflexivity|]. intro c. cbn [In]. tauto.
Qed.

Lemma disconnect_fold_spec (l : list NodeId) :
  forall g,
    nodes (fold_left (fun g node => disconnect node g) l g) = nodes g /\
    forall c, In c (connections (fold_left (fun g node => disconnect node g) l g))
              <-> In c (connections g) /\ ~ In (conn_src c) l.
Proof.
  induction l as [|id l IH]; intro g; cbn [fold_left].
  - split; [reflexivity|]. intro c. cbn [In]. tauto.
  - destruct (IH (disconnect id g)) as [Hn Hc].
    destruct (disconnect_spec id g) as [Hn' Hc'].
    split; [congruence|]. intro c. rewrite Hc, Hc'. cbn [In]. intuition congruence.
Qed.

(** The first part of [setupGraph], "disconnect everything first". *)
Definition disconnectAll (e : AudioEngine) (g : Graph) : Graph :=
  let g := disconnect_opt (sourceNode e) g in
  let g := disconnect_opt (gainNode e) g in
  let g := disconnect_opt (compressorNode e) g in
  let g := disconnect_opt (analyzerNode e) g in
  let g := disconnect_opt (reverbNode e) g in
  let g := disconnect_opt (reverbToneNode e) g in
  let g := disconnect_opt (wetGainNode e) g in
  let g := disconnect_opt (dryGainNode e) g in
  let g := disconnect_opt (saturationNode e) g in
  let g := disconnect_opt (airNode e) g in
  let g := disconnect_opt (bodyNode e) g in
  let g := disconnect_opt (limiterNode e) g in
  let g := disconnect_opt (msSideGainNode e) g in
  let g := disconnect_opt (stereoBassNode e) g in
  let g := disconnect_opt (dynamicBassNode e) g in
  let g := disconnect_opt (softClipNode e) g in
  fold_left (fun g node => disconnect node g) (eqNodes e) g.

Lemma disconnectAll_spec (e : AudioEngine) (g : Graph) :
  nodes (disconnectAll e g) = nodes g /\
  forall c, In c (connections (disconnectAll e g))
            <-> In c (connections g) /\ ~ In (conn_src c) (tracked e).
Proof.
  unfold disconnectAll, tracked. cbv zeta.
  set (node := fun o : option NodeId => match o with Some id => [id] | None => [] end).
  repeat match goal with
    | |- context [disconnect_opt ?o ?g] =>
        lazymatch g with
        | context [disconnect_opt] => fail
        | _ =>
            let Hn := fresh "Hn" in
            let Hc := fresh "Hc" in
            let g' := fresh "g" in
            destruct (disconnect_opt_spec o g) as [Hn Hc];
            set (g' := disconnect_opt o g) in *; clearbody g'
        end
    end.
  match goal with
  | |- context [fold_left _ ?l ?g] =>
      destruct (disconnect_fold_spec l g) as [Hnf Hcf]
  end.
  split; [congruence|].
  intro c. rewrite Hcf.
  repeat match goal with H : forall c, In c (connections _) <-> _ |- _ =>
    rewrite H; clear H end.
  rewrite !in_app_iff. fold node. tauto.
Qed.

Lemma updateSettings_statics (settings : MasteringSettings) (e : AudioEngine)
  (c : AudioContext) :
  audioContext e = Some c ->
  exists g,
    updateSettings settings e = set_audioContext (Some (with_graph g c)) e /\
    same_statics (ac_graph c) g.
Proof.
  intro Hc. unfold updateSettings. rewrite Hc. eexists. split; [reflexivity|].
  cbv zeta.
  assert (H0 : same_statics (ac_graph c) (ac_graph c)) by (split; reflexivity).
  repeat
    first
      [ exact H0
      | apply same_statics_updateNode;
        [ first [ apply static_on_gain | apply static_on_threshold
                | apply static_on_ratio | apply static_on_attack
                | apply static_on_release | apply static_set_curve ] | ]
      | apply same_statics_whenNode; [intros ? ? ?|]
      | apply same_statics_fold; [intros ? [? ?] ?|]
      | assumption
      | match goal with
        | |- same_statics _ (match ?x with Some _ => _ | None => _ end) =>
            destruct x
        end ].
Qed.

(** The nodes [setupGraph] creates, in creation order, as configured at
    creation; [impulse] is the buffer of the convolver. *)
Definition liveNodes (rate : nat) (settings : MasteringSettings)
  (impulse : AudioBufferData)
  : list AudioNode :=
  let sorted := sortEq (eq settings) in
  [ newGain;
    newDynamicsCompressor;
    AnalyserNode ANALYZER_FFT_SIZE SMOOTHING_TIME_CONSTANT;
    WaveShaperNode (Some (makeDistortionCurve (saturation settings))) oversample_4x;
    WaveShaperNode (Some (makeSoftClipCurve (softClip settings))) oversample_4x;
    BiquadFilterNode highshelf (param 12000) (param 1) (param (air settings));
    BiquadFilterNode peaking (param 300) (param 0.7) (param (body settings));
    BiquadFilterNode peaking (param 65) (param 1.2) (param (dynamicBass settings));
    DynamicsCompressorNode (param (ceiling settings)) (param 0) (param 20)
      (param 0.001) (param 0.1);
    GainNode (param (1.0 + stereoWidth settings));
    BiquadFilterNode lowshelf (param 120) (param 1) (param (stereoBass settings));
    ConvolverNode (Some impulse);
    BiquadFilterNode lowpass (param 5000) (param 1) (param 0);
    newGain;
    newGain ]
  ++ mapi (eqStage rate sorted) sorted.

(** The engine [setupGraph] leaves; [base] is the number of nodes the
    context had before. *)
Definition afterSetup (e e_i : AudioEngine) (c : AudioContext) (g : Graph)
  (base n : nat) : AudioEngine :=
  {| audioContext := Some (with_graph g c);
     sourceNode := sourceNode e;
     audioBuffer := audioBuffer e;
     gainNode := Some base;
     compressorNode := Some (1 + base)%nat;
     eqNodes := seq (15 + base) n;
     reverbNode := Some (11 + base)%nat;
     reverbToneNode := Some (12 + base)%nat;
     wetGainNode := Some (13 + base)%nat;
     dryGainNode := Some (14 + base)%nat;
     analyzerNode := Some (2 + base)%nat;
     saturationNode := Some (3 + base)%nat;
     airNode := Some (5 + base)%nat;
     bodyNode := Some (6 + base)%nat;
     limiterNode := Some (8 + base)%nat;
     msSideGainNode := Some (9 + base)%nat;
     stereoBassNode := Some (10 + base)%nat;
     dynamicBassNode := Some (7 + base)%nat;
     softClipNode := Some (4 + base)%nat;
     impulseResponseCache := impulseResponseCache e_i;
     lastDecayValue := lastDecayValue e_i;
     startTime := startTime e;
     pausedAt := pausedAt e;
     isPlaying := isPlaying e |}.

Lemma setupGraph_graph (settings : MasteringSettings) (e : AudioEngine) (w : World)
  (c : AudioContext) (b : AudioBuffer) :
  audioContext e = Some c -> audioBuffer e = Some b ->
  exists g impulse e_i w',
    createImpulseResponse (AudioContext_ref c) 3 (decay (reverb settings)) false e w
    = (impulse, e_i, w') /\
    setupGraph settings e w
    = (afterSetup e e_i c g (List.length (nodes (ac_graph c)))
                  (List.length (eq settings)), w') /\
    connections g = connections (disconnectAll e (ac_graph c)) /\
    map static (nodes g)
    = map static (nodes (ac_graph c) ++ liveNodes (ac_sampleRate c) settings (buf_data impulse)).
Proof.
  intros Hc Hb. unfold setupGraph. rewrite Hc, Hb.
  change (fold_left (fun g node => disconnect node g) (eqNodes e) _)
    with (disconnectAll e (ac_graph c)).
  destruct (disconnectAll_spec e (ac_graph c)) as [Hn1 _].
  set (g1 := disconnectAll e (ac_graph c)) in *.
  assert (Hg1 : g1 = mkGraph (nodes (ac_graph c)) (connections g1))
    by (rewrite <- Hn1; now destruct g1).
  set (C1 := connections g1) in *. clearbody C1. rewrite Hg1. clear Hg1 Hn1 g1.
  destruct (createImpulseResponse_engine (AudioContext_ref c) 3
              (decay (reverb settings)) false e w) as [cache [last He]].
  destruct (createImpulseResponse (AudioContext_ref c) 3
              (decay (reverb settings)) false e w) as [[impulse e_i] w'].
  cbn [fst snd] in He. subst e_i.
  pose proof (eqStages_length (ac_sampleRate c) (eq settings)) as Hlen.
  set (stages := mapi (eqStage _ (sortEq (eq settings))) (sortEq (eq settings))) in *.
  set (L := nodes (ac_graph c)).
  cbv beta iota zeta delta [createNode nodes connections fst snd].
  rewrite createNodes_spec.
  cbv beta iota zeta delta [createNode nodes connections fst snd].
  match goal with
  | |- context [updateSettings settings ?E] =>
      destruct (updateSettings_statics settings E _ eq_refl) as [g [Hup [Hcon Hst]]];
      rewrite Hup
  end.
  exists g, impulse, (set_impulseResponse cache last e), w'.
  split; [reflexivity|]. split; [|split].
  - unfold afterSetup, set_audioContext, set_impulseResponse, with_graph.
    cbn [audioContext sourceNode audioBuffer gainNode compressorNode eqNodes
         reverbNode reverbToneNode wetGainNode dryGainNode analyzerNode
         saturationNode airNode bodyNode limiterNode msSideGainNode stereoBassNode
         dynamicBassNode softClipNode impulseResponseCache lastDecayValue
         startTime pausedAt isPlaying ac_id ac_sampleRate currentTime state].
    rewrite !length_snoc, Hlen, Hb. reflexivity.
  - cbn [ac_graph with_graph connections] in Hcon. exact Hcon.
  - cbn [ac_graph with_graph nodes] in Hst.
    change (map static (nodes g)
            = map static (L ++ liveNodes (ac_sampleRate c) settings (buf_data impulse))).
    rewrite Hst. unfold liveNodes. fold stages. rewrite <- !app_assoc. reflexivity.
Qed.

(** [if (this.audioContext.state === 'suspended') this.audioContext.resume()] *)
Definition resumed (c : AudioContext) : AudioContext :=
  match state c with
  | suspended => with_state running c
  | _ => c
  end.

(** What [start(0, offset)] leaves of the new source: it plays from
    [offset], unless the offset is negative and the call threw. *)
Definition playStart (offset : R) : option (R * R) :=
  if Rlt_dec offset 0 then None else Some (0, offset).

(** The nodes [play] adds: the source and the mid/side matrix. *)
Definition playNodes (data : AudioBufferData) (offset : R) : list AudioNode :=
  [ BufferSourceNode (Some data) (playStart offset);
    ChannelSplitterNode 2;
    ChannelMergerNode 2;
    GainNode (param 0.5);
    GainNode (param 0.5);
    GainNode (param 0.5);
    GainNode (param (-0.5));
    newGain;
    newGain;
    GainNode (param 1);
    GainNode (param 1);
    GainNode (param 1);
    GainNode (param (-1)) ].

(** The connections [play] makes, in order.  [base] is the identity of the
    first node [setupGraph] created, [n] the number of EQ stages, [m] the
    identity of the source. *)
Definition playConnections (base n m : nat) : list Connection :=
  (links m (seq (15 + base) n)
   ++ [ wire (last (seq (15 + base) n) m) (7 + base);
        wire (7 + base) (6 + base);
        wire (6 + base) (3 + base);
        wire (3 + base) (1 + base);
        wire (1 + base) (14 + base);
        wire (1 + base) (12 + base);
        wire (12 + base) (11 + base);
        wire (11 + base) (13 + base);
        wire (14 + base) (5 + base);
        wire (13 + base) (5 + base);
        wire (5 + base) (1 + m);
        mkConnection (1 + m) 0 (3 + m) 0;
        mkConnection (1 + m) 1 (4 + m) 0;
        mkConnection (1 + m) 0 (5 + m) 0;
        mkConnection (1 + m) 1 (6 + m) 0;
        wire (3 + m) (7 + m);
        wire (4 + m) (7 + m);
        wire (5 + m) (8 + m);
        wire (6 + m) (8 + m);
        wire (8 + m) (10 + base);
        wire (10 + base) (9 + base);
        wire (7 + m) (9 + m);
        wire (9 + base) (10 + m);
        wire (7 + m) (11 + m);
        wire (9 + base) (12 + m);
        mkConnection (9 + m) 0 (2 + m) 0;
        mkConnection (10 + m) 0 (2 + m) 0;
        mkConnection (11 + m) 0 (2 + m) 1;
        mkConnection (12 + m) 0 (2 + m) 1;
        wire (2 + m) base;
        wire base (4 + base);
        wire (4 + base) (8 + base);
        wire (8 + base) (2 + base);
        wire (2 + base) destination ])%nat.

Lemma update_length_app {A : Type} (f : A -> A) (l : list A) (x : A) (r : list A) :
  update (List.length l) f (l ++ x :: r) = l ++ f x :: r.
Proof. induction l as [|y l IH]; cbn; [reflexivity | now rewrite IH]. Qed.

(** The engine and the graph [play] leaves, whether [start] threw or not. *)
Lemma play_graph (offset : R) (settings : MasteringSettings) (e : AudioEngine)
  (w : World) (c : AudioContext) (b : AudioBuffer) :
  audioContext e = Some c -> audioBuffer e = Some b ->
  exists N3 impulse e_i w',
    map static N3
    = map static (nodes (ac_graph c)
                  ++ liveNodes (ac_sampleRate c) settings (buf_data impulse)) /\
    play offset settings e w
    = mkRun (if Rlt_dec offset 0 then Throw "RangeError" else Return tt)
        (set_transport (currentTime c - offset) offset
           (if Rlt_dec offset 0 then isPlaying e else true)
           (set_audioContext
              (Some (with_graph
                       (mkGraph
                          (N3 ++ playNodes (buf_data b) offset)
                          (connections (disconnectAll e (ac_graph c))
                           ++ playConnections (List.length (nodes (ac_graph c)))
                                (List.length (eq settings)) (List.length N3)))
                       (resumed c)))
              (set_sourceNode (Some (List.length N3))
                 (afterSetup e e_i (resumed c)
                    (mkGraph N3 (connections (disconnectAll e (ac_graph c))))
                    (List.length (nodes (ac_graph c)))
                    (List.length (eq settings))))))
        w'.
Proof.
  intros Hc Hb. unfold play. rewrite Hc, Hb.
  set (e0 := match state c with
             | suspended => set_audioContext (Some (with_state running c)) e
             | _ => e
             end).
  assert (Hc0 : audioContext e0 = Some (resumed c))
    by (unfold e0, resumed; destruct (state c); cbn; first [assumption | reflexivity]).
  assert (Hb0 : audioBuffer e0 = Some b)
    by (unfold e0; destruct (state c); cbn; assumption).
  assert (Hd0 : disconnectAll e0 (ac_graph (resumed c)) = disconnectAll e (ac_graph c))
    by (unfold e0, resumed; destruct (state c); reflexivity).
  assert (Hg0 : nodes (ac_graph (resumed c)) = nodes (ac_graph c))
    by (unfold resumed; destruct (state c); reflexivity).
  assert (Ht0 : currentTime (resumed c) = currentTime c)
    by (unfold resumed; destruct (state c); reflexivity).
  assert (Hr0 : ac_sampleRate (resumed c) = ac_sampleRate c)
    by (unfold resumed; destruct (state c); reflexivity).
  assert (Ha0 : forall e_i g base n,
             afterSetup e0 e_i (resumed c) g base n = afterSetup e e_i (resumed c) g base n)
    by (intros; unfold e0, afterSetup; destruct (state c); reflexivity).
  destruct (setupGraph_graph settings e0 w (resumed c) b Hc0 Hb0)
    as [g3 [impulse [e_i [w' [_ [Hsetup [Hcon Hst]]]]]]].
  rewrite Hsetup, Ha0, Hg0. rewrite Hd0 in Hcon. rewrite Hg0, Hr0 in Hst.
  clear Hsetup Ha0 Hd0 Hg0 Hr0.
  destruct g3 as [N3 C3]. cbn [connections nodes] in Hcon, Hst. subst C3.
  set (C1 := connections (disconnectAll e (ac_graph c))).
  set (base := List.length (nodes (ac_graph c))).
  set (n := List.length (eq settings)).
  exists N3, impulse, e_i, w'. split; [exact Hst|].
  cbv beta iota zeta.
  unfold afterSetup at 1. cbn [audioContext].
  unfold afterSetup at 1. cbn [audioBuffer]. rewrite Hb. cbn [option_map].
  cbn [ac_graph with_graph].
  cbv beta iota zeta delta [createNode nodes connections fst snd].
  unfold wirePlayback.
  unfold afterSetup at 1 2 3 4 5 6 7 8 9 10 11 12 13 14 15 16.
  cbn [set_sourceNode eqNodes dynamicBassNode bodyNode saturationNode compressorNode
       dryGainNode reverbToneNode reverbNode wetGainNode airNode stereoBassNode
       msSideGainNode gainNode softClipNode limiterNode analyzerNode].
  rewrite chain_spec.
  unfold start, playNodes, playStart.
  destruct (Rlt_dec 0 0) as [H00|_]; [lra|].
  destruct (Rlt_dec offset 0) as [Hneg|Hpos].
  all: cbv beta iota zeta delta [createNode connect updateNode nodes connections fst snd].
  all: rewrite !length_snoc.
  all: f_equal; unfold set_transport, set_audioContext, set_sourceNode, with_graph.
  all: cbn [audioContext sourceNode audioBuffer gainNode compressorNode eqNodes
       reverbNode reverbToneNode wetGainNode dryGainNode analyzerNode
       saturationNode airNode bodyNode limiterNode msSideGainNode stereoBassNode
       dynamicBassNode softClipNode impulseResponseCache lastDecayValue
       startTime pausedAt isPlaying ac_id ac_sampleRate currentTime state ac_graph].
  all: rewrite Ht0.
  - match goal with
    | |- context [mkGraph ?l ?cs] =>
        lazymatch l with
        | context [BufferSourceNode] =>
            let N := constr:((N3 ++ [ BufferSourceNode (Some (buf_data b)) None;
                                      ChannelSplitterNode 2;
                                      ChannelMergerNode 2;
                                      GainNode (param 0.5);
                                      GainNode (param 0.5);
                                      GainNode (param 0.5);
                                      GainNode (param (-0.5));
                                      newGain;
                                      newGain;
                                      GainNode (param 1);
                                      GainNode (param 1);
                                      GainNode (param 1);
                                      GainNode (param (-1)) ])%list) in
            assert (Hnodes : l = N) by (rewrite <- !app_assoc; reflexivity);
            assert (Hconns : cs = (C1 ++ playConnections base n (List.length N3))%list)
              by (unfold playConnections; rewrite <- !app_assoc; reflexivity);
            rewrite Hnodes, Hconns
        end
    end.
    unfold afterSetup. reflexivity.
  - match goal with
    | |- context [mkGraph (update ?i ?f ?l) ?cs] =>
        assert (Hnodes : update i f l
                         = (N3 ++ [ BufferSourceNode (Some (buf_data b)) (Some (0, offset));
                                    ChannelSplitterNode 2;
                                    ChannelMergerNode 2;
                                    GainNode (param 0.5);
                                    GainNode (param 0.5);
                                    GainNode (param 0.5);
                                    GainNode (param (-0.5));
                                    newGain;
                                    newGain;
                                    GainNode (param 1);
                                    GainNode (param 1);
                                    GainNode (param 1);
                                    GainNode (param (-1)) ])%list)
          by (rewrite <- !app_assoc; cbn [app]; rewrite update_length_app; reflexivity);
        assert (Hconns : cs = (C1 ++ playConnections base n (List.length N3))%list)
          by (unfold playConnections; rewrite <- !app_assoc; reflexivity);
        rewrite Hnodes, Hconns
    end.
    reflexivity.
Qed.

Lemma statics_nth (N M : list AudioNode) (j : nat) :
  map static N = map static M ->
  option_map static (nth_error N j) = option_map static (nth_error M j).
Proof. intro H. rewrite <- !nth_error_map. now rewrite H. Qed.

Lemma statics_length (N M : list AudioNode) :
  map static N = map static M -> List.length N = List.length M.
Proof. intro H. rewrite <- (length_map static N), H. apply length_map. Qed.

Lemma liveNodes_length (rate : nat) (settings : MasteringSettings)
  (impulse : AudioBufferData) :
  List.length (liveNodes rate settings impulse) = (15 + List.length (eq settings))%nat.
Proof.
  unfold liveNodes. cbv zeta. rewrite length_app, eqStages_length. reflexivity.
Qed.

Lemma liveNodes_head (rate : nat) (settings : MasteringSettings)
  (impulse : AudioBufferData)
  (L : list AudioNode) (k : nat) :
  (k < 15)%nat ->
  nth_error (L ++ liveNodes rate settings impulse) (k + List.length L)
  = nth_error (firstn 15 (liveNodes rate settings impulse)) k.
Proof.
  intro Hk. rewrite nth_error_app2 by lia.
  replace (k + List.length L - List.length L)%nat with k by lia.
  unfold liveNodes. cbv zeta.
  rewrite nth_error_app1 by (cbn [List.length]; lia).
  reflexivity.
Qed.

Lemma liveNodes_stage (rate : nat) (settings : MasteringSettings)
  (impulse : AudioBufferData)
  (L : list AudioNode) (i : nat) :
  nth_error (L ++ liveNodes rate settings impulse) (15 + List.length L + i)
  = nth_error (mapi (eqStage rate (sortEq (eq settings))) (sortEq (eq settings))) i.
Proof.
  rewrite nth_error_app2 by lia.
  replace (15 + List.length L + i - List.length L)%nat with (15 + i)%nat by lia.
  unfold liveNodes. cbv zeta.
  rewrite nth_error_app2 by (cbn [List.length]; lia).
  cbn [List.length]. f_equal. lia.
Qed.

(** The result of [play] as the lemmas below use it. *)
Lemma play_result (offset : R) (settings : MasteringSettings) (e : AudioEngine)
  (w : World) (c : AudioContext) (b : AudioBuffer) :
  audioContext e = Some c -> audioBuffer e = Some b ->
  let base := List.length (nodes (ac_graph c)) in
  let n := List.length (eq settings) in
  let m := (15 + n + base)%nat in
  exists N3 impulse,
    map static N3
    = map static (nodes (ac_graph c) ++ liveNodes (ac_sampleRate c) settings (buf_data impulse)) /\
    List.length N3 = m /\
    outcome (play offset settings e w)
    = (if Rlt_dec offset 0 then Throw "RangeError" else Return tt) /\
    audioContext (engine_after (play offset settings e w))
    = Some (with_graph
              (mkGraph (N3 ++ playNodes (buf_data b) offset)
                       (connections (disconnectAll e (ac_graph c))
                        ++ playConnections base n m))
              (resumed c)) /\
    sourceNode (engine_after (play offset settings e w)) = Some m /\
    eqNodes (engine_after (play offset settings e w)) = seq (15 + base) n /\
    analyzerNode (engine_after (play offset settings e w)) = Some (2 + base)%nat /\
    dynamicBassNode (engine_after (play offset settings e w)) = Some (7 + base)%nat /\
    limiterNode (engine_after (play offset settings e w)) = Some (8 + base)%nat /\
    gainNode (engine_after (play offset settings e w)) = Some base /\
    compressorNode (engine_after (play offset settings e w)) = Some (1 + base)%nat /\
    saturationNode (engine_after (play offset settings e w)) = Some (3 + base)%nat /\
    softClipNode (engine_after (play offset settings e w)) = Some (4 + base)%nat /\
    wetGainNode (engine_after (play offset settings e w)) = Some (13 + base)%nat /\
    dryGainNode (engine_after (play offset settings e w)) = Some (14 + base)%nat /\
    tracked (engine_after (play offset settings e w))
    = ([m; base; 1 + base; 2 + base; 11 + base; 12 + base; 13 + base; 14 + base;
        3 + base; 5 + base; 6 + base; 8 + base; 9 + base; 10 + base; 7 + base;
        4 + base] ++ seq (15 + base) n)%nat /\
    isPlaying (engine_after (play offset settings e w))
    = (if Rlt_dec offset 0 then isPlaying e else true).
Proof.
  intros Hc Hb base n m.
  destruct (play_graph offset settings e w c b Hc Hb)
    as [N3 [impulse [e_i [w' [Hst Hplay]]]]].
  assert (Hm : List.length N3 = m).
  { rewrite (statics_length _ _ Hst), length_app, liveNodes_length.
    unfold m, base, n. lia. }
  rewrite Hm in Hplay. fold base n in Hplay.
  exists N3, impulse. rewrite Hplay. cbn [outcome engine_after].
  repeat split; assumption.
Qed.

Lemma In_playConnections_dst (base n m : nat) (k : Connection) :
  In k (playConnections base n m) ->
  (exists j, (j < n)%nat /\ conn_dst k = (15 + base + j)%nat) \/
  In (conn_dst k)
     [7 + base; 6 + base; 3 + base; 1 + base; 14 + base; 12 + base; 11 + base;
      13 + base; 5 + base; 1 + m; 3 + m; 4 + m; 5 + m; 6 + m; 7 + m; 8 + m;
      10 + base; 9 + base; 9 + m; 10 + m; 11 + m; 12 + m; 2 + m; base; 4 + base;
      8 + base; 2 + base; destination]%nat.
Proof.
  unfold playConnections. rewrite in_app_iff, In_links_seq.
  intros [[j [Hj ->]]|Hin].
  - left. exists j. split; [exact Hj | reflexivity].
  - right. cbn [In] in Hin |- *.
    repeat (destruct Hin as [<-|Hin]; [cbn [conn_dst wire]; tauto|]).
    contradiction.
Qed.

Lemma In_playConnections_src (base n m : nat) (k : Connection) :
  In k (playConnections base n m) ->
  (base <= conn_src k)%nat \/ (m <= conn_src k)%nat.
Proof.
  unfold playConnections. rewrite in_app_iff, In_links_seq.
  intros [[j [Hj ->]]|Hin].
  - cbn [conn_src wire]. destruct (j =? 0)%nat; lia.
  - cbn [In] in Hin. rewrite last_seq in Hin.
    repeat (destruct Hin as [<-|Hin];
            [cbn [conn_src wire]; try (destruct (n =? 0)%nat); lia|]).
    contradiction.
Qed.

Lemma playStart_cases (offset : R) :
  (0 <= offset -> playStart offset = Some (0, offset)) /\
  (offset < 0 -> playStart offset = None).
Proof.
  unfold playStart. destruct (Rlt_dec offset 0); split; intro; try reflexivity; lra.
Qed.

Lemma outcome_cases {A : Type} (offset : R) (o : Outcome A) (a : A) :
  o = (if Rlt_dec offset 0 then Throw "RangeError" else Return a) ->
  (0 <= offset -> o = Return a) /\ (offset < 0 -> o = Throw "RangeError").
Proof.
  intros ->. destruct (Rlt_dec offset 0); split; intro; try reflexivity; lra.
Qed.

(** The EQ stages of the live graph.  With a context and a buffer, [play]
    leaves one filter per band of [settings.eq], in ascending order of
    frequency, in [eqNodes]: stage [i] has the type low shelf (first), high
    shelf (last of at least two) or peaking, and as current values Q = 1, the
    gain of the i-th sorted band and its frequency clamped to the range from
    0 to half the context's sample rate.  If the connections the context had
    all end in nodes it had, the new source is the only input of stage 0,
    stage [i-1] the only input of stage [i], and the last stage (or the
    source) the only input of the dynamic-bass filter.  The stages are built
    and wired before the source is started: with an offset that is not
    negative [play] returns and the source plays from [offset]; with a
    negative offset [play] throws a RangeError and the source is left
    unstarted in the same graph. *)
Theorem play_eq_stages (offset : R) (settings : MasteringSettings)
  (e : AudioEngine) (w : World) (c : AudioContext) (b : AudioBuffer) :
  audioContext e = Some c -> audioBuffer e = Some b ->
  (forall k, In k (connections (ac_graph c)) ->
     (conn_dst k < List.length (nodes (ac_graph c)))%nat) ->
  let r := play offset settings e w in
  let base := List.length (nodes (ac_graph c)) in
  let n := List.length (eq settings) in
  let top := nyquist (ac_sampleRate c) in
  exists g source,
    (0 <= offset ->
     outcome r = Return tt /\
     getNode source g
     = Some (BufferSourceNode (Some (buf_data b)) (Some (0, offset)))) /\
    (offset < 0 ->
     outcome r = Throw "RangeError" /\
     getNode source g = Some (BufferSourceNode (Some (buf_data b)) None)) /\
    option_map ac_graph (audioContext (engine_after r)) = Some g /\
    sourceNode (engine_after r) = Some source /\
    source = (15 + n + base)%nat /\
    eqNodes (engine_after r) = seq (15 + base) n /\
    (forall i band,
       nth_error (sortEq (eq settings)) i = Some band ->
       exists f,
         option_map static (getNode (15 + base + i)%nat g)
         = Some (BiquadFilterNode
                   (if (i =? 0)%nat then lowshelf
                    else if (i =? n - 1)%nat then highshelf else peaking)
                   (param f) (param 1.0) (param (gain band))) /\
         f = clampToRange 0 top (frequency band) /\
         0 <= f <= top /\
         (0 <= frequency band <= top -> f = frequency band) /\
         (top <= frequency band -> f = top)) /\
    (forall i k,
       (i < n)%nat ->
       (In k (connections g) /\ conn_dst k = (15 + base + i)%nat
        <-> k = mkConnection (if (i =? 0)%nat then source else (14 + base + i)%nat) 0
                             (15 + base + i)%nat 0)) /\
    dynamicBassNode (engine_after r) = Some (7 + base)%nat /\
    option_map static (getNode (7 + base)%nat g)
    = Some (BiquadFilterNode peaking (param 65) (param 1.2)
              (param (dynamicBass settings))) /\
    (forall k,
       In k (connections g) /\ conn_dst k = (7 + base)%nat
       <-> k = mkConnection (if (n =? 0)%nat then source else (14 + base + n)%nat) 0
                            (7 + base)%nat 0).
Proof.
  intros Hc Hb Hclosed r base n top. subst r.
  destruct (play_result offset settings e w c b Hc Hb)
    as [N3 [impulse [Hst [Hm [Hout [Hctx [Hsrc [Heq [_ [Hdyn _]]]]]]]]]].
  cbv zeta in Hst, Hm, Hctx, Hsrc, Heq, Hdyn.
  fold base n in Hst, Hm, Hctx, Hsrc, Heq, Hdyn.
  set (m := (15 + n + base)%nat) in *.
  rewrite Hctx. cbn [option_map ac_graph with_graph].
  exists (mkGraph (N3 ++ playNodes (buf_data b) offset)
            (connections (disconnectAll e (ac_graph c)) ++ playConnections base n m)), m.
  unfold getNode. cbn [nodes connections].
  assert (Hold : forall k, In k (connections (disconnectAll e (ac_graph c))) ->
                   (conn_dst k < base)%nat).
  { intros k Hk. apply (proj2 (disconnectAll_spec e (ac_graph c))) in Hk.
    apply Hclosed. tauto. }
  assert (Hsource : nth_error (N3 ++ playNodes (buf_data b) offset) m
                    = Some (BufferSourceNode (Some (buf_data b)) (playStart offset))).
  { rewrite nth_error_app2 by lia. rewrite Hm, Nat.sub_diag. reflexivity. }
  destruct (outcome_cases offset _ tt Hout) as [Hret Hthrow].
  destruct (playStart_cases offset) as [Hstart Hnone].
  split; [intro Hoff; split; [exact (Hret Hoff)|rewrite Hsource, (Hstart Hoff); reflexivity]|].
  split; [intro Hoff; split; [exact (Hthrow Hoff)|rewrite Hsource, (Hnone Hoff); reflexivity]|].
  split; [reflexivity|]. split; [exact Hsrc|].
  split; [reflexivity|].
  split; [exact Heq|split; [|split; [|split; [exact Hdyn|split]]]].
  - intros i band Hband.
    assert (Hi : (i < n)%nat)
      by (unfold n; rewrite <- (sortEq_length (eq settings));
          apply nth_error_Some; congruence).
    eexists. split; [|split; [reflexivity|]].
    + rewrite nth_error_app1 by lia.
      rewrite (statics_nth _ _ _ Hst). fold base.
      unfold base at 1. rewrite liveNodes_stage.
      rewrite nth_error_mapi, Hband. cbn [option_map]. unfold eqStage.
      rewrite sortEq_length. reflexivity.
    + fold top. pose proof (nyquist_nonneg (ac_sampleRate c)) as Htop.
      fold top in Htop. split; [|split].
      * unfold clampToRange, Math_max, Math_min.
        split; [apply Rmax_l|]. apply Rmax_lub; [exact Htop | apply Rmin_l].
      * apply clampToRange_inside.
      * apply clampToRange_above; exact Htop.
  - intros i k Hi. rewrite in_app_iff. split.
    + intros [[Hin|Hin] Hdst].
      * apply Hold in Hin. lia.
      * unfold playConnections in Hin. rewrite in_app_iff, In_links_seq in Hin.
        destruct Hin as [[j [Hj ->]]|Hin].
        -- cbn [wire conn_dst] in Hdst. assert (j = i) by lia. subst j.
           unfold wire. f_equal; try (destruct (i =? 0)%nat; lia).
        -- exfalso. in_cases Hin.
    + intros ->. split; [|reflexivity]. right.
      unfold playConnections. rewrite in_app_iff, In_links_seq. left.
      exists i. split; [exact Hi|]. unfold wire. f_equal; try (destruct (i =? 0)%nat; lia).
  - rewrite nth_error_app1 by lia.
    rewrite (statics_nth _ _ _ Hst).
    replace (7 + base)%nat with (7 + List.length (nodes (ac_graph c)))%nat by reflexivity.
    rewrite liveNodes_head by lia. reflexivity.
  - intro k. rewrite in_app_iff. split.
    + intros [[Hin|Hin] Hdst].
      * apply Hold in Hin. lia.
      * unfold playConnections in Hin. rewrite in_app_iff, In_links_seq in Hin.
        destruct Hin as [[j [Hj ->]]|Hin].
        -- cbn [wire conn_dst] in Hdst. lia.
        -- cbn [In] in Hin. rewrite last_seq in Hin. destruct Hin as [<-|Hin].
           ++ unfold wire. f_equal; try (destruct (n =? 0)%nat; lia).
           ++ exfalso. in_cases Hin.
    + intros ->. split; [|reflexivity]. right.
      unfold playConnections. rewrite in_app_iff. right. left.
      rewrite last_seq. unfold wire. f_equal; try (destruct (n =? 0)%nat; lia).
Qed.

Lemma play_eq_stages_witness :
  exists g source,
    outcome (play 0 DEFAULT_SETTINGS engine1 world1) = Return tt /\
    option_map ac_graph
      (audioContext (engine_after (play 0 DEFAULT_SETTINGS engine1 world1))) = Some g /\
    sourceNode (engine_after (play 0 DEFAULT_SETTINGS engine1 world1)) = Some source /\
    source = 30%nat /\
    option_map static (getNode 29%nat g)
    = Some (BiquadFilterNode highshelf (param 22050) (param 1.0) (param 0)).
Proof.
  assert (H : forall k,
            In k (connections (ac_graph (mkAudioContext 0 44100 0 running emptyGraph))) ->
            (conn_dst k
             < List.length (nodes (ac_graph (mkAudioContext 0 44100 0 running emptyGraph))))%nat)
    by (intros k []).
  destruct (play_eq_stages 0 DEFAULT_SETTINGS engine1 world1 _ _
              engine1_context engine1_buffer H)
    as [g [source [H1 [_ [H3 [H4 [H5 [_ [Hstage _]]]]]]]]].
  assert (H0 : 0 <= 0) by lra.
  exists g, source. split; [exact (proj1 (H1 H0))|].
  split; [exact H3|]. split; [exact H4|]. split; [exact H5|].
  assert (Hband : nth_error (sortEq (eq DEFAULT_SETTINGS)) 13
                  = Some {| frequency := 32000; gain := 0 |})
    by (rewrite sortEq_default; reflexivity).
  destruct (Hstage 13%nat _ Hband) as [f [Hnode [_ [_ [_ Hf]]]]].
  assert (Htop : f = 22050).
  { rewrite Hf; [exact nyquist_44100|].
    change (nyquist 44100 <= 32000). rewrite nyquist_44100. lra. }
  rewrite Htop in Hnode. exact Hnode.
Defined.

Lemma static_destination (n : AudioNode) :
  static n = DestinationNode -> n = DestinationNode.
Proof. destruct n; cbn; congruence. Qed.

Lemma static_source (n : AudioNode) (d : option AudioBufferData) (s : option (R * R)) :
  static n = BufferSourceNode d s -> n = BufferSourceNode d s.
Proof. destruct n; cbn; congruence. Qed.



Lemma filter_none {A : Type} (f : A -> bool) (l : list A) :
  (forall x, In x l -> f x = false) -> filter f l = [].
Proof.
  induction l as [|x l IH]; intro H; [reflexivity|]. cbn [filter].
  rewrite (H x) by (left; reflexivity). apply IH. intros y Hy. apply H. now right.
Qed.

(** One way to the speakers.  Let the context's node 0 be its destination
    and let every connection into it come from the engine's analyser (as for
    a context that has no connections yet).  Then after [play] exactly one
    connection enters the destination, it comes from the new analyser, and
    the assumption holds again: however often playback is restarted, the
    graphs of earlier runs no longer reach the output. *)
Theorem play_single_output (offset : R) (settings : MasteringSettings)
  (e : AudioEngine) (w : World) (c : AudioContext) (b : AudioBuffer) :
  audioContext e = Some c -> audioBuffer e = Some b ->
  getNode destination (ac_graph c) = Some DestinationNode ->
  (forall k, In k (connections (ac_graph c)) -> conn_dst k = destination ->
     analyzerNode e = Some (conn_src k)) ->
  let live := engine_after (play offset settings e w) in
  exists g analyser,
    option_map ac_graph (audioContext live) = Some g /\
    analyzerNode live = Some analyser /\
    filter (fun k => (conn_dst k =? destination)%nat) (connections g)
    = [mkConnection analyser 0 destination 0] /\
    getNode destination g = Some DestinationNode /\
    (forall k, In k (connections g) -> conn_dst k = destination ->
       analyzerNode live = Some (conn_src k)).
Proof.
  intros Hc Hb Hdest Hinv live. subst live.
  destruct (play_result offset settings e w c b Hc Hb)
    as (N3 & impulse & Hst & Hm & _ & Hctx & _ & _ & Hana & _).
  cbv zeta in Hst, Hm, Hctx, Hana.
  rewrite Hctx, Hana. cbn [option_map ac_graph with_graph].
  unfold getNode in Hdest |- *. unfold destination in Hdest.
  destruct (nodes (ac_graph c)) as [|d L] eqn:HL; [discriminate|].
  cbn [nth_error] in Hdest. injection Hdest as ->.
  cbn [List.length] in Hm, Hctx, Hana |- *.
  set (base' := List.length L) in *. set (n := List.length (eq settings)) in *.
  eexists. eexists. split; [reflexivity|]. split; [reflexivity|].
  cbn [nodes connections].
  assert (Hfeeds :
            filter (fun k => (conn_dst k =? destination)%nat)
              (connections (disconnectAll e (ac_graph c))
               ++ playConnections (S base') n (15 + n + S base')%nat)
            = [mkConnection (2 + S base')%nat 0 destination 0]).
  { rewrite filter_app. rewrite (filter_none _ (connections _)).
    - unfold playConnections. rewrite filter_app, (filter_none _ (links _ _)).
      + reflexivity.
      + intros k Hk. apply In_links_seq in Hk. destruct Hk as [j [_ ->]].
        reflexivity.
    - intros k Hk. apply (proj2 (disconnectAll_spec e (ac_graph c))) in Hk.
      destruct Hk as [Hk Hsrc].
      destruct (Nat.eqb_spec (conn_dst k) destination) as [Hd|]; [|reflexivity].
      exfalso. apply Hsrc. specialize (Hinv k Hk Hd).
      unfold tracked. rewrite Hinv. rewrite !in_app_iff. cbn [In]. tauto. }
  split; [exact Hfeeds|]. split.
  - pose proof (statics_nth _ _ 0 Hst) as H0. unfold destination.
    rewrite nth_error_app1 by lia.
    change (nth_error ((DestinationNode :: L) ++ liveNodes (ac_sampleRate c) settings (buf_data impulse)) 0)
      with (Some DestinationNode) in H0.
    cbn [option_map static] in H0.
    destruct (nth_error N3 0) as [x|]; cbn [option_map] in H0; [|discriminate].
    injection H0 as H0.
    now rewrite (static_destination x H0).
  - intros k Hk Hd.
    assert (Hin : In k (filter (fun k => (conn_dst k =? destination)%nat)
                          (connections (disconnectAll e (ac_graph c))
                           ++ playConnections (S base') n (15 + n + S base')%nat)))
      by (apply filter_In; split; [exact Hk | now apply Nat.eqb_eq]).
    rewrite Hfeeds in Hin. destruct Hin as [<-|[]]. reflexivity.
Qed.

Lemma play_single_output_witness :
  exists g analyser,
    option_map ac_graph
      (audioContext (engine_after (play 0 DEFAULT_SETTINGS engine1 world1))) = Some g /\
    analyzerNode (engine_after (play 0 DEFAULT_SETTINGS engine1 world1)) = Some analyser /\
    filter (fun k => (conn_dst k =? destination)%nat) (connections g)
    = [mkConnection analyser 0 destination 0].
Proof.
  assert (H : forall k,
            In k (connections (ac_graph (mkAudioContext 0 44100 0 running emptyGraph))) ->
            conn_dst k = destination -> analyzerNode engine1 = Some (conn_src k))
    by (intros k []).
  destruct (play_single_output 0 DEFAULT_SETTINGS engine1 world1 _ _
              engine1_context engine1_buffer eq_refl H)
    as [g [analyser [H1 [H2 [H3 _]]]]].
  exists g, analyser. exact (conj H1 (conj H2 H3)).
Defined.

Lemma length_update {A : Type} (f : A -> A) (l : list A) :
  forall i, List.length (update i f l) = List.length l.
Proof. induction l as [|x l IH]; intros [|i]; cbn; auto. Qed.

Lemma nth_error_update {A : Type} (f : A -> A) (l : list A) :
  forall i x, nth_error l i = Some x -> nth_error (update i f l) i = Some (f x).
Proof.
  induction l as [|y l IH]; intros [|i] x H; cbn in *; try discriminate.
  - now injection H as ->.
  - now apply IH.
Qed.

(** Seeking during playback.  When the engine is playing from a source
    node, [seek(time)] pauses and plays again: the old source node is
    stopped and no connection of the resulting graph leaves it, and a new
    source node, holding the loaded buffer, takes its place.  With a time
    that is not negative the call returns and leaves the engine playing from
    [time]: the new source is started there, the position read right away is
    [time] and it advances with the context's clock.  With a negative time
    the new source's [start] throws a RangeError: [seek] throws, the new
    source is left unstarted, and the engine stays paused with the position
    [time]. *)
Theorem seek_replaces_source (time : R) (settings : MasteringSettings)
  (e : AudioEngine) (w : World) (c : AudioContext) (b : AudioBuffer)
  (old : NodeId) (data : option AudioBufferData) (started : option (R * R)) :
  audioContext e = Some c -> audioBuffer e = Some b -> isPlaying e = true ->
  sourceNode e = Some old ->
  getNode old (ac_graph c) = Some (BufferSourceNode data started) ->
  let r := seek time settings e w in
  let after := engine_after r in
  (0 <= time ->
   outcome r = Return tt /\
   isPlaying after = true /\
   getCurrentTime after = time /\
   (forall dt, getCurrentTime (elapse dt after) = time + dt)) /\
  (time < 0 ->
   outcome r = Throw "RangeError" /\
   isPlaying after = false /\
   getCurrentTime after = time) /\
  exists g new,
    option_map ac_graph (audioContext after) = Some g /\
    sourceNode after = Some new /\
    new <> old /\
    (0 <= time ->
     getNode new g = Some (BufferSourceNode (Some (buf_data b)) (Some (0, time)))) /\
    (time < 0 ->
     getNode new g = Some (BufferSourceNode (Some (buf_data b)) None)) /\
    getNode old g = Some (BufferSourceNode data None) /\
    (forall k, In k (connections g) -> conn_src k <> old).
Proof.
  intros Hc Hb Hp Hsrc Hold r after. subst after r.
  set (c' := with_graph (updateNode old stop (ac_graph c)) c).
  assert (Hpause : pause e
                   = set_transport (startTime e) (currentTime c - startTime e) false
                       (set_audioContext (Some c') e))
    by (unfold pause; rewrite Hsrc, Hp, Hc; reflexivity).
  destruct (seek_while_playing time settings e w c b Hc Hb Hp) as [Hret Hthrow].
  cbv zeta in Hret, Hthrow.
  split.
  { intro Htime. destruct (Hret Htime) as (Ho & Hpl & _ & Ht & Hdt).
    split; [exact Ho|]. split; [exact Hpl|]. split; [exact Ht | exact Hdt]. }
  split.
  { intro Htime. destruct (Hthrow Htime) as (Ho & Hpl & Hpa).
    split; [exact Ho|]. rewrite Hpause in Hpl. cbn [isPlaying set_transport] in Hpl.
    split; [exact Hpl|].
    unfold getCurrentTime. rewrite Hpl.
    destruct (audioContext (engine_after (seek time settings e w))); exact Hpa. }
  clear Hret Hthrow.
  unfold seek. rewrite Hp.
  assert (Hc' : audioContext (pause e) = Some c') by (rewrite Hpause; reflexivity).
  assert (Hb' : audioBuffer (pause e) = Some b) by (rewrite Hpause; exact Hb).
  assert (Htr : tracked (pause e) = tracked e) by (rewrite Hpause; reflexivity).
  destruct (play_result time settings (pause e) w c' b Hc' Hb')
    as (N3 & impulse & Hst & Hm & _ & Hctx & Hnew & _).
  cbv zeta in Hst, Hm, Hctx, Hnew.
  unfold getNode in Hold.
  assert (Hlt : (old < List.length (nodes (ac_graph c)))%nat)
    by (apply nth_error_Some; congruence).
  assert (Hbase : List.length (nodes (ac_graph c')) = List.length (nodes (ac_graph c)))
    by (unfold c'; cbn [ac_graph with_graph updateNode nodes]; apply length_update).
  rewrite Hbase in Hm, Hctx, Hnew.
  set (base := List.length (nodes (ac_graph c))) in *.
  set (n := List.length (eq settings)) in *.
  rewrite Hctx, Hnew. cbn [option_map ac_graph with_graph].
  eexists. eexists. split; [reflexivity|]. split; [reflexivity|].
  unfold getNode. cbn [nodes connections].
  assert (Hsource : nth_error (N3 ++ playNodes (buf_data b) time) (15 + n + base)
                    = Some (BufferSourceNode (Some (buf_data b)) (playStart time))).
  { rewrite nth_error_app2 by lia. rewrite Hm, Nat.sub_diag. reflexivity. }
  destruct (playStart_cases time) as [Hstart Hnone].
  split; [lia|].
  split; [intro Htime; rewrite Hsource, (Hstart Htime); reflexivity|].
  split; [intro Htime; rewrite Hsource, (Hnone Htime); reflexivity|].
  split.
  - rewrite nth_error_app1 by lia.
    pose proof (statics_nth _ _ old Hst) as H0.
    rewrite nth_error_app1 in H0 by lia.
    unfold c' in H0. cbn [ac_graph with_graph updateNode nodes] in H0.
    rewrite (nth_error_update stop _ old _ Hold) in H0.
    cbn [option_map stop static] in H0.
    destruct (nth_error N3 old) as [x|]; cbn [option_map] in H0; [|discriminate].
    injection H0 as H0.
    now rewrite (static_source x _ _ H0).
  - intros k Hk. rewrite in_app_iff in Hk. destruct Hk as [Hk|Hk].
    + apply (proj2 (disconnectAll_spec (pause e) (ac_graph c'))) in Hk.
      destruct Hk as [_ Hk]. rewrite Htr in Hk. intro Heq. apply Hk.
      unfold tracked. rewrite Hsrc, Heq. left. reflexivity.
    + apply In_playConnections_src in Hk. lia.
Qed.

Lemma seek_replaces_source_witness :
  let playing := engine_after (play 0 DEFAULT_SETTINGS engine1 world1) in
  (outcome (seek 2 DEFAULT_SETTINGS playing world1) = Return tt /\
   isPlaying (engine_after (seek 2 DEFAULT_SETTINGS playing world1)) = true) /\
  (outcome (seek (-2) DEFAULT_SETTINGS playing world1) = Throw "RangeError" /\
   isPlaying (engine_after (seek (-2) DEFAULT_SETTINGS playing world1)) = false) /\
  exists g new,
    option_map ac_graph
      (audioContext (engine_after (seek 2 DEFAULT_SETTINGS playing world1)))
    = Some g /\
    sourceNode (engine_after (seek 2 DEFAULT_SETTINGS playing world1)) = Some new /\
    getNode 30%nat g = Some (BufferSourceNode (Some decoded0) None).
Proof.
  cbv zeta.
  destruct (play_result 0 DEFAULT_SETTINGS engine1 world1 _ _
              engine1_context engine1_buffer)
    as (N3 & impulse & _ & Hm & _ & Hctx & Hsrc & _).
  assert (H0 : 0 <= 0) by lra.
  assert (H2 : 0 <= 2) by lra.
  assert (Hneg : -2 < 0) by lra.
  destruct (play_ready 0 DEFAULT_SETTINGS engine1 world1 _ _
              engine1_context engine1_buffer H0) as (c' & _ & Hb & Hp).
  assert (Hold : getNode 30%nat
                   (mkGraph (N3 ++ playNodes decoded0 0)
                      (connections
                         (disconnectAll engine1
                            (ac_graph (mkAudioContext 0 44100 0 running emptyGraph)))
                       ++ playConnections 1 14 30))
                 = Some (BufferSourceNode (Some decoded0) (Some (0, 0)))).
  { unfold getNode. cbn [nodes]. cbv zeta in Hm.
    rewrite nth_error_app2 by (rewrite Hm; apply Nat.le_refl).
    rewrite Hm. unfold playNodes. rewrite (proj1 (playStart_cases 0) H0). reflexivity. }
  cbv zeta in Hctx, Hsrc.
  pose proof (seek_replaces_source 2 DEFAULT_SETTINGS _ world1 _ _ _ _ _
                Hctx Hb Hp Hsrc Hold) as Hpos.
  pose proof (seek_replaces_source (-2) DEFAULT_SETTINGS _ world1 _ _ _ _ _
                Hctx Hb Hp Hsrc Hold) as Hthrow.
  cbv zeta in Hpos, Hthrow.
  destruct Hpos as (Hret & _ & g & new & G1 & G2 & _ & _ & _ & G3 & _).
  destruct Hthrow as (_ & Hth & _).
  split; [exact (conj (proj1 (Hret H2)) (proj1 (proj2 (Hret H2))))|].
  split; [exact (conj (proj1 (Hth Hneg)) (proj1 (proj2 (Hth Hneg))))|].
  exists g, new. exact (conj G1 (conj G2 G3)).
Defined.

(** The last step of [updateSettings]: the ramp of the dry gain. *)
Lemma updateSettings_dry (settings : MasteringSettings) (e : AudioEngine)
  (c : AudioContext) (wet dry : NodeId) :
  audioContext e = Some c -> wetGainNode e = Some wet -> dryGainNode e = Some dry ->
  exists G,
    updateSettings settings e
    = set_audioContext
        (Some (with_graph
                 (updateNode dry
                    (on_gain (rampTo (1 - mix (reverb settings)) (currentTime c))) G)
                 c)) e /\
    same_statics (ac_graph c) G.
Proof.
  intros Hc Hwet Hdry. unfold updateSettings. rewrite Hc, Hwet, Hdry.
  eexists. split; [reflexivity|].
  assert (H0 : same_statics (ac_graph c) (ac_graph c)) by (split; reflexivity).
  repeat
    first
      [ exact H0
      | apply same_statics_updateNode;
        [ first [ apply static_on_gain | apply static_on_threshold
                | apply static_on_ratio | apply static_on_attack
                | apply static_on_release | apply static_set_curve ] | ]
      | apply same_statics_whenNode; [intros ? ? ?|]
      | apply same_statics_fold; [intros ? [? ?] ?|]
      | assumption
      | match goal with
        | |- same_statics _ (match ?x with Some _ => _ | None => _ end) =>
            destruct x
        end ].
Qed.

Lemma static_gain (n : AudioNode) (v : R) :
  static n = GainNode (param v) -> exists p, n = GainNode p /\ value p = v.
Proof.
  destruct n; cbn; intro H; try discriminate.
  injection H as H. eexists. split; [reflexivity | exact H].
Qed.

Lemma updateSettings_keeps_values_witness :
  let live := engine_after (play 0 DEFAULT_SETTINGS engine1 world1) in
  let arabesk := Presets.settings (Presets.PRESETS Presets.Arabesk) in
  exists c g,
    audioContext live = Some c /\
    List.length (nodes (ac_graph c)) = 43%nat /\
    gainNode live = Some 1%nat /\
    compressorNode live = Some 2%nat /\
    dryGainNode live = Some 15%nat /\
    eqNodes live = seq 16 14 /\
    updateSettings arabesk live = set_audioContext (Some (with_graph g c)) live /\
    connections g = connections (ac_graph c) /\
    map static (nodes g) = map static (nodes (ac_graph c)) /\
    exists scheduled,
      getNode 15%nat g
      = Some (GainNode (mkAudioParam 1 (scheduled ++ [SetTarget (1 - 0.30) 0 0.05]))).
Proof.
  cbv zeta.
  destruct (play_result 0 DEFAULT_SETTINGS engine1 world1 _ _
              engine1_context engine1_buffer)
    as (N3 & impulse & Hst & Hm & _ & Hctx & _ & Heq & _ & _ & _ & Hgain & Hcomp
        & _ & _ & Hwet & Hdry & _).
  cbv zeta in Hst, Hm, Hctx, Heq, Hgain, Hcomp, Hwet, Hdry.
  destruct (updateSettings_keeps_values
              (Presets.settings (Presets.PRESETS Presets.Arabesk)) _ _ Hctx)
    as (g & Hupd & Hconn & Hstat).
  destruct (updateSettings_dry
              (Presets.settings (Presets.PRESETS Presets.Arabesk)) _ _ _ _
              Hctx Hwet Hdry) as (G & HG & _ & HGs).
  eexists. exists g.
  split; [exact Hctx|].
  split; [cbn [ac_graph with_graph nodes]; rewrite length_app, Hm; reflexivity|].
  split; [exact Hgain|]. split; [exact Hcomp|]. split; [exact Hdry|].
  split; [exact Heq|].
  split; [exact Hupd|]. split; [exact Hconn|]. split; [exact Hstat|].
  assert (Hg : g = updateNode 15%nat
                     (on_gain (rampTo (1 - 0.30) 0)) G).
  { rewrite HG in Hupd.
    apply (f_equal (fun en => option_map ac_graph (audioContext en))) in Hupd.
    cbn in Hupd. injection Hupd as Hupd. symmetry. exact Hupd. }
  cbn [ac_graph with_graph nodes] in HGs.
  assert (Hnode : option_map static (nth_error (nodes G) 15%nat)
                  = Some (GainNode (param 1))).
  { rewrite (statics_nth _ _ 15%nat HGs).
    rewrite nth_error_app1 by (rewrite Hm; cbn; lia).
    rewrite (statics_nth _ _ 15%nat Hst).
    exact (f_equal (option_map static)
             (liveNodes_head 44100%nat DEFAULT_SETTINGS (buf_data impulse)
                [DestinationNode] 14%nat ltac:(lia))). }
  destruct (nth_error (nodes G) 15%nat) as [x|] eqn:Hx; [|discriminate].
  cbn [option_map] in Hnode. injection Hnode as Hnode.
  destruct (static_gain x 1 Hnode) as (p0 & -> & Hv).
  exists (filter (fun ev => if Rlt_dec (ev_startTime ev) 0 then true else false)
            (events p0)).
  rewrite Hg. unfold getNode, updateNode. cbn [nodes].
  rewrite (nth_error_update _ _ _ _ Hx).
  unfold on_gain, rampTo, setTargetAtTime, cancelScheduledValues.
  cbn [value events]. rewrite Hv. reflexivity.
Defined.

End GraphShape.

(** * The mid/side matrix; rendering twice *)

Section MidSide.
Import Js Types Constants WebAudio Engine.
Local Open Scope R_scope.

(** The current value of a gain node's [gain]. *)
Definition gainValue (g : Graph) (id : NodeId) : option R :=
  match getNode id g with
  | Some (GainNode p) => Some (value p)
  | _ => None
  end.

(** The product of the gains along a chain of gain nodes. *)
Fixpoint pathGain (g : Graph) (path : list NodeId) : option R :=
  match path with
  | [] => Some 1
  | id :: rest =>
      match gainValue g id, pathGain g rest with
      | Some a, Some b => Some (a * b)
      | _, _ => None
      end
  end.

Definition plus (a b : option R) : option R :=
  match a, b with
  | Some x, Some y => Some (x + y)
  | _, _ => None
  end.

(** The nodes of the mid/side stage, named as in the source. *)
Record MidSide : Type := mkMidSide {
  ms_splitter : NodeId;
  ms_merger : NodeId;
  ms_sumL : NodeId;
  ms_sumR : NodeId;
  ms_diffL : NodeId;
  ms_diffR : NodeId;
  ms_midChannel : NodeId;
  ms_sideChannel : NodeId;
  ms_stereoBass : NodeId;
  ms_msSideGain : NodeId;
  ms_outL_Mid : NodeId;
  ms_outL_Side : NodeId;
  ms_outR_Mid : NodeId;
  ms_outR_Side : NodeId
}.

Inductive Channel : Type := ChL | ChR.

(** The connections of [g] that end in [id] are exactly [ks]. *)
Definition inputs (g : Graph) (id : NodeId) (ks : list Connection) : Prop :=
  forall k, In k (connections g) /\ conn_dst k = id <-> In k ks.

(** The wiring between the splitter and the merger. *)
Definition mid_side_wired (g : Graph) (s : MidSide) : Prop :=
  getNode (ms_splitter s) g = Some (ChannelSplitterNode 2) /\
  getNode (ms_merger s) g = Some (ChannelMergerNode 2) /\
  inputs g (ms_sumL s) [mkConnection (ms_splitter s) 0 (ms_sumL s) 0] /\
  inputs g (ms_sumR s) [mkConnection (ms_splitter s) 1 (ms_sumR s) 0] /\
  inputs g (ms_diffL s) [mkConnection (ms_splitter s) 0 (ms_diffL s) 0] /\
  inputs g (ms_diffR s) [mkConnection (ms_splitter s) 1 (ms_diffR s) 0] /\
  inputs g (ms_midChannel s)
    [mkConnection (ms_sumL s) 0 (ms_midChannel s) 0;
     mkConnection (ms_sumR s) 0 (ms_midChannel s) 0] /\
  inputs g (ms_sideChannel s)
    [mkConnection (ms_diffL s) 0 (ms_sideChannel s) 0;
     mkConnection (ms_diffR s) 0 (ms_sideChannel s) 0] /\
  inputs g (ms_stereoBass s) [mkConnection (ms_sideChannel s) 0 (ms_stereoBass s) 0] /\
  inputs g (ms_msSideGain s) [mkConnection (ms_stereoBass s) 0 (ms_msSideGain s) 0] /\
  inputs g (ms_outL_Mid s) [mkConnection (ms_midChannel s) 0 (ms_outL_Mid s) 0] /\
  inputs g (ms_outL_Side s) [mkConnection (ms_msSideGain s) 0 (ms_outL_Side s) 0] /\
  inputs g (ms_outR_Mid s) [mkConnection (ms_midChannel s) 0 (ms_outR_Mid s) 0] /\
  inputs g (ms_outR_Side s) [mkConnection (ms_msSideGain s) 0 (ms_outR_Side s) 0] /\
  inputs g (ms_merger s)
    [mkConnection (ms_outL_Mid s) 0 (ms_merger s) 0;
     mkConnection (ms_outL_Side s) 0 (ms_merger s) 0;
     mkConnection (ms_outR_Mid s) 0 (ms_merger s) 1;
     mkConnection (ms_outR_Side s) 0 (ms_merger s) 1].

(** The gain from the splitter's output [from] to the merger's input [to]:
    the gains along the path through the mid channel and along the path
    through the side channel, added.  (The side path also passes the
    stereo-bass filter, which is no gain node.) *)
Definition mid_side_gain (g : Graph) (s : MidSide) (from to : Channel) : option R :=
  plus
    (pathGain g
       [ match from with ChL => ms_sumL s | ChR => ms_sumR s end;
         ms_midChannel s;
         match to with ChL => ms_outL_Mid s | ChR => ms_outR_Mid s end ])
    (pathGain g
       [ match from with ChL => ms_diffL s | ChR => ms_diffR s end;
         ms_sideChannel s;
         ms_msSideGain s;
         match to with ChL => ms_outL_Side s | ChR => ms_outR_Side s end ]).

Definition mid_side_stage (settings : MasteringSettings) (g : Graph) (s : MidSide)
  : Prop :=
  mid_side_wired g s /\
  option_map static (getNode (ms_stereoBass s) g)
  = Some (BiquadFilterNode lowshelf (param 120) (param 1)
            (param (stereoBass settings))) /\
  mid_side_gain g s ChL ChL = Some (1 + stereoWidth settings / 2) /\
  mid_side_gain g s ChR ChL = Some (- (stereoWidth settings / 2)) /\
  mid_side_gain g s ChL ChR = Some (- (stereoWidth settings / 2)) /\
  mid_side_gain g s ChR ChR = Some (1 + stereoWidth settings / 2).

Lemma gainValue_static (g : Graph) (id : NodeId) (v : R) :
  option_map static (getNode id g) = Some (GainNode (param v)) ->
  gainValue g id = Some v.
Proof.
  unfold gainValue. destruct (getNode id g) as [[]|]; cbn; intro H;
    try discriminate. inversion H. reflexivity.
Qed.

Lemma gainValue_node (g : Graph) (id : NodeId) (v : R) :
  getNode id g = Some (GainNode (param v)) -> gainValue g id = Some v.
Proof. unfold gainValue. now intros ->. Qed.

Ltac in_list :=
  cbn [In]; repeat (first [ left; reflexivity | right ]); fail.

Ltac only_inputs Hin Hdst :=
  cbn [In] in Hin;
  repeat (destruct Hin as [<-|Hin];
          [ cbn [conn_dst wire] in Hdst; unfold destination in Hdst;
            first [ exfalso; lia | in_list ] |]);
  contradiction.

Ltac are_inputs Hin tac :=
  cbn [In] in Hin;
  repeat (destruct Hin as [<-|Hin]; [split; [tac; in_list | reflexivity]|]);
  contradiction.

(** The mid/side nodes of an export, by creation order; [n] is the number of
    EQ stages. *)
Definition offlineStage (n : nat) : MidSide :=
  {| ms_splitter := 10 + n; ms_merger := 11 + n;
     ms_sumL := 12 + n; ms_sumR := 13 + n; ms_diffL := 14 + n; ms_diffR := 15 + n;
     ms_midChannel := 16 + n; ms_sideChannel := 17 + n;
     ms_msSideGain := 18 + n; ms_stereoBass := 19 + n;
     ms_outL_Mid := 20 + n; ms_outL_Side := 21 + n;
     ms_outR_Mid := 22 + n; ms_outR_Side := 23 + n |}%nat.

(** The mid/side nodes of the live graph: [setupGraph] creates the side gain
    and the stereo-bass filter (tenth and eleventh of its nodes, the first
    being [base]), [play] the others, after the source [m]. *)
Definition liveStage (base m : nat) : MidSide :=
  {| ms_splitter := 1 + m; ms_merger := 2 + m;
     ms_sumL := 3 + m; ms_sumR := 4 + m; ms_diffL := 5 + m; ms_diffR := 6 + m;
     ms_midChannel := 7 + m; ms_sideChannel := 8 + m;
     ms_msSideGain := 9 + base; ms_stereoBass := 10 + base;
     ms_outL_Mid := 9 + m; ms_outL_Side := 10 + m;
     ms_outR_Mid := 11 + m; ms_outR_Side := 12 + m |}%nat.

Lemma offline_mid_side (settings : MasteringSettings) (data impulse : AudioBufferData) :
  mid_side_stage settings
    (mkGraph (offlineNodes settings data impulse)
             (offlineConnections (List.length (eq settings))))
    (offlineStage (List.length (eq settings))).
Proof.
  set (n := List.length (eq settings)).
  set (g := mkGraph _ _).
  assert (Hnode : forall k, getNode (k + 2 + n)%nat g
                            = nth_error (offlineTail settings impulse) k)
    by (intro k; apply offlineNodes_after).
  assert (G12 : gainValue g (12 + n)%nat = Some 0.5)
    by (apply gainValue_node; exact (Hnode 10%nat)).
  assert (G13 : gainValue g (13 + n)%nat = Some 0.5)
    by (apply gainValue_node; exact (Hnode 11%nat)).
  assert (G14 : gainValue g (14 + n)%nat = Some 0.5)
    by (apply gainValue_node; exact (Hnode 12%nat)).
  assert (G15 : gainValue g (15 + n)%nat = Some (-0.5))
    by (apply gainValue_node; exact (Hnode 13%nat)).
  assert (G16 : gainValue g (16 + n)%nat = Some 1)
    by (apply gainValue_node; exact (Hnode 14%nat)).
  assert (G17 : gainValue g (17 + n)%nat = Some 1)
    by (apply gainValue_node; exact (Hnode 15%nat)).
  assert (G18 : gainValue g (18 + n)%nat = Some (1.0 + stereoWidth settings))
    by (apply gainValue_node; exact (Hnode 16%nat)).
  assert (G20 : gainValue g (20 + n)%nat = Some 1)
    by (apply gainValue_node; exact (Hnode 18%nat)).
  assert (G21 : gainValue g (21 + n)%nat = Some 1)
    by (apply gainValue_node; exact (Hnode 19%nat)).
  assert (G22 : gainValue g (22 + n)%nat = Some 1)
    by (apply gainValue_node; exact (Hnode 20%nat)).
  assert (G23 : gainValue g (23 + n)%nat = Some (-1))
    by (apply gainValue_node; exact (Hnode 21%nat)).
  unfold mid_side_stage, mid_side_wired, mid_side_gain, offlineStage.
  cbn [ms_splitter ms_merger ms_sumL ms_sumR ms_diffL ms_diffR ms_midChannel
       ms_sideChannel ms_stereoBass ms_msSideGain ms_outL_Mid ms_outL_Side
       ms_outR_Mid ms_outR_Side pathGain].
  rewrite G12, G13, G14, G15, G16, G17, G18, G20, G21, G22, G23. cbn [plus].
  split; [|split; [|repeat split; f_equal; lra]].
  - split; [exact (Hnode 8%nat)|]. split; [exact (Hnode 9%nat)|].
    subst g. unfold inputs. cbn [connections]. unfold offlineConnections.
    repeat match goal with |- _ /\ _ => split end.
    all: intro k; rewrite in_app_iff, In_links_seq; split;
      [ intros [[[j [Hj ->]]|Hin] Hdst];
        [ cbn [conn_dst wire] in Hdst; lia | only_inputs Hin Hdst ]
      | intro Hin; are_inputs Hin ltac:(right) ].
  - change (getNode (19 + n)%nat g) with (getNode (17 + 2 + n)%nat g).
    rewrite Hnode. reflexivity.
Qed.

Lemma live_mid_side (rate : nat) (settings : MasteringSettings)
  (data impulse : AudioBufferData)
  (offset : R) (L N3 : list AudioNode) (old : list Connection) :
  let base := List.length L in
  let n := List.length (eq settings) in
  let m := (15 + n + base)%nat in
  map static N3 = map static (L ++ liveNodes rate settings impulse) ->
  List.length N3 = m ->
  (forall k, In k old -> (conn_dst k < base)%nat) ->
  mid_side_stage settings
    (mkGraph (N3 ++ playNodes data offset) (old ++ playConnections base n m))
    (liveStage base m).
Proof.
  intros base n m Hst Hm Hold.
  set (g := mkGraph _ _).
  assert (Hnode : forall j, getNode (j + m)%nat g = nth_error (playNodes data offset) j).
  { intro j. unfold getNode. subst g. cbn [nodes].
    rewrite nth_error_app2 by lia. f_equal. lia. }
  assert (Hsetup : forall j, (j < 15)%nat ->
            option_map static (getNode (j + base)%nat g)
            = option_map static (nth_error (firstn 15 (liveNodes rate settings impulse)) j)).
  { intros j Hj. unfold getNode. subst g. cbn [nodes].
    rewrite nth_error_app1 by lia.
    rewrite (statics_nth _ _ _ Hst). unfold base.
    now rewrite liveNodes_head by exact Hj. }
  assert (G3 : gainValue g (3 + m)%nat = Some 0.5)
    by (apply gainValue_node; exact (Hnode 3%nat)).
  assert (G4 : gainValue g (4 + m)%nat = Some 0.5)
    by (apply gainValue_node; exact (Hnode 4%nat)).
  assert (G5 : gainValue g (5 + m)%nat = Some 0.5)
    by (apply gainValue_node; exact (Hnode 5%nat)).
  assert (G6 : gainValue g (6 + m)%nat = Some (-0.5))
    by (apply gainValue_node; exact (Hnode 6%nat)).
  assert (G7 : gainValue g (7 + m)%nat = Some 1)
    by (apply gainValue_node; exact (Hnode 7%nat)).
  assert (G8 : gainValue g (8 + m)%nat = Some 1)
    by (apply gainValue_node; exact (Hnode 8%nat)).
  assert (G9 : gainValue g (9 + m)%nat = Some 1)
    by (apply gainValue_node; exact (Hnode 9%nat)).
  assert (G10 : gainValue g (10 + m)%nat = Some 1)
    by (apply gainValue_node; exact (Hnode 10%nat)).
  assert (G11 : gainValue g (11 + m)%nat = Some 1)
    by (apply gainValue_node; exact (Hnode 11%nat)).
  assert (G12 : gainValue g (12 + m)%nat = Some (-1))
    by (apply gainValue_node; exact (Hnode 12%nat)).
  assert (Gw : gainValue g (9 + base)%nat = Some (1.0 + stereoWidth settings))
    by (apply gainValue_static; rewrite (Hsetup 9%nat) by lia; reflexivity).
  unfold mid_side_stage, mid_side_wired, mid_side_gain, liveStage.
  cbn [ms_splitter ms_merger ms_sumL ms_sumR ms_diffL ms_diffR ms_midChannel
       ms_sideChannel ms_stereoBass ms_msSideGain ms_outL_Mid ms_outL_Side
       ms_outR_Mid ms_outR_Side pathGain].
  rewrite G3, G4, G5, G6, G7, G8, G9, G10, G11, G12, Gw. cbn [plus].
  split; [|split; [|repeat split; f_equal; lra]].
  - split; [exact (Hnode 1%nat)|]. split; [exact (Hnode 2%nat)|].
    subst g. unfold inputs. cbn [connections]. unfold playConnections.
    repeat match goal with |- _ /\ _ => split end.
    all: intro k; rewrite !in_app_iff, In_links_seq; split;
      [ intros [[Hin|[[j [Hj ->]]|Hin]] Hdst];
        [ apply Hold in Hin; lia
        | cbn [conn_dst wire] in Hdst; lia
        | only_inputs Hin Hdst ]
      | intro Hin; are_inputs Hin ltac:(right; right) ].
  - rewrite (Hsetup 10%nat) by lia. reflexivity.
Qed.

(** The mid/side matrix.  In the graph an export renders and in the live
    graph [play] builds (when the connections the context had all end in
    nodes it had), the stage between the channel splitter and the channel
    merger is wired as follows and has no other inputs: the splitter's left
    and right outputs feed [sumL]/[diffL] and [sumR]/[diffR]; [sumL] and
    [sumR] feed the mid channel, [diffL] and [diffR] the side channel; the
    side channel passes the stereo-bass low shelf (120 Hz, gain
    [settings.stereoBass] dB) and then the side gain; mid and side gain feed
    the four output gains, which enter the merger's inputs 0 (left) and 1
    (right).  The gain values multiply out to the matrix
    [1 + w/2, -w/2; -w/2, 1 + w/2] with [w = settings.stereoWidth], the
    identity matrix for width 0. *)
Theorem mid_side_matrix (offset : R) (settings : MasteringSettings)
  (e : AudioEngine) (w : World) (c : AudioContext) (b : AudioBuffer) :
  audioContext e = Some c -> audioBuffer e = Some b ->
  (forall k, In k (connections (ac_graph c)) ->
     (conn_dst k < List.length (nodes (ac_graph c)))%nat) ->
  let n := List.length (eq settings) in
  let base := List.length (nodes (ac_graph c)) in
  exists job g,
    outcome (renderOffline settings e w) = Return (startRendering job) /\
    option_map ac_graph (audioContext (engine_after (play offset settings e w)))
    = Some g /\
    mid_side_stage settings (job_graph job) (offlineStage n) /\
    mid_side_stage settings g (liveStage base (15 + n + base)).
Proof.
  intros Hc Hb Hclosed n base.
  destruct (play_result offset settings e w c b Hc Hb)
    as (N3 & impulse & Hst & Hm & _ & Hctx & _).
  cbv zeta in Hst, Hm, Hctx.
  eexists. eexists.
  split; [apply renderOffline_graph; exact Hb|].
  split; [rewrite Hctx; reflexivity|].
  cbn [job_graph]. split; [apply offline_mid_side|].
  apply (live_mid_side (ac_sampleRate c) settings (buf_data b) (buf_data impulse) offset
           (nodes (ac_graph c)) N3); [exact Hst | exact Hm |].
  intros k Hk. apply (proj2 (disconnectAll_spec e (ac_graph c))) in Hk.
  apply Hclosed. tauto.
Qed.

Lemma mid_side_matrix_witness :
  exists job g,
    outcome (renderOffline DEFAULT_SETTINGS engine1 world1)
    = Return (startRendering job) /\
    option_map ac_graph
      (audioContext (engine_after (play 0 DEFAULT_SETTINGS engine1 world1)))
    = Some g /\
    mid_side_gain (job_graph job) (offlineStage 14) ChL ChL = Some (1 + 0 / 2) /\
    mid_side_gain g (liveStage 1 30) ChR ChL = Some (- (0 / 2)).
Proof.
  assert (H : forall k,
            In k (connections (ac_graph (mkAudioContext 0 44100 0 running emptyGraph))) ->
            (conn_dst k
             < List.length (nodes (ac_graph (mkAudioContext 0 44100 0 running emptyGraph))))%nat)
    by (intros k []).
  destruct (mid_side_matrix 0 DEFAULT_SETTINGS engine1 world1 _ _
              engine1_context engine1_buffer H)
    as (job & g & H1 & H2 & (_ & _ & H3 & _) & (_ & _ & _ & H4 & _)).
  exists job, g. exact (conj H1 (conj H2 (conj H3 H4))).
Defined.

(** ** Rendering twice *)

Lemma envelope_start (len : nat) (decay : R) :
  Math_pow (1 - INR 0 / INR len) decay = 1.
Proof.
  cbn [INR]. unfold Rdiv. rewrite Rmult_0_l, Rminus_0_r.
  unfold Math_pow. destruct (Req_dec_T 1 0) as [H|_]; [lra|].
  unfold Rpower. rewrite ln_1, Rmult_0_r. apply exp_0.
Qed.

Lemma synthesizeImpulse_first (ctx : BaseAudioContext) (duration : nat)
  (decay : R) (w : World) :
  (0 < ctx_sampleRate ctx * duration)%nat ->
  nth 0 (nth 0 (channelData (buf_data (fst (synthesizeImpulse ctx duration decay
                                              false w)))) []) 0
  = random w (drawn w) * 2 - 1.
Proof.
  intro Hlen. unfold synthesizeImpulse, fresh_id.
  destruct (ctx_sampleRate ctx * duration)%nat as [|len] eqn:E; [lia|].
  cbn [impulseLoop]. unfold Math_random. cbn [random drawn next_id].
  destruct (impulseLoop len 1 (S len) decay false _) as [[l r] w'].
  cbn [fst buf_data channelData nth].
  rewrite envelope_start. ring.
Qed.

Lemma offlineNodes_but_impulse (settings : MasteringSettings)
  (data impulse1 impulse2 : AudioBufferData) (id : nat) :
  id <> (24 + List.length (eq settings))%nat ->
  nth_error (offlineNodes settings data impulse1) id
  = nth_error (offlineNodes settings data impulse2) id.
Proof.
  intro Hid. set (n := List.length (eq settings)) in *.
  destruct (Nat.lt_ge_cases id (2 + n)) as [Hlt|Hge].
  - unfold offlineNodes. cbv zeta. rewrite !app_assoc.
    rewrite (nth_error_app1 _ (offlineTail settings impulse1)),
            (nth_error_app1 _ (offlineTail settings impulse2))
      by (rewrite length_app, eqStages_length; cbn [List.length]; fold n; lia).
    reflexivity.
  - replace id with ((id - (2 + n)) + 2 + n)%nat in * by lia.
    rewrite !offlineNodes_after.
    assert (Hk : (id - (2 + n))%nat <> 22%nat) by lia.
    destruct (id - (2 + n))%nat as [|k]; [reflexivity|].
    do 21 (destruct k as [|k]; [reflexivity|]).
    destruct k as [|k]; [contradiction|].
    do 4 (destruct k as [|k]; [reflexivity|]). reflexivity.
Qed.

(** Rendering twice.  Two successive exports of the same engine with the
    same settings both return.  The graphs they hand to the host agree in
    every connection and in every node except the convolver: each render
    synthesizes its own impulse response from the next random numbers, the
    second starting 2 * 3 * sampleRate numbers after the first, and the two
    jobs are the same exactly when these two impulse responses are.  The
    first sample of an impulse's left channel is [2 * Math.random() - 1] of
    the first number drawn for it.  What the host renders from the two jobs
    is not stated. *)
Theorem renderOffline_twice (settings : MasteringSettings) (e : AudioEngine)
  (w : World) (buffer : AudioBuffer) :
  audioBuffer e = Some buffer ->
  let r1 := renderOffline settings e w in
  let r2 := renderOffline settings (engine_after r1) (world_after r1) in
  let convolver := (24 + List.length (eq settings))%nat in
  let rate := sampleRate (buf_data buffer) in
  let later := (drawn w + 2 * (rate * 3))%nat in
  let impulse_from position :=
    buf_data (fst (synthesizeImpulse (mkBaseAudioContext Offline 0 rate) 3
                     (decay (reverb settings)) false
                     (mkWorld 0 (random w) position))) in
  exists job1 job2,
    outcome r1 = Return (startRendering job1) /\
    outcome r2 = Return (startRendering job2) /\
    getNode convolver (job_graph job1)
    = Some (ConvolverNode (Some (impulse_from (drawn w)))) /\
    getNode convolver (job_graph job2)
    = Some (ConvolverNode (Some (impulse_from later))) /\
    (forall id, id <> convolver ->
       getNode id (job_graph job1) = getNode id (job_graph job2)) /\
    connections (job_graph job1) = connections (job_graph job2) /\
    job_numberOfChannels job1 = job_numberOfChannels job2 /\
    job_length job1 = job_length job2 /\
    job_sampleRate job1 = job_sampleRate job2 /\
    (job1 = job2 <-> impulse_from (drawn w) = impulse_from later) /\
    ((0 < rate)%nat ->
     forall position,
       nth 0 (nth 0 (channelData (impulse_from position)) []) 0
       = random w position * 2 - 1).
Proof.
  intros Hb r1 r2 convolver rate later impulse_from.
  destruct (renderOffline_run settings e w buffer Hb) as [g1 Hrun].
  pose proof (renderOffline_graph settings e w buffer Hb) as H1.
  assert (He : engine_after r1 = e) by (subst r1; now rewrite Hrun).
  assert (Hw : world_after r1
               = snd (synthesizeImpulse
                        (mkBaseAudioContext Offline (next_id w)
                           (sampleRate (buf_data buffer)))
                        3 (decay (reverb settings)) false
                        (mkWorld (S (next_id w)) (random w) (drawn w))))
    by (subst r1; now rewrite Hrun).
  pose proof (renderOffline_graph settings e (world_after r1) buffer Hb) as H2.
  fold r1 in H1. subst r2. rewrite He.
  set (ctx1 := mkBaseAudioContext Offline (next_id w) (sampleRate (buf_data buffer))) in *.
  set (w1 := mkWorld (S (next_id w)) (random w) (drawn w)) in *.
  pose proof (synthesizeImpulse_fresh ctx1 3 (decay (reverb settings)) false w1) as Hf.
  pose proof (synthesizeImpulse_drawn ctx1 3 (decay (reverb settings)) false w1) as Hd.
  rewrite <- Hw in Hd.
  assert (Hr : random (world_after r1) = random w).
  { rewrite Hw. destruct (synthesizeImpulse ctx1 3 _ false w1) as [b1 w'].
    cbn [snd]. destruct Hf as [_ [_ [Hr _]]]. exact Hr. }
  cbn [ctx_sampleRate ctx1 drawn w1] in Hd.
  set (w2 := world_after r1) in *.
  rewrite (synthesizeImpulse_data ctx1 (mkBaseAudioContext Offline 0 rate)
             3 (decay (reverb settings)) false w1 (mkWorld 0 (random w) (drawn w)))
    in H1 by reflexivity.
  rewrite (synthesizeImpulse_data
             (mkBaseAudioContext Offline (next_id w2) (sampleRate (buf_data buffer)))
             (mkBaseAudioContext Offline 0 rate)
             3 (decay (reverb settings)) false
             (mkWorld (S (next_id w2)) (random w2) (drawn w2))
             (mkWorld 0 (random w) later))
    in H2 by (cbn [ctx_sampleRate random drawn]; first [reflexivity | exact Hr | exact Hd]).
  fold (impulse_from (drawn w)) in H1. fold (impulse_from later) in H2.
  assert (Hnode : forall imp,
            nth_error (offlineNodes settings (buf_data buffer) imp) convolver
            = Some (ConvolverNode (Some imp))).
  { intro imp. change convolver with (22 + 2 + List.length (eq settings))%nat.
    rewrite offlineNodes_after. reflexivity. }
  eexists. eexists.
  split; [exact H1|]. split; [exact H2|].
  cbn [job_graph job_numberOfChannels job_length job_sampleRate].
  unfold getNode. cbn [nodes connections].
  split; [apply Hnode|]. split; [apply Hnode|].
  split; [intros id Hid; now apply offlineNodes_but_impulse|].
  split; [reflexivity|]. split; [reflexivity|]. split; [reflexivity|].
  split; [reflexivity|]. split.
  - split.
    + intro Heq.
      assert (Hn : nth_error (offlineNodes settings (buf_data buffer)
                                (impulse_from (drawn w))) convolver
                   = nth_error (offlineNodes settings (buf_data buffer)
                                  (impulse_from later)) convolver)
        by (apply (f_equal (fun j => nth_error (nodes (job_graph j)) convolver)) in Heq;
            exact Heq).
      rewrite !Hnode in Hn. now inversion Hn.
    + intros ->. reflexivity.
  - intros Hrate position. unfold impulse_from.
    rewrite synthesizeImpulse_first by (cbn [ctx_sampleRate]; fold rate; lia).
    reflexivity.
Qed.

Lemma world0_random_differs (n m : nat) :
  n <> m -> random world0 n <> random world0 m.
Proof.
  intros Hne H. unfold world0 in H. cbn [random] in H.
  apply Rinv_eq_reg in H. apply INR_eq in H. lia.
Qed.

Lemma renderOffline_twice_witness :
  exists job1 job2,
    outcome (renderOffline DEFAULT_SETTINGS engine1 world1)
    = Return (startRendering job1) /\
    outcome (renderOffline DEFAULT_SETTINGS
               (engine_after (renderOffline DEFAULT_SETTINGS engine1 world1))
               (world_after (renderOffline DEFAULT_SETTINGS engine1 world1)))
    = Return (startRendering job2) /\
    job1 <> job2.
Proof.
  assert (Hrate : (0 < sampleRate (buf_data (mkAudioBuffer 1 decoded0)))%nat)
    by (apply Nat.ltb_lt; reflexivity).
  destruct (renderOffline_twice DEFAULT_SETTINGS engine1 world1
              (mkAudioBuffer 1 decoded0) engine1_buffer)
    as (job1 & job2 & H1 & H2 & _ & _ & _ & _ & _ & _ & _ & Hiff & Hfirst).
  exists job1, job2. split; [exact H1|]. split; [exact H2|].
  intro Heq. apply (proj1 Hiff) in Heq.
  apply (f_equal (fun imp => nth 0 (nth 0 (channelData imp) []) 0)) in Heq.
  rewrite !(Hfirst Hrate) in Heq.
  assert (Hr : random world1 (drawn world1)
               = random world1
                   (drawn world1
                    + 2 * (sampleRate (buf_data (mkAudioBuffer 1 decoded0)) * 3))%nat)
    by lra.
  revert Hr. apply world0_random_differs.
  generalize Hrate. generalize (sampleRate (buf_data (mkAudioBuffer 1 decoded0))).
  intros k Hk. change (drawn world1) with 0%nat. lia.
Defined.

End MidSide.
